(** * digimenu (MenuQR): the server's routes and storage layer

    A shallow embedding of [server/routes.ts], [server/storage.ts] and the
    table definitions of [shared/schema.ts], with the properties of the
    plan gate, the tenant-ownership gate, the billing bridge, the public
    menu projection and slug derivation.

    Conventions of the embedding
    - a JavaScript string is a [string]: a sequence of code units below 256;
    - a table is the list of its rows in insertion order;
    - an [async] storage method is a function on the [Store] that either
      resolves with a value or rejects with an [Exn]; writes made before a
      rejection stay in the store (the source opens no transaction);
    - what the database engine and the billing provider decide on their own
      (generated uuids, [now()], the ids the provider issues, a statement or
      API call that is rejected) is an explicit argument of the operation. *)

From Stdlib Require Import String Ascii List Bool Arith ZArith NArith Lia Permutation.
Import ListNotations.
Local Open Scope string_scope.

(** ** JavaScript string primitives used by the routes *)

Module Js.

Definition code (c : ascii) : nat := nat_of_ascii c.

Definition between (lo hi : nat) (c : ascii) : bool :=
  (lo <=? code c)%nat && (code c <=? hi)%nat.

(** [\s] of a regular expression, and the characters [String.prototype.trim]
    removes, restricted to code units below 256: TAB, LF, VT, FF, CR,
    SPACE and NO-BREAK SPACE. *)
Definition is_space (c : ascii) : bool :=
  between 9 13 c || (code c =? 32)%nat || (code c =? 160)%nat.

Definition is_lower_az (c : ascii) : bool := between 97 122 c.
Definition is_digit (c : ascii) : bool := between 48 57 c.
Definition is_hyphen (c : ascii) : bool := (code c =? 45)%nat.

(** [String.prototype.toLowerCase] on one code unit below 256: [A-Z] and the
    Latin-1 capitals U+00C0..U+00DE (U+00D7 excepted) move up by 32. *)
Definition toLowerCase_char (c : ascii) : ascii :=
  if between 65 90 c then ascii_of_nat (code c + 32)
  else if between 192 222 c && negb (code c =? 215)%nat then ascii_of_nat (code c + 32)
  else c.

Fixpoint toLowerCase (s : string) : string :=
  match s with
  | EmptyString => EmptyString
  | String c s' => String (toLowerCase_char c) (toLowerCase s')
  end.

(** [s.replace(/[^...]/g, '')]: every character outside the class [keep] is
    deleted. *)
Fixpoint remove_outside (keep : ascii -> bool) (s : string) : string :=
  match s with
  | EmptyString => EmptyString
  | String c s' =>
      if keep c then String c (remove_outside keep s') else remove_outside keep s'
  end.

(** [s.replace(/p+/g, '-')]: every maximal run of characters of the class
    [p] becomes one hyphen. [in_run] tells that the previous character
    was in the class, so the run's hyphen is already written. *)
Fixpoint replace_runs (p : ascii -> bool) (in_run : bool) (s : string) : string :=
  match s with
  | EmptyString => EmptyString
  | String c s' =>
      if p c
      then (if in_run then replace_runs p true s'
            else String "-" (replace_runs p true s'))
      else String c (replace_runs p false s')
  end.

Fixpoint trimStart (s : string) : string :=
  match s with
  | EmptyString => EmptyString
  | String c s' => if is_space c then trimStart s' else s
  end.

Fixpoint trimEnd (s : string) : string :=
  match s with
  | EmptyString => EmptyString
  | String c s' =>
      match trimEnd s' with
      | EmptyString => if is_space c then EmptyString else String c EmptyString
      | t => String c t
      end
  end.

(** [String.prototype.trim]: white space is removed at both ends. *)
Definition trim (s : string) : string := trimEnd (trimStart s).

(** Truthiness of a string value and of a nullable string. *)
Definition truthy (s : string) : bool :=
  match s with EmptyString => false | _ => true end.

Definition truthy_opt (o : option string) : bool :=
  match o with Some s => truthy s | None => false end.

End Js.

(** ** [generateSlug] (routes.ts) *)

Definition slug_class (c : ascii) : bool :=
  Js.is_lower_az c || Js.is_digit c || Js.is_space c || Js.is_hyphen c.

Definition generateSlug (name : string) : string :=
  Js.trim
    (Js.replace_runs Js.is_hyphen false
       (Js.replace_runs Js.is_space false
          (Js.remove_outside slug_class
             (Js.toLowerCase name)))).

(** ** Rows of the five tables (shared/schema.ts)

    [varchar] and [text] columns are strings, a nullable column is an
    [option], a [timestamp] is a number of milliseconds, [decimal] is the
    text the driver returns for it. *)

Record User := {
  u_id : string;
  u_email : string;
  u_password : string;
  u_plan : string;                          (* 'free' or 'premium' *)
  u_stripeCustomerId : option string;
  u_stripeSubscriptionId : option string;
  u_subscriptionStatus : option string;
  u_subscriptionEndsAt : option N;
  u_createdAt : option N
}.

Record Restaurant := {
  r_id : string;
  r_userId : string;
  r_name : string;
  r_description : option string;
  r_address : option string;
  r_phone : option string;
  r_hours : option string;
  r_logoUrl : option string;
  r_primaryColor : option string;
  r_menuStyle : option string;
  r_slug : string;
  r_createdAt : option N;
  r_updatedAt : option N
}.

Record Category := {
  c_id : string;
  c_restaurantId : string;
  c_name : string;
  c_order : Z
}.

Record Product := {
  p_id : string;
  p_restaurantId : string;
  p_categoryId : option string;
  p_name : string;
  p_description : option string;
  p_price : string;
  p_imageUrl : option string;
  p_isActive : bool;
  p_order : Z;
  p_createdAt : option N;
  p_updatedAt : option N
}.

Record MenuView := {
  v_id : string;
  v_restaurantId : string;
  v_viewedAt : option N;
  v_userAgent : option string;
  v_ipAddress : option string
}.

(** The database: one list of rows per table. *)
Record Store := {
  users : list User;
  restaurants : list Restaurant;
  categories : list Category;
  products : list Product;
  menuViews : list MenuView
}.

Definition empty_store : Store :=
  {| users := []; restaurants := []; categories := []; products := []; menuViews := [] |}.

(** ** Values written by the insert schemas and by partial updates

    A key that is absent from the object ([undefined]) is [None]; for a
    nullable column the value under a present key is itself an [option]. *)

Record InsertUser := {
  iu_email : string;
  iu_password : string;
  iu_plan : option string;
  iu_stripeCustomerId : option (option string);
  iu_stripeSubscriptionId : option (option string);
  iu_subscriptionStatus : option (option string);
  iu_subscriptionEndsAt : option (option N)
}.

Record UserPatch := {
  up_email : option string;
  up_password : option string;
  up_plan : option string;
  up_stripeCustomerId : option (option string);
  up_stripeSubscriptionId : option (option string);
  up_subscriptionStatus : option (option string);
  up_subscriptionEndsAt : option (option N)
}.

Record InsertRestaurant := {
  ir_userId : string;
  ir_name : string;
  ir_description : option (option string);
  ir_address : option (option string);
  ir_phone : option (option string);
  ir_hours : option (option string);
  ir_logoUrl : option (option string);
  ir_primaryColor : option (option string);
  ir_menuStyle : option (option string);
  ir_slug : string
}.

Record InsertProduct := {
  ip_name : string;
  ip_description : option (option string);
  ip_price : string;
  ip_categoryId : option (option string);
  ip_imageUrl : option (option string);
  ip_isActive : option bool;
  ip_order : option Z
}.

(** [Partial<InsertProduct>], what [insertProductSchema.partial()] yields. *)
Record ProductPatch := {
  pp_name : option string;
  pp_description : option (option string);
  pp_price : option string;
  pp_categoryId : option (option string);
  pp_imageUrl : option (option string);
  pp_isActive : option bool;
  pp_order : option Z
}.

(** ** Exceptions and settled promises *)

Inductive Exn :=
| UniqueViolation (constr : string)       (* PostgreSQL 23505 *)
| ForeignKeyViolation (constr : string)   (* PostgreSQL 23503 *)
| EngineFault (msg : string)              (* any other rejection of a statement *)
| ZodError (paths : list string)          (* the paths of the issues *)
| TypeError (msg : string)
| StripeError (msg : string)
| JsError (msg : string).                 (* [new Error(msg)] *)

Inductive Settled (A : Type) :=
| Resolved (a : A)
| Rejected (e : Exn).
Arguments Resolved {A} a.
Arguments Rejected {A} e.

(** What the database engine contributes to one write: the value of
    [gen_random_uuid()], the clock ([now()] in a column default, [new Date()]
    in an update), and whether it rejects the statement for a reason that
    lies outside the constraints modelled here (text that is no numeric, an
    integer out of range, a lost connection). Reads are taken to be
    answered. *)
Record Engine := {
  uuid : string;
  now : N;
  fault : option string
}.

(** A column default: used when the key is absent. *)
Definition dflt {A} (d : A) (o : option A) : A :=
  match o with Some a => a | None => d end.

Definition first {A} (l : list A) : option A :=
  match l with x :: _ => Some x | [] => None end.

Definition has_key {A} (key : A -> string) (k : string) (l : list A) : bool :=
  existsb (fun a => key a =? k) l.

(** A stable insertion sort: [ORDER BY] with ties left in table order (SQL
    leaves the order of ties open). *)
Fixpoint insert_sorted {A} (le : A -> A -> bool) (a : A) (l : list A) : list A :=
  match l with
  | [] => [a]
  | b :: l' => if le a b then a :: l else b :: insert_sorted le a l'
  end.

Fixpoint order_by {A} (le : A -> A -> bool) (l : list A) : list A :=
  match l with
  | [] => []
  | a :: l' => insert_sorted le a (order_by le l')
  end.

Definition set_users (s : Store) (l : list User) : Store :=
  {| users := l; restaurants := restaurants s; categories := categories s;
     products := products s; menuViews := menuViews s |}.

Definition set_restaurants (s : Store) (l : list Restaurant) : Store :=
  {| users := users s; restaurants := l; categories := categories s;
     products := products s; menuViews := menuViews s |}.

Definition set_categories (s : Store) (l : list Category) : Store :=
  {| users := users s; restaurants := restaurants s; categories := l;
     products := products s; menuViews := menuViews s |}.

Definition set_products (s : Store) (l : list Product) : Store :=
  {| users := users s; restaurants := restaurants s; categories := categories s;
     products := l; menuViews := menuViews s |}.

Definition set_menuViews (s : Store) (l : list MenuView) : Store :=
  {| users := users s; restaurants := restaurants s; categories := categories s;
     products := products s; menuViews := l |}.

Definition references (o : option string) (id : string) : bool :=
  match o with Some k => k =? id | None => false end.

(** [.set(patch)] on one row: a key that is present overwrites the column. *)
Definition patch_user (d : UserPatch) (u : User) : User :=
  {| u_id := u_id u;
     u_email := dflt (u_email u) (up_email d);
     u_password := dflt (u_password u) (up_password d);
     u_plan := dflt (u_plan u) (up_plan d);
     u_stripeCustomerId := dflt (u_stripeCustomerId u) (up_stripeCustomerId d);
     u_stripeSubscriptionId := dflt (u_stripeSubscriptionId u) (up_stripeSubscriptionId d);
     u_subscriptionStatus := dflt (u_subscriptionStatus u) (up_subscriptionStatus d);
     u_subscriptionEndsAt := dflt (u_subscriptionEndsAt u) (up_subscriptionEndsAt d);
     u_createdAt := u_createdAt u |}.

Definition patch_product (d : ProductPatch) (t : N) (p : Product) : Product :=
  {| p_id := p_id p;
     p_restaurantId := p_restaurantId p;
     p_categoryId := dflt (p_categoryId p) (pp_categoryId d);
     p_name := dflt (p_name p) (pp_name d);
     p_description := dflt (p_description p) (pp_description d);
     p_price := dflt (p_price p) (pp_price d);
     p_imageUrl := dflt (p_imageUrl p) (pp_imageUrl d);
     p_isActive := dflt (p_isActive p) (pp_isActive d);
     p_order := dflt (p_order p) (pp_order d);
     p_createdAt := p_createdAt p;
     p_updatedAt := Some t |}.

(** [ON DELETE SET NULL] of [products.category_id]. *)
Definition null_category (id : string) (p : Product) : Product :=
  if references (p_categoryId p) id then
    {| p_id := p_id p;
       p_restaurantId := p_restaurantId p;
       p_categoryId := None;
       p_name := p_name p;
       p_description := p_description p;
       p_price := p_price p;
       p_imageUrl := p_imageUrl p;
       p_isActive := p_isActive p;
       p_order := p_order p;
       p_createdAt := p_createdAt p;
       p_updatedAt := p_updatedAt p |}
  else p.

(** [ORDER BY products.order, products.created_at DESC]; PostgreSQL puts
    nulls first in a descending key. *)
Definition created_desc (a b : option N) : bool :=
  match a, b with
  | None, _ => true
  | Some _, None => false
  | Some x, Some y => (y <=? x)%N
  end.

Definition product_le (p q : Product) : bool :=
  (p_order p <? p_order q)%Z
  || ((p_order p =? p_order q)%Z && created_desc (p_createdAt p) (p_createdAt q)).

Definition category_le (c d : Category) : bool := (c_order c <=? c_order d)%Z.

(** [Partial<InsertRestaurant>], what [insertRestaurantSchema.partial()]
    yields: the schema keeps [slug] and leaves [id] and [userId] out. *)
Record RestaurantPatch := {
  rp_name : option string;
  rp_description : option (option string);
  rp_address : option (option string);
  rp_phone : option (option string);
  rp_hours : option (option string);
  rp_logoUrl : option (option string);
  rp_primaryColor : option (option string);
  rp_menuStyle : option (option string);
  rp_slug : option string
}.

Record InsertCategory := {
  ic_name : string;
  ic_order : option Z
}.

Definition patch_restaurant (d : RestaurantPatch) (t : N) (r : Restaurant) : Restaurant :=
  {| r_id := r_id r;
     r_userId := r_userId r;
     r_name := dflt (r_name r) (rp_name d);
     r_description := dflt (r_description r) (rp_description d);
     r_address := dflt (r_address r) (rp_address d);
     r_phone := dflt (r_phone r) (rp_phone d);
     r_hours := dflt (r_hours r) (rp_hours d);
     r_logoUrl := dflt (r_logoUrl r) (rp_logoUrl d);
     r_primaryColor := dflt (r_primaryColor r) (rp_primaryColor d);
     r_menuStyle := dflt (r_menuStyle r) (rp_menuStyle d);
     r_slug := dflt (r_slug r) (rp_slug d);
     r_createdAt := r_createdAt r;
     r_updatedAt := Some t |}.

(** ** The storage layer ([DatabaseStorage], storage.ts)

    A read is a function of the store. A write takes what the engine
    contributes and returns the store it leaves with the settled promise. *)

Module storage.

(* Users *)

Definition getUser (s : Store) (id : string) : option User :=
  first (filter (fun u => u_id u =? id) (users s)).

Definition getUserByEmail (s : Store) (email : string) : option User :=
  first (filter (fun u => u_email u =? email) (users s)).

Definition createUser (g : Engine) (iu : InsertUser) (s : Store)
  : Store * Settled User :=
  match fault g with
  | Some m => (s, Rejected (EngineFault m))
  | None =>
      if has_key u_id (uuid g) (users s)
      then (s, Rejected (UniqueViolation "users_pkey"))
      else if has_key u_email (iu_email iu) (users s)
      then (s, Rejected (UniqueViolation "users_email_unique"))
      else
        let u := {| u_id := uuid g;
                    u_email := iu_email iu;
                    u_password := iu_password iu;
                    u_plan := dflt "free" (iu_plan iu);
                    u_stripeCustomerId := dflt None (iu_stripeCustomerId iu);
                    u_stripeSubscriptionId := dflt None (iu_stripeSubscriptionId iu);
                    u_subscriptionStatus := dflt None (iu_subscriptionStatus iu);
                    u_subscriptionEndsAt := dflt None (iu_subscriptionEndsAt iu);
                    u_createdAt := Some (now g) |} in
        (set_users s (users s ++ [u]), Resolved u)
  end.

(** The first returned row, [undefined] when no row has this id. *)
Definition updateUser (g : Engine) (id : string) (data : UserPatch) (s : Store)
  : Store * Settled (option User) :=
  match fault g with
  | Some m => (s, Rejected (EngineFault m))
  | None =>
      let clash :=
        match up_email data with
        | Some e =>
            has_key u_id id (users s)
            && existsb (fun u => (u_email u =? e) && negb (u_id u =? id)) (users s)
        | None => false
        end in
      if clash then (s, Rejected (UniqueViolation "users_email_unique"))
      else
        let us := map (fun u => if u_id u =? id then patch_user data u else u) (users s) in
        (set_users s us, Resolved (first (filter (fun u => u_id u =? id) us)))
  end.

Definition updateUserStripeInfo (g : Engine) (id customerId subscriptionId : string)
           (s : Store) : Store * Settled (option User) :=
  updateUser g id
    {| up_email := None;
       up_password := None;
       up_plan := Some "premium";
       up_stripeCustomerId := Some (Some customerId);
       up_stripeSubscriptionId := Some (Some subscriptionId);
       up_subscriptionStatus := Some (Some "active");
       up_subscriptionEndsAt := None |} s.

(* Restaurants *)

Definition getRestaurantByUserId (s : Store) (userId : string) : option Restaurant :=
  first (filter (fun r => r_userId r =? userId) (restaurants s)).

Definition getRestaurantBySlug (s : Store) (slug : string) : option Restaurant :=
  first (filter (fun r => r_slug r =? slug) (restaurants s)).

Definition createRestaurant (g : Engine) (ir : InsertRestaurant) (s : Store)
  : Store * Settled Restaurant :=
  match fault g with
  | Some m => (s, Rejected (EngineFault m))
  | None =>
      if has_key r_id (uuid g) (restaurants s)
      then (s, Rejected (UniqueViolation "restaurants_pkey"))
      else if has_key r_slug (ir_slug ir) (restaurants s)
      then (s, Rejected (UniqueViolation "restaurants_slug_unique"))
      else if negb (has_key u_id (ir_userId ir) (users s))
      then (s, Rejected (ForeignKeyViolation "restaurants_user_id_users_id_fk"))
      else
        let r := {| r_id := uuid g;
                    r_userId := ir_userId ir;
                    r_name := ir_name ir;
                    r_description := dflt None (ir_description ir);
                    r_address := dflt None (ir_address ir);
                    r_phone := dflt None (ir_phone ir);
                    r_hours := dflt None (ir_hours ir);
                    r_logoUrl := dflt None (ir_logoUrl ir);
                    r_primaryColor := dflt (Some "#059669") (ir_primaryColor ir);
                    r_menuStyle := dflt (Some "cards") (ir_menuStyle ir);
                    r_slug := ir_slug ir;
                    r_createdAt := Some (now g);
                    r_updatedAt := Some (now g) |} in
        (set_restaurants s (restaurants s ++ [r]), Resolved r)
  end.

Definition getRestaurant (s : Store) (id : string) : option Restaurant :=
  first (filter (fun r => r_id r =? id) (restaurants s)).

(** [.set({ ...data, updatedAt: new Date() })] on the rows with this id;
    the first returned row, [undefined] when there is none. *)
Definition updateRestaurant (g : Engine) (id : string) (data : RestaurantPatch) (s : Store)
  : Store * Settled (option Restaurant) :=
  match fault g with
  | Some m => (s, Rejected (EngineFault m))
  | None =>
      let clash :=
        match rp_slug data with
        | Some slug =>
            has_key r_id id (restaurants s)
            && existsb (fun r => (r_slug r =? slug) && negb (r_id r =? id)) (restaurants s)
        | None => false
        end in
      if clash then (s, Rejected (UniqueViolation "restaurants_slug_unique"))
      else
        let rs := map (fun r => if r_id r =? id then patch_restaurant data (now g) r else r)
                      (restaurants s) in
        (set_restaurants s rs, Resolved (first (filter (fun r => r_id r =? id) rs)))
  end.

(* Categories *)

Definition getCategoriesByRestaurant (s : Store) (restaurantId : string) : list Category :=
  order_by category_le
    (filter (fun c => c_restaurantId c =? restaurantId) (categories s)).

Definition createCategory (g : Engine) (restaurantId : string) (ic : InsertCategory)
           (s : Store) : Store * Settled Category :=
  match fault g with
  | Some m => (s, Rejected (EngineFault m))
  | None =>
      if has_key c_id (uuid g) (categories s)
      then (s, Rejected (UniqueViolation "categories_pkey"))
      else if negb (has_key r_id restaurantId (restaurants s))
      then (s, Rejected (ForeignKeyViolation "categories_restaurant_id_restaurants_id_fk"))
      else
        let c := {| c_id := uuid g;
                    c_restaurantId := restaurantId;
                    c_name := ic_name ic;
                    c_order := dflt 0%Z (ic_order ic) |} in
        (set_categories s (categories s ++ [c]), Resolved c)
  end.

(** [DELETE FROM categories WHERE id = $1]; the foreign key of
    [products.category_id] is declared [onDelete: "set null"]. *)
Definition deleteCategory (g : Engine) (id : string) (s : Store)
  : Store * Settled unit :=
  match fault g with
  | Some m => (s, Rejected (EngineFault m))
  | None =>
      if has_key c_id id (categories s)
      then
        ({| users := users s;
            restaurants := restaurants s;
            categories := filter (fun c => negb (c_id c =? id)) (categories s);
            products := map (null_category id) (products s);
            menuViews := menuViews s |}, Resolved tt)
      else (s, Resolved tt)
  end.

(* Products *)

Definition getProduct (s : Store) (id : string) : option Product :=
  first (filter (fun p => p_id p =? id) (products s)).

Definition getProductsByRestaurant (s : Store) (restaurantId : string) : list Product :=
  order_by product_le
    (filter (fun p => p_restaurantId p =? restaurantId) (products s)).

Definition getProductsByCategory (s : Store) (categoryId : string) : list Product :=
  order_by (fun p q => (p_order p <=? p_order q)%Z)
    (filter (fun p => references (p_categoryId p) categoryId) (products s)).

Definition createProduct (g : Engine) (restaurantId : string) (ip : InsertProduct)
           (s : Store) : Store * Settled Product :=
  match fault g with
  | Some m => (s, Rejected (EngineFault m))
  | None =>
      if has_key p_id (uuid g) (products s)
      then (s, Rejected (UniqueViolation "products_pkey"))
      else if negb (has_key r_id restaurantId (restaurants s))
      then (s, Rejected (ForeignKeyViolation "products_restaurant_id_restaurants_id_fk"))
      else if match dflt None (ip_categoryId ip) with
              | Some c => negb (has_key c_id c (categories s))
              | None => false
              end
      then (s, Rejected (ForeignKeyViolation "products_category_id_categories_id_fk"))
      else
        let p := {| p_id := uuid g;
                    p_restaurantId := restaurantId;
                    p_categoryId := dflt None (ip_categoryId ip);
                    p_name := ip_name ip;
                    p_description := dflt None (ip_description ip);
                    p_price := ip_price ip;
                    p_imageUrl := dflt None (ip_imageUrl ip);
                    p_isActive := dflt true (ip_isActive ip);
                    p_order := dflt 0%Z (ip_order ip);
                    p_createdAt := Some (now g);
                    p_updatedAt := Some (now g) |} in
        (set_products s (products s ++ [p]), Resolved p)
  end.

Definition updateProduct (g : Engine) (id : string) (data : ProductPatch) (s : Store)
  : Store * Settled (option Product) :=
  match fault g with
  | Some m => (s, Rejected (EngineFault m))
  | None =>
      if match pp_categoryId data with
         | Some (Some c) =>
             has_key p_id id (products s) && negb (has_key c_id c (categories s))
         | _ => false
         end
      then (s, Rejected (ForeignKeyViolation "products_category_id_categories_id_fk"))
      else
        let ps := map (fun p => if p_id p =? id then patch_product data (now g) p else p)
                      (products s) in
        (set_products s ps, Resolved (first (filter (fun p => p_id p =? id) ps)))
  end.

Definition deleteProduct (g : Engine) (id : string) (s : Store)
  : Store * Settled unit :=
  match fault g with
  | Some m => (s, Rejected (EngineFault m))
  | None =>
      (set_products s (filter (fun p => negb (p_id p =? id)) (products s)), Resolved tt)
  end.

(** [count()] over the tenant's products with [is_active = true]. *)
Definition getProductCount (s : Store) (restaurantId : string) : nat :=
  length (filter (fun p => (p_restaurantId p =? restaurantId) && p_isActive p) (products s)).

(* Menu views *)

Definition recordMenuView (g : Engine) (restaurantId : string)
           (userAgent ipAddress : option string) (s : Store)
  : Store * Settled MenuView :=
  match fault g with
  | Some m => (s, Rejected (EngineFault m))
  | None =>
      if has_key v_id (uuid g) (menuViews s)
      then (s, Rejected (UniqueViolation "menu_views_pkey"))
      else if negb (has_key r_id restaurantId (restaurants s))
      then (s, Rejected (ForeignKeyViolation "menu_views_restaurant_id_restaurants_id_fk"))
      else
        let v := {| v_id := uuid g;
                    v_restaurantId := restaurantId;
                    v_viewedAt := Some (now g);
                    v_userAgent := userAgent;
                    v_ipAddress := ipAddress |} in
        (set_menuViews s (menuViews s ++ [v]), Resolved v)
  end.

Definition getMenuViewCount (s : Store) (restaurantId : string) : nat :=
  length (filter (fun v => v_restaurantId v =? restaurantId) (menuViews s)).

End storage.

(** ** Promises that thread a state

    [Async S A] is an [async] computation over the mutable state [S]: it
    leaves a state and settles. A rejection keeps the state reached so far. *)

Definition Async (S A : Type) : Type := S -> S * Settled A.

Definition ret {S A} (a : A) : Async S A := fun s => (s, Resolved a).

Definition throw {S A} (e : Exn) : Async S A := fun s => (s, Rejected e).

Definition bind {S A B} (m : Async S A) (k : A -> Async S B) : Async S B :=
  fun s =>
    match m s with
    | (s', Resolved a) => k a s'
    | (s', Rejected e) => (s', Rejected e)
    end.

Definition read {S A} (f : S -> A) : Async S A := fun s => (s, Resolved (f s)).

Definition settle {S A} (x : Settled A) : Async S A := fun s => (s, x).

Declare Scope async_scope.
Delimit Scope async_scope with async.
Notation "x <- m ;; k" := (bind m (fun x => k))
  (at level 61, m at next level, right associativity) : async_scope.
Local Open Scope async_scope.

(** ** Requests and responses *)

(** A value of a parsed request body: [JInt] is a number with an integer
    value, [JOther] any other value (a fractional number, an array, an
    object). *)
Inductive json :=
| JNull
| JBool (b : bool)
| JInt (n : Z)
| JStr (s : string)
| JOther.

Definition Body : Type := list (string * json).

(** [req.body[k]]; [None] is [undefined]. *)
Fixpoint field (k : string) (b : Body) : option json :=
  match b with
  | [] => None
  | (k', v) :: b' => if k' =? k then Some v else field k b'
  end.

(** The message literals of routes.ts (kept as their UTF-8 text). *)
Module Msg.
Definition unauthenticated := "Não autenticado".
Definition no_restaurant := "Restaurante não encontrado".
Definition no_product := "Produto não encontrado".
Definition no_menu := "Menu não encontrado".
Definition forbidden := "Sem permissão".
Definition limit := "Limite de 5 produtos atingido. Faça upgrade para o plano Premium.".
Definition email_in_use := "E-mail já está em uso".
Definition auto_login := "Erro no login automático".
Definition deleted := "Produto deletado com sucesso".
Definition no_stripe := "Subscription service is not available. Please configure Stripe.".
Definition no_email := "No user email on file".
Definition undefined_id := "Cannot read properties of undefined (reading 'id')".
End Msg.

(** The body a handler sends. [Message m] is [{ message: m }] with [m] a
    literal of the source, [Thrown e] is [{ message: error.message }] for a
    caught [e]; the [Error...] forms are the same under the key [error]. *)
Inductive Payload :=
| Message (m : string)
| Thrown (e : Exn)
| ErrorMessage (m : string)
| ErrorThrown (e : Exn)
| Registered (user : User) (restaurant : Restaurant)
| ProductJson (p : option Product)
| MenuJson (restaurant : Restaurant) (products : list Product) (categories : list Category)
| SubscriptionJson (subscriptionId : string) (clientSecret : option string)
| NoBody.

Record Response := { status : nat; payload : Payload }.

Definition json_status (code : nat) (p : Payload) : Response :=
  {| status := code; payload := p |}.

(** [res.json(p)] with the default status. *)
Definition json_ok (p : Payload) : Response := json_status 200 p.

(** The denials of the gates, as the routes send them. *)
Definition Unauthenticated : Response := json_status 401 (Message Msg.unauthenticated).
Definition NotOwner : Response := json_status 403 (Message Msg.forbidden).
Definition PlanLimitExceeded : Response := json_status 400 (Message Msg.limit).
Definition ProductNotFound : Response := json_status 404 (Message Msg.no_product).
Definition RestaurantNotFound : Response := json_status 404 (Message Msg.no_restaurant).
Definition MenuNotFound : Response := json_status 404 (Message Msg.no_menu).

(** [try { body } catch (error) { handler }] around a handler's body. *)
Definition try_catch {S} (body : Async S Response) (handler : Exn -> Response)
  : S -> S * Response :=
  fun s =>
    match body s with
    | (s', Resolved r) => (s', r)
    | (s', Rejected e) => (s', handler e)
    end.

(** ** The zod schemas derived from the tables *)

Inductive Parsed (A : Type) :=
| Valid (a : A)
| Issue.
Arguments Valid {A} a.
Arguments Issue {A}.

Definition issue_at {A} (path : string) (x : Parsed A) : list string :=
  match x with Valid _ => [] | Issue => [path] end.

Definition z_string (v : option json) : Parsed string :=
  match v with Some (JStr s) => Valid s | _ => Issue end.

Definition z_string_min1 (v : option json) : Parsed string :=
  match v with
  | Some (JStr s) => if Js.truthy s then Valid s else Issue
  | _ => Issue
  end.

Definition z_boolean (v : option json) : Parsed bool :=
  match v with Some (JBool b) => Valid b | _ => Issue end.

Definition z_int (v : option json) : Parsed Z :=
  match v with Some (JInt n) => Valid n | _ => Issue end.

(** [.optional()]: an absent key is accepted. *)
Definition z_optional {A} (p : option json -> Parsed A) (v : option json)
  : Parsed (option A) :=
  match v with
  | None => Valid None
  | Some _ => match p v with Valid a => Valid (Some a) | Issue => Issue end
  end.

(** [.nullable()]: [null] is accepted. *)
Definition z_nullable {A} (p : option json -> Parsed A) (v : option json)
  : Parsed (option A) :=
  match v with
  | Some JNull => Valid None
  | _ => match p v with Valid a => Valid (Some a) | Issue => Issue end
  end.

(** A timestamp column is [z.date()]: no value of a parsed body is one. *)
Definition z_date (v : option json) : Parsed N := Issue.

(** [insertProductSchema.parse]: [name] and [price] are required, a
    nullable column or one with a default is optional. *)
Definition insertProductSchema_parse (b : Body) : Settled InsertProduct :=
  let name := z_string (field "name" b) in
  let description := z_optional (z_nullable z_string) (field "description" b) in
  let price := z_string (field "price" b) in
  let categoryId := z_optional (z_nullable z_string) (field "categoryId" b) in
  let imageUrl := z_optional (z_nullable z_string) (field "imageUrl" b) in
  let isActive := z_optional z_boolean (field "isActive" b) in
  let order := z_optional z_int (field "order" b) in
  match name, description, price, categoryId, imageUrl, isActive, order with
  | Valid n, Valid d, Valid p, Valid c, Valid i, Valid a, Valid o =>
      Resolved {| ip_name := n; ip_description := d; ip_price := p; ip_categoryId := c;
                  ip_imageUrl := i; ip_isActive := a; ip_order := o |}
  | _, _, _, _, _, _, _ =>
      Rejected (ZodError (issue_at "name" name ++ issue_at "description" description
                          ++ issue_at "price" price ++ issue_at "categoryId" categoryId
                          ++ issue_at "imageUrl" imageUrl ++ issue_at "isActive" isActive
                          ++ issue_at "order" order))
  end.

(** [insertProductSchema.partial().parse]: every key is optional. *)
Definition insertProductSchema_partial_parse (b : Body) : Settled ProductPatch :=
  let name := z_optional z_string (field "name" b) in
  let description := z_optional (z_nullable z_string) (field "description" b) in
  let price := z_optional z_string (field "price" b) in
  let categoryId := z_optional (z_nullable z_string) (field "categoryId" b) in
  let imageUrl := z_optional (z_nullable z_string) (field "imageUrl" b) in
  let isActive := z_optional z_boolean (field "isActive" b) in
  let order := z_optional z_int (field "order" b) in
  match name, description, price, categoryId, imageUrl, isActive, order with
  | Valid n, Valid d, Valid p, Valid c, Valid i, Valid a, Valid o =>
      Resolved {| pp_name := n; pp_description := d; pp_price := p; pp_categoryId := c;
                  pp_imageUrl := i; pp_isActive := a; pp_order := o |}
  | _, _, _, _, _, _, _ =>
      Rejected (ZodError (issue_at "name" name ++ issue_at "description" description
                          ++ issue_at "price" price ++ issue_at "categoryId" categoryId
                          ++ issue_at "imageUrl" imageUrl ++ issue_at "isActive" isActive
                          ++ issue_at "order" order))
  end.

(** [insertUserSchema.extend({ restaurantName: z.string().min(1, ...) })]. *)
Record RegisterData := {
  rd_user : InsertUser;
  rd_restaurantName : string
}.

Definition registerSchema_parse (b : Body) : Settled RegisterData :=
  let email := z_string (field "email" b) in
  let password := z_string (field "password" b) in
  let plan := z_optional z_string (field "plan" b) in
  let customer := z_optional (z_nullable z_string) (field "stripeCustomerId" b) in
  let subscription := z_optional (z_nullable z_string) (field "stripeSubscriptionId" b) in
  let substatus := z_optional (z_nullable z_string) (field "subscriptionStatus" b) in
  let endsAt := z_optional (z_nullable z_date) (field "subscriptionEndsAt" b) in
  let restaurantName := z_string_min1 (field "restaurantName" b) in
  match email, password, plan, customer, subscription, substatus, endsAt, restaurantName with
  | Valid e, Valid p, Valid pl, Valid c, Valid sb, Valid st, Valid en, Valid rn =>
      Resolved {| rd_user := {| iu_email := e; iu_password := p; iu_plan := pl;
                                iu_stripeCustomerId := c; iu_stripeSubscriptionId := sb;
                                iu_subscriptionStatus := st; iu_subscriptionEndsAt := en |};
                  rd_restaurantName := rn |}
  | _, _, _, _, _, _, _, _ =>
      Rejected (ZodError (issue_at "email" email ++ issue_at "password" password
                          ++ issue_at "plan" plan ++ issue_at "stripeCustomerId" customer
                          ++ issue_at "stripeSubscriptionId" subscription
                          ++ issue_at "subscriptionStatus" substatus
                          ++ issue_at "subscriptionEndsAt" endsAt
                          ++ issue_at "restaurantName" restaurantName))
  end.

(** ** The routes (routes.ts)

    [req_user] is [req.user]: the identity passport restored for this
    request, absent when [req.isAuthenticated()] is false. *)

(** [passport.deserializeUser]: the session holds the user's id, the
    identity of a request is read from the store. *)
Definition deserializeUser (s : Store) (session : option string) : option User :=
  match session with
  | Some id => storage.getUser s id
  | None => None
  end.

(** [if (data.categoryId === "none") data.categoryId = null]. *)
Definition none_as_null (c : option (option string)) : option (option string) :=
  match c with
  | Some (Some k) => if k =? "none" then Some None else c
  | _ => c
  end.

Definition upload_url (filename : string) : string := "/uploads/" ++ filename.

(** [app.post("/api/products")]; [file] is the name multer stored the
    uploaded image under. *)
Definition post_products (g : Engine) (req_user : option User) (body : Body)
           (file : option string) : Store -> Store * Response :=
  match req_user with
  | None => fun s => (s, Unauthenticated)
  | Some user =>
      try_catch
        (restaurant <- read (fun s => storage.getRestaurantByUserId s (u_id user)) ;;
         match restaurant with
         | None => ret RestaurantNotFound
         | Some restaurant =>
             let create : Async Store Response :=
               data <- settle (insertProductSchema_parse body) ;;
               let imageUrl := option_map upload_url file in
               product <- storage.createProduct g (r_id restaurant)
                            {| ip_name := ip_name data;
                               ip_description := ip_description data;
                               ip_price := ip_price data;
                               ip_categoryId := none_as_null (ip_categoryId data);
                               ip_imageUrl := Some imageUrl;
                               ip_isActive := ip_isActive data;
                               ip_order := ip_order data |} ;;
               ret (json_ok (ProductJson (Some product))) in
             if u_plan user =? "free" then
               productCount <- read (fun s => storage.getProductCount s (r_id restaurant)) ;;
               if (5 <=? productCount)%nat then ret PlanLimitExceeded else create
             else create
         end)
        (fun error => json_status 400 (Thrown error))
  end.

(** The ownership test shared by the update and the delete route:
    [!restaurant || product.restaurantId !== restaurant.id]. *)
Definition not_owner (restaurant : option Restaurant) (product : Product) : bool :=
  match restaurant with
  | None => true
  | Some r => negb (p_restaurantId product =? r_id r)
  end.

(** [app.put("/api/products/:id")]. *)
Definition put_product (g : Engine) (req_user : option User) (id : string) (body : Body)
           (file : option string) : Store -> Store * Response :=
  match req_user with
  | None => fun s => (s, Unauthenticated)
  | Some user =>
      try_catch
        (product <- read (fun s => storage.getProduct s id) ;;
         match product with
         | None => ret ProductNotFound
         | Some product =>
             restaurant <- read (fun s => storage.getRestaurantByUserId s (u_id user)) ;;
             if not_owner restaurant product then ret NotOwner
             else
               data <- settle (insertProductSchema_partial_parse body) ;;
               updatedProduct <- storage.updateProduct g id
                   {| pp_name := pp_name data;
                      pp_description := pp_description data;
                      pp_price := pp_price data;
                      pp_categoryId := none_as_null (pp_categoryId data);
                      pp_imageUrl := match file with
                                     | Some f => Some (Some (upload_url f))
                                     | None => pp_imageUrl data
                                     end;
                      pp_isActive := pp_isActive data;
                      pp_order := pp_order data |} ;;
               ret (json_ok (ProductJson updatedProduct))
         end)
        (fun error => json_status 400 (Thrown error))
  end.

(** [app.delete("/api/products/:id")]. *)
Definition delete_product (g : Engine) (req_user : option User) (id : string)
  : Store -> Store * Response :=
  match req_user with
  | None => fun s => (s, Unauthenticated)
  | Some user =>
      try_catch
        (product <- read (fun s => storage.getProduct s id) ;;
         match product with
         | None => ret ProductNotFound
         | Some product =>
             restaurant <- read (fun s => storage.getRestaurantByUserId s (u_id user)) ;;
             if not_owner restaurant product then ret NotOwner
             else
               _ <- storage.deleteProduct g id ;;
               ret (json_ok (Message Msg.deleted))
         end)
        (fun error => json_status 500 (Thrown error))
  end.

(** [app.get("/api/menu/:slug")], the public projection. *)
Definition get_menu (g : Engine) (slug : string) (userAgent ip : option string)
  : Store -> Store * Response :=
  try_catch
    (restaurant <- read (fun s => storage.getRestaurantBySlug s slug) ;;
     match restaurant with
     | None => ret MenuNotFound
     | Some restaurant =>
         products <- read (fun s => storage.getProductsByRestaurant s (r_id restaurant)) ;;
         categories <- read (fun s => storage.getCategoriesByRestaurant s (r_id restaurant)) ;;
         _ <- storage.recordMenuView g (r_id restaurant) userAgent ip ;;
         ret (json_ok (MenuJson restaurant (filter p_isActive products) categories))
     end)
    (fun error => json_status 500 (Thrown error)).

(** What the surroundings of [app.post("/api/register")] contribute: the
    bcrypt hash of the password, the engine's part in the two inserts, and
    whether [req.login] calls back with an error. *)
Record RegisterEnv := {
  hashedPassword : string;
  user_insert : Engine;
  restaurant_insert : Engine;
  login_error : bool
}.

(** [app.post("/api/register")]. *)
Definition register (env : RegisterEnv) (body : Body) : Store -> Store * Response :=
  try_catch
    (data <- settle (registerSchema_parse body) ;;
     existingUser <- read (fun s => storage.getUserByEmail s (iu_email (rd_user data))) ;;
     match existingUser with
     | Some _ => ret (json_status 400 (Message Msg.email_in_use))
     | None =>
         user <- storage.createUser (user_insert env)
                   {| iu_email := iu_email (rd_user data);
                      iu_password := hashedPassword env;
                      iu_plan := Some "free";
                      iu_stripeCustomerId := None;
                      iu_stripeSubscriptionId := None;
                      iu_subscriptionStatus := None;
                      iu_subscriptionEndsAt := None |} ;;
         let slug := generateSlug (rd_restaurantName data) in
         restaurant <- storage.createRestaurant (restaurant_insert env)
                         {| ir_userId := u_id user;
                            ir_name := rd_restaurantName data;
                            ir_description := None;
                            ir_address := None;
                            ir_phone := None;
                            ir_hours := None;
                            ir_logoUrl := None;
                            ir_primaryColor := None;
                            ir_menuStyle := None;
                            ir_slug := slug |} ;;
         if login_error env
         then ret (json_status 500 (Message Msg.auto_login))
         else ret (json_ok (Registered user restaurant))
     end)
    (fun error => json_status 400 (Thrown error)).

(** ** The billing provider, at the interface the route uses

    The provider's account is a second mutable state next to the
    database. The ids it issues, and a call it refuses, are its own
    decision, given to each call as a [Reply]. *)

Module Stripe.

(** An expandable field is [null], the id of the object, or, when the call
    asked to expand it, the object. *)
Inductive PaymentIntentRef :=
| IntentNull
| IntentId (id : string)
| IntentObject (id : string) (client_secret : option string).

Inductive InvoiceRef :=
| InvoiceNull
| InvoiceId (id : string)
| InvoiceObject (id : string) (payment_intent : PaymentIntentRef).

Record Customer := { cus_id : string; cus_email : string; cus_name : string }.
Record Product := { prod_id : string; prod_name : string; prod_description : string }.
Record Price := {
  price_id : string;
  price_product : string;
  price_currency : string;
  price_unit_amount : N;
  price_interval : string
}.
Record Subscription := {
  sub_id : string;
  sub_customer : string;
  sub_price : string;
  sub_payment_behavior : string;
  latest_invoice : InvoiceRef
}.

Record Account := {
  customers : list Customer;
  products : list Product;
  prices : list Price;
  subscriptions : list Subscription
}.

Definition empty_account : Account :=
  {| customers := []; products := []; prices := []; subscriptions := [] |}.

Inductive Reply (A : Type) :=
| Issued (a : A)
| Refused (msg : string).
Arguments Issued {A} a.
Arguments Refused {A} msg.

(** A field that was not asked to be expanded comes back as an id. *)
Definition unexpanded (i : InvoiceRef) : InvoiceRef :=
  match i with
  | InvoiceObject id _ => InvoiceId id
  | _ => i
  end.

(** [(subscription.latest_invoice as any)?.payment_intent?.client_secret];
    a property read on an id (a string) is [undefined]. *)
Definition clientSecret (sub : Subscription) : option string :=
  match latest_invoice sub with
  | InvoiceObject _ (IntentObject _ secret) => secret
  | _ => None
  end.

Definition customers_create (reply : Reply string) (email name : string)
  : Async Account Customer :=
  fun a =>
    match reply with
    | Refused m => (a, Rejected (StripeError m))
    | Issued id =>
        let c := {| cus_id := id; cus_email := email; cus_name := name |} in
        ({| customers := customers a ++ [c]; products := products a;
            prices := prices a; subscriptions := subscriptions a |}, Resolved c)
    end.

Definition products_create (reply : Reply string) (name description : string)
  : Async Account Product :=
  fun a =>
    match reply with
    | Refused m => (a, Rejected (StripeError m))
    | Issued id =>
        let p := {| prod_id := id; prod_name := name; prod_description := description |} in
        ({| customers := customers a; products := products a ++ [p];
            prices := prices a; subscriptions := subscriptions a |}, Resolved p)
    end.

Definition prices_create (reply : Reply string) (product currency : string)
           (unit_amount : N) (interval : string) : Async Account Price :=
  fun a =>
    match reply with
    | Refused m => (a, Rejected (StripeError m))
    | Issued id =>
        let p := {| price_id := id; price_product := product; price_currency := currency;
                    price_unit_amount := unit_amount; price_interval := interval |} in
        ({| customers := customers a; products := products a;
            prices := prices a ++ [p]; subscriptions := subscriptions a |}, Resolved p)
    end.

(** [subscriptions.create] with [expand: ['latest_invoice.payment_intent']]:
    the provider issues the id and the invoice of the new subscription. *)
Definition subscriptions_create (reply : Reply (string * InvoiceRef))
           (customer price payment_behavior : string) : Async Account Subscription :=
  fun a =>
    match reply with
    | Refused m => (a, Rejected (StripeError m))
    | Issued (id, invoice) =>
        let sub := {| sub_id := id; sub_customer := customer; sub_price := price;
                      sub_payment_behavior := payment_behavior;
                      latest_invoice := invoice |} in
        ({| customers := customers a; products := products a;
            prices := prices a; subscriptions := subscriptions a ++ [sub] |}, Resolved sub)
    end.

(** [subscriptions.retrieve(id)], nothing expanded. *)
Definition subscriptions_retrieve (id : string) : Async Account Subscription :=
  fun a =>
    match first (filter (fun sub => sub_id sub =? id) (subscriptions a)) with
    | Some sub =>
        (a, Resolved {| sub_id := sub_id sub; sub_customer := sub_customer sub;
                        sub_price := sub_price sub;
                        sub_payment_behavior := sub_payment_behavior sub;
                        latest_invoice := unexpanded (latest_invoice sub) |})
    | None => (a, Rejected (StripeError ("No such subscription: '" ++ id ++ "'")))
    end.

End Stripe.

(** The two states the subscription route works on. *)
Record World := {
  db : Store;
  stripe : Stripe.Account
}.

Definition on_db {A} (m : Async Store A) : Async World A :=
  fun w =>
    let (s', x) := m (db w) in ({| db := s'; stripe := stripe w |}, x).

Definition on_stripe {A} (m : Async Stripe.Account A) : Async World A :=
  fun w =>
    let (a', x) := m (stripe w) in ({| db := db w; stripe := a' |}, x).

(** What the surroundings of one call of the subscription route contribute:
    the provider's replies to the four creations and the engine's part in
    the two updates of the user. *)
Record UpgradeEnv := {
  customer_reply : Stripe.Reply string;
  product_reply : Stripe.Reply string;
  price_reply : Stripe.Reply string;
  subscription_reply : Stripe.Reply (string * Stripe.InvoiceRef);
  customer_update : Engine;
  stripe_info_update : Engine
}.

(** A handler either sends a response or lets an exception escape (thrown
    outside its [try]). *)
Inductive Outcome :=
| Sent (r : Response)
| Unhandled (e : Exn).

Definition only_customer (customerId : string) : UserPatch :=
  {| up_email := None;
     up_password := None;
     up_plan := None;
     up_stripeCustomerId := Some (Some customerId);
     up_stripeSubscriptionId := None;
     up_subscriptionStatus := None;
     up_subscriptionEndsAt := None |}.

(** [app.post('/api/create-subscription')]; [configured] tells that
    [STRIPE_SECRET_KEY] was set, so that [stripe] is not [null]. *)
Definition create_subscription (configured : bool) (env : UpgradeEnv)
           (req_user : option User) : World -> World * Outcome :=
  fun w =>
    match req_user with
    | None => (w, Sent (json_status 401 NoBody))
    | Some user =>
        if negb configured
        then (w, Sent (json_status 503 (ErrorMessage Msg.no_stripe)))
        else if Js.truthy_opt (u_stripeSubscriptionId user)
        then
          match on_stripe (Stripe.subscriptions_retrieve
                             (dflt "" (u_stripeSubscriptionId user))) w with
          | (w', Resolved subscription) =>
              (w', Sent (json_ok (SubscriptionJson (Stripe.sub_id subscription)
                                                   (Stripe.clientSecret subscription))))
          | (w', Rejected e) => (w', Unhandled e)
          end
        else if negb (Js.truthy (u_email user))
        then (w, Unhandled (JsError Msg.no_email))
        else
          let (w', r) :=
            try_catch
              (customer <- on_stripe (Stripe.customers_create (customer_reply env)
                                        (u_email user) (u_email user)) ;;
               user' <- on_db (storage.updateUser (customer_update env) (u_id user)
                                 (only_customer (Stripe.cus_id customer))) ;;
               product <- on_stripe (Stripe.products_create (product_reply env)
                                       "MenuQR Premium"
                                       "Plano Premium com produtos ilimitados") ;;
               price <- on_stripe (Stripe.prices_create (price_reply env)
                                     (Stripe.prod_id product) "brl" 2490 "month") ;;
               subscription <- on_stripe (Stripe.subscriptions_create (subscription_reply env)
                                            (Stripe.cus_id customer) (Stripe.price_id price)
                                            "default_incomplete") ;;
               match user' with
               | None => throw (TypeError Msg.undefined_id)
               | Some user' =>
                   _ <- on_db (storage.updateUserStripeInfo (stripe_info_update env)
                                 (u_id user') (Stripe.cus_id customer)
                                 (Stripe.sub_id subscription)) ;;
                   ret (json_ok (SubscriptionJson (Stripe.sub_id subscription)
                                                  (Stripe.clientSecret subscription)))
               end)
              (fun error => json_status 400 (ErrorThrown error)) w in
          (w', Sent r)
    end.


(** ** The other routes of routes.ts *)

From Stdlib Require Import Sorted.

(** What these routes send: a [Response] of the forms above, or one of the
    rows and lists that [res.json] serialises with the default status. *)
Inductive Answer :=
| Plain (r : Response)
| RestaurantJson (restaurant : option Restaurant)
| ProductsJson (products : list Product)
| CategoriesJson (categories : list Category)
| CategoryJson (category : Category).

(** [try { body } catch (error) { handler }] for any kind of answer. *)
Definition attempt {S R} (body : Async S R) (handler : Exn -> R) : S -> S * R :=
  fun s =>
    match body s with
    | (s', Resolved r) => (s', r)
    | (s', Rejected e) => (s', handler e)
    end.

(** [insertRestaurantSchema.partial().parse]. *)
Definition insertRestaurantSchema_partial_parse (b : Body) : Settled RestaurantPatch :=
  let name := z_optional z_string (field "name" b) in
  let description := z_optional (z_nullable z_string) (field "description" b) in
  let address := z_optional (z_nullable z_string) (field "address" b) in
  let phone := z_optional (z_nullable z_string) (field "phone" b) in
  let hours := z_optional (z_nullable z_string) (field "hours" b) in
  let logoUrl := z_optional (z_nullable z_string) (field "logoUrl" b) in
  let primaryColor := z_optional (z_nullable z_string) (field "primaryColor" b) in
  let menuStyle := z_optional (z_nullable z_string) (field "menuStyle" b) in
  let slug := z_optional z_string (field "slug" b) in
  match name, description, address, phone, hours, logoUrl, primaryColor, menuStyle, slug with
  | Valid n, Valid d, Valid a, Valid p, Valid h, Valid l, Valid c, Valid m, Valid sl =>
      Resolved {| rp_name := n; rp_description := d; rp_address := a; rp_phone := p;
                  rp_hours := h; rp_logoUrl := l; rp_primaryColor := c;
                  rp_menuStyle := m; rp_slug := sl |}
  | _, _, _, _, _, _, _, _, _ =>
      Rejected (ZodError (issue_at "name" name ++ issue_at "description" description
                          ++ issue_at "address" address ++ issue_at "phone" phone
                          ++ issue_at "hours" hours ++ issue_at "logoUrl" logoUrl
                          ++ issue_at "primaryColor" primaryColor
                          ++ issue_at "menuStyle" menuStyle ++ issue_at "slug" slug))
  end.

(** [insertCategorySchema.parse]. *)
Definition insertCategorySchema_parse (b : Body) : Settled InsertCategory :=
  let name := z_string (field "name" b) in
  let order := z_optional z_int (field "order" b) in
  match name, order with
  | Valid n, Valid o => Resolved {| ic_name := n; ic_order := o |}
  | _, _ => Rejected (ZodError (issue_at "name" name ++ issue_at "order" order))
  end.

(** [if (data.name) data.slug = generateSlug(data.name)]. *)
Definition with_derived_slug (data : RestaurantPatch) : RestaurantPatch :=
  match rp_name data with
  | Some name =>
      if Js.truthy name
      then {| rp_name := rp_name data;
              rp_description := rp_description data;
              rp_address := rp_address data;
              rp_phone := rp_phone data;
              rp_hours := rp_hours data;
              rp_logoUrl := rp_logoUrl data;
              rp_primaryColor := rp_primaryColor data;
              rp_menuStyle := rp_menuStyle data;
              rp_slug := Some (generateSlug name) |}
      else data
  | None => data
  end.

(** [app.get("/api/restaurant")]. *)
Definition get_restaurant (req_user : option User) : Store -> Store * Answer :=
  match req_user with
  | None => fun s => (s, Plain Unauthenticated)
  | Some user =>
      attempt
        (restaurant <- read (fun s => storage.getRestaurantByUserId s (u_id user)) ;;
         match restaurant with
         | None => ret (Plain RestaurantNotFound)
         | Some restaurant => ret (RestaurantJson (Some restaurant))
         end)
        (fun error => Plain (json_status 500 (Thrown error)))
  end.

(** [app.put("/api/restaurant")]. *)
Definition put_restaurant (g : Engine) (req_user : option User) (body : Body)
  : Store -> Store * Answer :=
  match req_user with
  | None => fun s => (s, Plain Unauthenticated)
  | Some user =>
      attempt
        (restaurant <- read (fun s => storage.getRestaurantByUserId s (u_id user)) ;;
         match restaurant with
         | None => ret (Plain RestaurantNotFound)
         | Some restaurant =>
             data <- settle (insertRestaurantSchema_partial_parse body) ;;
             updatedRestaurant <- storage.updateRestaurant g (r_id restaurant)
                                    (with_derived_slug data) ;;
             ret (RestaurantJson updatedRestaurant)
         end)
        (fun error => Plain (json_status 400 (Thrown error)))
  end.

(** [app.get("/api/products")]. *)
Definition get_products (req_user : option User) : Store -> Store * Answer :=
  match req_user with
  | None => fun s => (s, Plain Unauthenticated)
  | Some user =>
      attempt
        (restaurant <- read (fun s => storage.getRestaurantByUserId s (u_id user)) ;;
         match restaurant with
         | None => ret (Plain RestaurantNotFound)
         | Some restaurant =>
             products <- read (fun s => storage.getProductsByRestaurant s (r_id restaurant)) ;;
             ret (ProductsJson products)
         end)
        (fun error => Plain (json_status 500 (Thrown error)))
  end.

(** [app.get("/api/categories")]. *)
Definition get_categories (req_user : option User) : Store -> Store * Answer :=
  match req_user with
  | None => fun s => (s, Plain Unauthenticated)
  | Some user =>
      attempt
        (restaurant <- read (fun s => storage.getRestaurantByUserId s (u_id user)) ;;
         match restaurant with
         | None => ret (Plain RestaurantNotFound)
         | Some restaurant =>
             categories <- read (fun s => storage.getCategoriesByRestaurant s
                                            (r_id restaurant)) ;;
             ret (CategoriesJson categories)
         end)
        (fun error => Plain (json_status 500 (Thrown error)))
  end.

(** [app.post("/api/categories")]. *)
Definition post_categories (g : Engine) (req_user : option User) (body : Body)
  : Store -> Store * Answer :=
  match req_user with
  | None => fun s => (s, Plain Unauthenticated)
  | Some user =>
      attempt
        (restaurant <- read (fun s => storage.getRestaurantByUserId s (u_id user)) ;;
         match restaurant with
         | None => ret (Plain RestaurantNotFound)
         | Some restaurant =>
             data <- settle (insertCategorySchema_parse body) ;;
             category <- storage.createCategory g (r_id restaurant) data ;;
             ret (CategoryJson category)
         end)
        (fun error => Plain (json_status 400 (Thrown error)))
  end.

(** ** Signing in (the passport set-up of routes.ts) *)

Module AuthMsg.
Definition unknown_email := "E-mail não encontrado".
Definition wrong_password := "Senha incorreta".
End AuthMsg.

(** What the verify callback of the local strategy hands to [done]. *)
Inductive Verdict :=
| Authenticated (user : User)
| Failed (message : string).

(** The verify callback; [compare] is [bcrypt.compare]. *)
Definition verify (compare : string -> string -> bool) (s : Store)
           (email password : string) : Verdict :=
  match storage.getUserByEmail s email with
  | None => Failed AuthMsg.unknown_email
  | Some user =>
      if compare password (u_password user)
      then Authenticated user
      else Failed AuthMsg.wrong_password
  end.

(** [passport.serializeUser]: the session keeps the user's id. *)
Definition serializeUser (user : User) : string := u_id user.

(** ** Vocabulary of the properties *)

(** No character of the string is white space. *)
Fixpoint no_space (s : string) : bool :=
  match s with
  | EmptyString => true
  | String c s' => negb (Js.is_space c) && no_space s'
  end.

(** The engine takes the insert of a product that refers to [category]:
    no fault, a fresh primary key, and the category, if any, exists. *)
Definition engine_accepts_product (g : Engine) (category : option string) (s : Store)
  : Prop :=
  fault g = None
  /\ has_key p_id (uuid g) (products s) = false
  /\ match category with
     | Some c => has_key c_id c (categories s) = true
     | None => True
     end.

(** ** Sample data: two tenants, one on each plan *)

Module Sample.

Definition engine (id : string) (t : N) : Engine :=
  {| uuid := id; now := t; fault := None |}.

Definition broken_engine (id : string) (t : N) : Engine :=
  {| uuid := id; now := t; fault := Some "connection terminated" |}.

Definition alice : User :=
  {| u_id := "u1"; u_email := "alice@example.com"; u_password := "$2b$10$a";
     u_plan := "free"; u_stripeCustomerId := None; u_stripeSubscriptionId := None;
     u_subscriptionStatus := None; u_subscriptionEndsAt := None; u_createdAt := Some 100%N |}.

Definition bob : User :=
  {| u_id := "u2"; u_email := "bob@example.com"; u_password := "$2b$10$b";
     u_plan := "premium"; u_stripeCustomerId := Some "cus_1";
     u_stripeSubscriptionId := Some "sub_1";
     u_subscriptionStatus := Some "active"; u_subscriptionEndsAt := None;
     u_createdAt := Some 200%N |}.

Definition restaurant_of (id userId name slug : string) : Restaurant :=
  {| r_id := id; r_userId := userId; r_name := name; r_description := None;
     r_address := None; r_phone := None; r_hours := None; r_logoUrl := None;
     r_primaryColor := Some "#059669"; r_menuStyle := Some "cards"; r_slug := slug;
     r_createdAt := Some 300%N; r_updatedAt := Some 300%N |}.

Definition alices : Restaurant := restaurant_of "r1" "u1" "Alice's Diner" "alices-diner".
Definition bobs : Restaurant := restaurant_of "r2" "u2" "Bob's Grill" "bobs-grill".

Definition product_of (id restaurantId : string) (categoryId : option string)
           (name : string) (active : bool) (t : N) : Product :=
  {| p_id := id; p_restaurantId := restaurantId; p_categoryId := categoryId;
     p_name := name; p_description := None; p_price := "10.00"; p_imageUrl := None;
     p_isActive := active; p_order := 0%Z; p_createdAt := Some t; p_updatedAt := Some t |}.

Definition starters : Category :=
  {| c_id := "c1"; c_restaurantId := "r1"; c_name := "Starters"; c_order := 0%Z |}.
Definition desserts : Category :=
  {| c_id := "c2"; c_restaurantId := "r1"; c_name := "Desserts"; c_order := 1%Z |}.

(** Alice's tenant holds five active products and an inactive one. *)
Definition store : Store :=
  {| users := [alice; bob];
     restaurants := [alices; bobs];
     categories := [starters; desserts];
     products := [product_of "p1" "r1" (Some "c1") "Soup" true 401;
                  product_of "p2" "r1" (Some "c1") "Salad" true 402;
                  product_of "p3" "r1" None "Bread" true 403;
                  product_of "p4" "r1" None "Rice" true 404;
                  product_of "p5" "r1" None "Beans" true 405;
                  product_of "p6" "r1" (Some "c1") "Stew" false 406;
                  product_of "q1" "r2" None "Steak" true 407];
     menuViews := [] |}.

(** The same tenants before any product was created. *)
Definition fresh_store : Store :=
  {| users := [alice; bob];
     restaurants := [alices; bobs];
     categories := [starters; desserts];
     products := [];
     menuViews := [] |}.

Definition tea : Body := [("name", JStr "Tea"); ("price", JStr "4.50")].

Definition activate : Body := [("isActive", JBool true)].

End Sample.

(** The engine takes the update of a product with the patch [data]: no
    fault, and the category the patch refers to, if any, exists. *)
Definition engine_accepts_patch (g : Engine) (data : ProductPatch) (s : Store) : Prop :=
  fault g = None
  /\ match none_as_null (pp_categoryId data) with
     | Some (Some c) => has_key c_id c (categories s) = true
     | _ => True
     end.

(** One anonymous fetch of a menu: the engine's part in recording the view
    and the client metadata of the request. *)
Record MenuFetch := {
  mf_engine : Engine;
  mf_userAgent : option string;
  mf_ip : option string
}.

(** Sequential calls of the menu route for one slug, with their responses. *)
Fixpoint get_menu_calls (slug : string) (fetches : list MenuFetch) (s : Store)
  : Store * list Response :=
  match fetches with
  | [] => (s, [])
  | q :: fetches' =>
      let (s1, r) := get_menu (mf_engine q) slug (mf_userAgent q) (mf_ip q) s in
      let (s2, rs) := get_menu_calls slug fetches' s1 in
      (s2, r :: rs)
  end.

(** The second half of the spec's sentence on view recording: whenever the
    slug resolves, the route answers with the projection, also when
    recording the view is rejected. *)
Definition view_recording_is_fire_and_forget : Prop :=
  forall g slug userAgent ip s restaurant e,
    storage.getRestaurantBySlug s slug = Some restaurant ->
    snd (storage.recordMenuView g (r_id restaurant) userAgent ip s) = Rejected e ->
    exists ps cs,
      snd (get_menu g slug userAgent ip s) = json_ok (MenuJson restaurant ps cs).

(** [q] is [p] but for its category reference. *)
Definition same_but_category (p q : Product) : Prop :=
  p_id q = p_id p
  /\ p_restaurantId q = p_restaurantId p
  /\ p_name q = p_name p
  /\ p_description q = p_description p
  /\ p_price q = p_price p
  /\ p_imageUrl q = p_imageUrl p
  /\ p_isActive q = p_isActive p
  /\ p_order q = p_order p
  /\ p_createdAt q = p_createdAt p
  /\ p_updatedAt q = p_updatedAt p.

(** The tenant of the identity registered under [email], if both exist. *)
Definition tenant_of_email (s : Store) (email : string) : option Restaurant :=
  match storage.getUserByEmail s email with
  | Some u => storage.getRestaurantByUserId s (u_id u)
  | None => None
  end.

(** The foreign key of [restaurants.user_id] holds in the store. *)
Definition restaurants_reference_users (s : Store) : Prop :=
  forall r, In r (restaurants s) -> has_key u_id (r_userId r) (users s) = true.

(** Every stored identity owns a tenant. *)
Definition every_identity_has_tenant (s : Store) : Prop :=
  forall u, In u (users s) -> storage.getRestaurantByUserId s (u_id u) <> None.

(** The spec's sentence on registration: from a store in which the foreign
    key holds and every identity has its tenant, after any attempt to
    register, an identity for the submitted email exists exactly when a
    tenant owned by it exists. *)
Definition registration_is_atomic : Prop :=
  forall env body s data,
    restaurants_reference_users s ->
    every_identity_has_tenant s ->
    registerSchema_parse body = Resolved data ->
    let s' := fst (register env body s) in
    let email := iu_email (rd_user data) in
    storage.getUserByEmail s' email <> None <-> tenant_of_email s' email <> None.

(** The rows the register route asks the storage layer to insert. *)
Definition new_identity (env : RegisterEnv) (data : RegisterData) : InsertUser :=
  {| iu_email := iu_email (rd_user data);
     iu_password := hashedPassword env;
     iu_plan := Some "free";
     iu_stripeCustomerId := None;
     iu_stripeSubscriptionId := None;
     iu_subscriptionStatus := None;
     iu_subscriptionEndsAt := None |}.

Definition new_tenant (user : User) (data : RegisterData) : InsertRestaurant :=
  {| ir_userId := u_id user;
     ir_name := rd_restaurantName data;
     ir_description := None;
     ir_address := None;
     ir_phone := None;
     ir_hours := None;
     ir_logoUrl := None;
     ir_primaryColor := None;
     ir_menuStyle := None;
     ir_slug := generateSlug (rd_restaurantName data) |}.

Module SampleRegistration.

Definition env : RegisterEnv :=
  {| hashedPassword := "$2b$10$c";
     user_insert := Sample.engine "u3" 900;
     restaurant_insert := Sample.engine "r3" 901;
     login_error := false |}.

(** Carol names her restaurant so that its slug is the one Bob's has. *)
Definition clashing : Body :=
  [("email", JStr "carol@example.com"); ("password", JStr "secret");
   ("restaurantName", JStr "Bob's  Grill")].

Definition fine : Body :=
  [("email", JStr "carol@example.com"); ("password", JStr "secret");
   ("restaurantName", JStr "Carol's Cafe")].

Definition carol : User :=
  {| u_id := "u3"; u_email := "carol@example.com"; u_password := "$2b$10$c";
     u_plan := "free"; u_stripeCustomerId := None; u_stripeSubscriptionId := None;
     u_subscriptionStatus := None; u_subscriptionEndsAt := None; u_createdAt := Some 900%N |}.

Definition carols : Restaurant :=
  {| r_id := "r3"; r_userId := "u3"; r_name := "Carol's Cafe"; r_description := None;
     r_address := None; r_phone := None; r_hours := None; r_logoUrl := None;
     r_primaryColor := Some "#059669"; r_menuStyle := Some "cards"; r_slug := "carols-cafe";
     r_createdAt := Some 901%N; r_updatedAt := Some 901%N |}.

End SampleRegistration.

(** ** The upgrade as a request of a session *)

(** [beginUpgrade]: the subscription route, with the billing client
    configured, called by the identity that passport restores from the
    session at the time of the call. *)
Definition beginUpgrade (env : UpgradeEnv) (session : option string) (w : World)
  : World * Outcome :=
  create_subscription true env (deserializeUser (db w) session) w.

(** The provider issues all four objects and the engine takes both updates
    of the user. *)
Definition upgrade_goes_through (env : UpgradeEnv) (cus prod price sid : string)
           (invoice : Stripe.InvoiceRef) : Prop :=
  customer_reply env = Stripe.Issued cus
  /\ product_reply env = Stripe.Issued prod
  /\ price_reply env = Stripe.Issued price
  /\ subscription_reply env = Stripe.Issued (sid, invoice)
  /\ fault (customer_update env) = None
  /\ fault (stripe_info_update env) = None.

(** The client secret the route reads off an invoice that came expanded. *)
Definition secret_of (invoice : Stripe.InvoiceRef) : option string :=
  match invoice with
  | Stripe.InvoiceObject _ (Stripe.IntentObject _ secret) => secret
  | _ => None
  end.

(** What the two updates of the route leave of a user row. *)
Definition upgraded (u : User) (cus sid : string) : User :=
  patch_user {| up_email := None;
                up_password := None;
                up_plan := Some "premium";
                up_stripeCustomerId := Some (Some cus);
                up_stripeSubscriptionId := Some (Some sid);
                up_subscriptionStatus := Some (Some "active");
                up_subscriptionEndsAt := None |}
             (patch_user (only_customer cus) u).

(** The spec's sentence on the plan during an upgrade: a successful
    [beginUpgrade] of an identity without a recorded subscription records
    the subscription and leaves the identity's plan as it was. *)
Definition upgrade_keeps_plan : Prop :=
  forall env id user w w' sid secret,
    storage.getUser (db w) id = Some user ->
    u_stripeSubscriptionId user = None ->
    beginUpgrade env (Some id) w = (w', Sent (json_ok (SubscriptionJson sid secret))) ->
    exists user',
      storage.getUser (db w') id = Some user'
      /\ u_stripeSubscriptionId user' = Some sid
      /\ u_plan user' = u_plan user.

Module SampleBilling.

Definition bobs_subscription : Stripe.Subscription :=
  {| Stripe.sub_id := "sub_1"; Stripe.sub_customer := "cus_1"; Stripe.sub_price := "price_1";
     Stripe.sub_payment_behavior := "default_incomplete";
     Stripe.latest_invoice :=
       Stripe.InvoiceObject "in_1" (Stripe.IntentObject "pi_1" (Some "pi_1_secret")) |}.

Definition account : Stripe.Account :=
  {| Stripe.customers :=
       [{| Stripe.cus_id := "cus_1"; Stripe.cus_email := "bob@example.com";
           Stripe.cus_name := "bob@example.com" |}];
     Stripe.products :=
       [{| Stripe.prod_id := "prod_1"; Stripe.prod_name := "MenuQR Premium";
           Stripe.prod_description := "Plano Premium com produtos ilimitados" |}];
     Stripe.prices :=
       [{| Stripe.price_id := "price_1"; Stripe.price_product := "prod_1";
           Stripe.price_currency := "brl"; Stripe.price_unit_amount := 2490;
           Stripe.price_interval := "month" |}];
     Stripe.subscriptions := [bobs_subscription] |}.

Definition world : World := {| db := Sample.store; stripe := account |}.

(** The provider's replies and the engine's part in Alice's upgrade, and
    in a later call. *)
Definition env : UpgradeEnv :=
  {| customer_reply := Stripe.Issued "cus_2";
     product_reply := Stripe.Issued "prod_2";
     price_reply := Stripe.Issued "price_2";
     subscription_reply :=
       Stripe.Issued ("sub_2", Stripe.InvoiceObject "in_2"
                                 (Stripe.IntentObject "pi_2" (Some "pi_2_secret")));
     customer_update := Sample.engine "" 1000;
     stripe_info_update := Sample.engine "" 1001 |}.


End SampleBilling.


(** ** Further vocabulary: shapes of strings *)

(** Every character of the string is in the class. *)
Fixpoint all_chars (P : ascii -> bool) (s : string) : bool :=
  match s with
  | EmptyString => true
  | String c s' => P c && all_chars P s'
  end.

(** A character a slug is made of: [a-z], [0-9] or the hyphen. *)
Definition slug_char (c : ascii) : bool :=
  Js.is_lower_az c || Js.is_digit c || Js.is_hyphen c.

(** The string does not start with a hyphen. *)
Definition no_leading_hyphen (s : string) : bool :=
  match s with
  | String c _ => negb (Js.is_hyphen c)
  | EmptyString => true
  end.

(** No two hyphens stand next to each other. *)
Fixpoint no_adjacent_hyphens (s : string) : bool :=
  match s with
  | EmptyString => true
  | String c s' => (negb (Js.is_hyphen c) || no_leading_hyphen s') && no_adjacent_hyphens s'
  end.

(** ** Further vocabulary: what an operation leaves alone *)

(** The operation [m] never changes the part [f] of the state. *)
Definition keeps {S A T} (f : S -> T) (m : S -> S * A) : Prop :=
  forall s, f (fst (m s)) = f s.

(** The character is deleted by the strip of [generateSlug]: lower-cased, it
    is outside [a-z0-9\s-]. *)
Definition stripped (c : ascii) : bool := negb (slug_class (Js.toLowerCase_char c)).

(** ** Further vocabulary: the order of a listing *)



(** ** Further vocabulary: answers *)

(** The answer is sent with status 200. *)
Definition ok_response (r : Response) : bool := (status r =? 200)%nat.

Definition ok_answer (a : Answer) : bool :=
  match a with
  | Plain r => ok_response r
  | _ => true
  end.

(** A computation that has written only if it resolves with an answer that
    [ok] accepts. *)
Definition tidy {R} (ok : R -> bool) (m : Async Store R) : Prop :=
  forall s,
    match m s with
    | (s', Resolved r) => ok r = true \/ s' = s
    | (s', Rejected _) => s' = s
    end.

(** ** Further vocabulary: the product routes behind their gates *)

(** What the creation route does once the identity, its tenant and the plan
    gate are passed: validate the body, insert, answer. *)
Definition create_step (g : Engine) (restaurantId : string) (body : Body)
           (file : option string) : Store -> Store * Response :=
  try_catch
    (data <- settle (insertProductSchema_parse body) ;;
     product <- storage.createProduct g restaurantId
                  {| ip_name := ip_name data;
                     ip_description := ip_description data;
                     ip_price := ip_price data;
                     ip_categoryId := none_as_null (ip_categoryId data);
                     ip_imageUrl := Some (option_map upload_url file);
                     ip_isActive := ip_isActive data;
                     ip_order := ip_order data |} ;;
     ret (json_ok (ProductJson (Some product))))
    (fun error => json_status 400 (Thrown error)).

(** The plan gate is open: the identity is not on the free plan, or its
    tenant holds fewer than five active products. *)
Definition gate_open (user : User) (restaurant : Restaurant) (s : Store) : Prop :=
  u_plan user <> "free" \/ storage.getProductCount s (r_id restaurant) < 5.

(** The keys of a body that the creation route reads. *)
Definition creation_keys : list string :=
  ["name"; "description"; "price"; "categoryId"; "isActive"; "order"].

(** The [imageUrl] of the body, if any, passes validation: it is absent,
    [null] or a string. *)
Definition image_key_valid (body : Body) : Prop :=
  match field "imageUrl" body with
  | None | Some JNull | Some (JStr _) => True
  | _ => False
  end.

(** The row the creation route inserts for the validated body [data]. *)
Definition created_product (g : Engine) (restaurantId : string) (data : InsertProduct)
           (file : option string) : Product :=
  {| p_id := uuid g;
     p_restaurantId := restaurantId;
     p_categoryId := dflt None (none_as_null (ip_categoryId data));
     p_name := ip_name data;
     p_description := dflt None (ip_description data);
     p_price := ip_price data;
     p_imageUrl := option_map upload_url file;
     p_isActive := dflt true (ip_isActive data);
     p_order := dflt 0%Z (ip_order data);
     p_createdAt := Some (now g);
     p_updatedAt := Some (now g) |}.


(** The product is a row of a tenant other than [restaurantId]. *)
Definition of_other_tenant (restaurantId : string) (p : Product) : bool :=
  negb (p_restaurantId p =? restaurantId).

(** The primary key of [products] holds in the store. *)
Definition product_ids_unique (s : Store) : Prop := NoDup (map p_id (products s)).

(** ** Further vocabulary: the restaurant route *)

(** The primary key and the unique slug of [restaurants] hold in the store. *)
Definition restaurant_keys_unique (s : Store) : Prop :=
  NoDup (map r_id (restaurants s)) /\ NoDup (map r_slug (restaurants s)).

(** No restaurant other than [r] holds the slug. *)
Definition slug_free_for (s : Store) (r : Restaurant) (slug : string) : Prop :=
  forall x, In x (restaurants s) -> r_slug x = slug -> r_id x = r_id r.

(** The engine takes the update of restaurant [r] with the patch [data]. *)
Definition engine_accepts_restaurant_patch (g : Engine) (data : RestaurantPatch)
           (s : Store) (r : Restaurant) : Prop :=
  fault g = None
  /\ match rp_slug data with
     | Some slug => slug_free_for s r slug
     | None => True
     end.

(** ** Further vocabulary: one tenant for each identity *)

(** The foreign key from restaurants to users holds and no two restaurants
    have the same owner. The schema declares no unique constraint on
    [restaurants.user_id]: it is the routes that keep this. *)
Definition one_tenant_each (s : Store) : Prop :=
  restaurants_reference_users s /\ NoDup (map r_userId (restaurants s)).

(** ** Further vocabulary: keys of users *)

(** The primary key of [users] holds in the store. *)
Definition user_ids_unique (s : Store) : Prop := NoDup (map u_id (users s)).

(** ** Further vocabulary: what an upgrade leaves at the provider *)

Definition upgrade_customer (user : User) (cus : string) : Stripe.Customer :=
  {| Stripe.cus_id := cus; Stripe.cus_email := u_email user;
     Stripe.cus_name := u_email user |}.

Definition upgrade_product (prod : string) : Stripe.Product :=
  {| Stripe.prod_id := prod; Stripe.prod_name := "MenuQR Premium";
     Stripe.prod_description := "Plano Premium com produtos ilimitados" |}.

Definition upgrade_price (price prod : string) : Stripe.Price :=
  {| Stripe.price_id := price; Stripe.price_product := prod;
     Stripe.price_currency := "brl"; Stripe.price_unit_amount := 2490;
     Stripe.price_interval := "month" |}.

Definition upgrade_subscription (sid cus price : string) (invoice : Stripe.InvoiceRef)
  : Stripe.Subscription :=
  {| Stripe.sub_id := sid; Stripe.sub_customer := cus; Stripe.sub_price := price;
     Stripe.sub_payment_behavior := "default_incomplete";
     Stripe.latest_invoice := invoice |}.

(** ** Further vocabulary: categories and foreign keys *)

(** The row the category route inserts for the validated body [data]. *)
Definition created_category (g : Engine) (restaurantId : string) (data : InsertCategory)
  : Category :=
  {| c_id := uuid g;
     c_restaurantId := restaurantId;
     c_name := ic_name data;
     c_order := dflt 0%Z (ic_order data) |}.


(** * Properties *)

(** ** Lists, lookups and the promise monad *)

(** Runs the promise monad of a handler down to its matches. *)
Ltac run_async := unfold try_catch, bind, read, ret, settle, throw.

Lemma first_filter_some {A} (f : A -> bool) (l : list A) (x : A) :
  first (filter f l) = Some x -> In x l /\ f x = true.
Proof.
  induction l as [|a l IH]; simpl; [discriminate|].
  destruct (f a) eqn:Fa; simpl.
  - intros [= <-]. auto.
  - intros H. destruct (IH H). auto.
Qed.

Lemma has_key_in {A} (key : A -> string) (l : list A) (x : A) :
  In x l -> has_key key (key x) l = true.
Proof.
  intros Hx. unfold has_key. apply existsb_exists.
  exists x. split; [assumption | apply String.eqb_refl].
Qed.

Lemma getRestaurantByUserId_some s uid r :
  storage.getRestaurantByUserId s uid = Some r ->
  In r (restaurants s) /\ r_userId r = uid.
Proof.
  intros H. apply first_filter_some in H as [Hin He].
  split; [assumption | now apply String.eqb_eq].
Qed.

Lemma getProduct_some s id p :
  storage.getProduct s id = Some p -> In p (products s) /\ p_id p = id.
Proof.
  intros H. apply first_filter_some in H as [Hin He].
  split; [assumption | now apply String.eqb_eq].
Qed.

(** ** Slug derivation *)


Lemma trimEnd_no_space s : no_space s = true -> Js.trimEnd s = s.
Proof.
  induction s as [|c s IH]; simpl; [reflexivity|].
  intros H. apply andb_true_iff in H as [Hc Hs].
  rewrite (IH Hs). apply negb_true_iff in Hc. rewrite Hc.
  destruct s; reflexivity.
Qed.

Lemma trim_no_space s : no_space s = true -> Js.trim s = s.
Proof.
  intros H. unfold Js.trim.
  assert (Js.trimStart s = s) as ->.
  { destruct s as [|c s]; simpl in *; [reflexivity|].
    apply andb_true_iff in H as [Hc _]. apply negb_true_iff in Hc. now rewrite Hc. }
  now apply trimEnd_no_space.
Qed.

Lemma replace_spaces_no_space s b :
  no_space (Js.replace_runs Js.is_space b s) = true.
Proof.
  revert b. induction s as [|c s IH]; intros b; simpl; [reflexivity|].
  destruct (Js.is_space c) eqn:Hc.
  - destruct b; simpl; auto.
  - simpl. rewrite Hc. simpl. auto.
Qed.

Lemma replace_hyphens_no_space s b :
  no_space s = true -> no_space (Js.replace_runs Js.is_hyphen b s) = true.
Proof.
  revert b. induction s as [|c s IH]; intros b; simpl; [reflexivity|].
  intros H. apply andb_true_iff in H as [Hc Hs].
  destruct (Js.is_hyphen c).
  - destruct b; simpl; auto.
  - simpl. rewrite Hc. simpl. auto.
Qed.

(** Once every white-space run has become a hyphen there is nothing left for
    the final [trim()] to remove: it returns its argument. *)
Lemma generateSlug_trim_is_identity name :
  generateSlug name =
  Js.replace_runs Js.is_hyphen false
    (Js.replace_runs Js.is_space false
       (Js.remove_outside slug_class (Js.toLowerCase name))).
Proof.
  unfold generateSlug. apply trim_no_space.
  apply replace_hyphens_no_space, replace_spaces_no_space.
Qed.

(** C6. On the name ["Joe's Diner  "] the source's [generateSlug] returns
    ["joes-diner-"], not ["joes-diner"]: lower-casing, stripping and the two
    collapses are as described, but the closing [trim()] removes white
    space, of which none is left on any input, so the hyphen that the
    trailing blanks became stays. *)
Theorem C6_generateSlug_joes_diner :
  generateSlug "Joe's Diner  " = "joes-diner-"
  /\ generateSlug "Joe's Diner  " <> "joes-diner"
  /\ (forall name,
         generateSlug name =
         Js.replace_runs Js.is_hyphen false
           (Js.replace_runs Js.is_space false
              (Js.remove_outside slug_class (Js.toLowerCase name)))).
Proof.
  split; [reflexivity | split; [discriminate|]].
  exact generateSlug_trim_is_identity.
Qed.

(** ** The plan gate of product creation *)


Section ProductCreation.

Variables (g : Engine) (user : User) (body : Body) (file : option string).
Variables (s : Store) (restaurant : Restaurant).
Hypothesis tenant : storage.getRestaurantByUserId s (u_id user) = Some restaurant.

(** The part of the route behind the gate: parse, then insert. *)
Let after_gate : Store * Response :=
  try_catch
    (data <- settle (insertProductSchema_parse body) ;;
     product <- storage.createProduct g (r_id restaurant)
                  {| ip_name := ip_name data;
                     ip_description := ip_description data;
                     ip_price := ip_price data;
                     ip_categoryId := none_as_null (ip_categoryId data);
                     ip_imageUrl := Some (option_map upload_url file);
                     ip_isActive := ip_isActive data;
                     ip_order := ip_order data |} ;;
     ret (json_ok (ProductJson (Some product))))
    (fun error => json_status 400 (Thrown error)) s.

Lemma post_products_free_full :
  u_plan user = "free" ->
  5 <= storage.getProductCount s (r_id restaurant) ->
  post_products g (Some user) body file s = (s, PlanLimitExceeded).
Proof.
  intros Hfree Hfull.
  unfold post_products. run_async. rewrite tenant, Hfree. simpl.
  apply Nat.leb_le in Hfull. unfold Nat.leb in Hfull |- *.
  now rewrite Hfull.
Qed.

Lemma post_products_free_room :
  u_plan user = "free" ->
  storage.getProductCount s (r_id restaurant) < 5 ->
  post_products g (Some user) body file s = after_gate.
Proof.
  intros Hfree Hroom.
  unfold post_products, after_gate. run_async.
  rewrite tenant, Hfree. simpl.
  apply Nat.leb_gt in Hroom. unfold Nat.leb in Hroom |- *.
  now rewrite Hroom.
Qed.

Lemma post_products_not_free :
  u_plan user <> "free" ->
  post_products g (Some user) body file s = after_gate.
Proof.
  intros Hplan.
  unfold post_products, after_gate. run_async.
  rewrite tenant. apply String.eqb_neq in Hplan. now rewrite Hplan.
Qed.




End ProductCreation.


(** ** The ownership gate of product update and delete *)

Lemma not_owner_of_other_tenant restaurant (p : Product) :
  (forall r, restaurant = Some r -> r_id r <> p_restaurantId p) ->
  not_owner restaurant p = true.
Proof.
  intros H. destruct restaurant as [r|]; simpl; [|reflexivity].
  apply negb_true_iff, String.eqb_neq. intros E. now apply (H r eq_refl).
Qed.

(** C2. When the product exists and the tenant of the identity, if it has
    one, is not the product's tenant, both the update and the delete route
    answer [NotOwner] (status 403) whatever the identity's plan, the body
    and the engine are, and the store (the product with it) is left as it
    was. *)
Theorem C2_cross_tenant_update_delete_denied
        (g : Engine) (user : User) (id : string) (body : Body) (file : option string)
        (s : Store) (p : Product) :
  storage.getProduct s id = Some p ->
  (forall r, storage.getRestaurantByUserId s (u_id user) = Some r ->
             r_id r <> p_restaurantId p) ->
  put_product g (Some user) id body file s = (s, NotOwner)
  /\ delete_product g (Some user) id s = (s, NotOwner).
Proof.
  intros Hp Hother.
  pose proof (not_owner_of_other_tenant _ p Hother) as Hdeny.
  unfold put_product, delete_product. run_async.
  rewrite Hp, Hdeny. auto.
Qed.

(** Bob, on the premium plan, may neither update nor delete Alice's
    product [p6]. *)
Lemma C2_witness :
  put_product (Sample.engine "" 600) (Some Sample.bob) "p6" Sample.activate None Sample.store
  = (Sample.store, NotOwner)
  /\ delete_product (Sample.engine "" 600) (Some Sample.bob) "p6" Sample.store
     = (Sample.store, NotOwner).
Proof.
  apply (C2_cross_tenant_update_delete_denied (Sample.engine "" 600) Sample.bob "p6"
           Sample.activate None Sample.store
           (Sample.product_of "p6" "r1" (Some "c1") "Stew" false 406)).
  - reflexivity.
  - intros r Hr. vm_compute in Hr. injection Hr as <-. discriminate.
Defined.

(** ** Product update behind the ownership gate *)

Lemma first_filter_map {A} (f : A -> bool) (h : A -> A) (l : list A) :
  (forall x, f (h x) = f x) ->
  first (filter f (map h l)) = option_map h (first (filter f l)).
Proof.
  intros Hinv. induction l as [|a l IH]; simpl; [reflexivity|].
  rewrite Hinv. destruct (f a); simpl; auto.
Qed.

Lemma count_filter_map_le {A} (f : A -> bool) (h : A -> A) (l : list A) :
  (forall x, f x = true -> f (h x) = true) ->
  length (filter f l) <= length (filter f (map h l)).
Proof.
  intros Hmono. induction l as [|a l IH]; simpl; [lia|].
  destruct (f a) eqn:Fa.
  - rewrite (Hmono a Fa). simpl. lia.
  - destruct (f (h a)); simpl; lia.
Qed.

Lemma count_filter_map_lt {A} (f : A -> bool) (h : A -> A) (l : list A) (x : A) :
  (forall y, f y = true -> f (h y) = true) ->
  In x l -> f x = false -> f (h x) = true ->
  length (filter f l) < length (filter f (map h l)).
Proof.
  intros Hmono Hin Hx Hhx. induction l as [|a l IH]; simpl; [contradiction|].
  destruct Hin as [->|Hin].
  - rewrite Hx, Hhx. simpl.
    pose proof (count_filter_map_le f h l Hmono). lia.
  - specialize (IH Hin). destruct (f a) eqn:Fa.
    + rewrite (Hmono a Fa). simpl. lia.
    + destruct (f (h a)); simpl; lia.
Qed.

(** C10. The update route has no plan gate. For a free identity whose
    tenant already holds five or more active products, a request that sets
    [isActive] to [true] on one of the tenant's inactive products (body
    valid, update taken by the engine) is answered 200 with the product now
    active, never with [PlanLimitExceeded], and the tenant's count of active
    products has grown: it exceeds 5. *)
Theorem C10_update_bypasses_plan_limit
        (g : Engine) (user : User) (id : string) (body : Body) (file : option string)
        (s : Store) (restaurant : Restaurant) (p : Product) (data : ProductPatch) :
  u_plan user = "free" ->
  storage.getRestaurantByUserId s (u_id user) = Some restaurant ->
  5 <= storage.getProductCount s (r_id restaurant) ->
  storage.getProduct s id = Some p ->
  p_restaurantId p = r_id restaurant ->
  p_isActive p = false ->
  insertProductSchema_partial_parse body = Resolved data ->
  pp_isActive data = Some true ->
  engine_accepts_patch g data s ->
  exists s' p',
    put_product g (Some user) id body file s = (s', json_ok (ProductJson (Some p')))
    /\ json_ok (ProductJson (Some p')) <> PlanLimitExceeded
    /\ p_id p' = id
    /\ p_isActive p' = true
    /\ storage.getProduct s' id = Some p'
    /\ storage.getProductCount s (r_id restaurant)
       < storage.getProductCount s' (r_id restaurant)
    /\ 5 < storage.getProductCount s' (r_id restaurant).
Proof.
  intros _ Htenant Hfull Hp Howner Hinactive Hparse Hactive (Hfault & Hcat).
  set (patch := {| pp_name := pp_name data;
                   pp_description := pp_description data;
                   pp_price := pp_price data;
                   pp_categoryId := none_as_null (pp_categoryId data);
                   pp_imageUrl := match file with
                                  | Some f => Some (Some (upload_url f))
                                  | None => pp_imageUrl data
                                  end;
                   pp_isActive := pp_isActive data;
                   pp_order := pp_order data |}).
  set (h := fun q => if p_id q =? id then patch_product patch (now g) q else q).
  assert (forall q, p_id (h q) = p_id q) as Hid.
  { intros q. unfold h. now destruct (p_id q =? id). }
  assert (forall q, p_restaurantId (h q) = p_restaurantId q) as Hrid.
  { intros q. unfold h. now destruct (p_id q =? id). }
  destruct (getProduct_some _ _ _ Hp) as [Hin Hpid].
  assert (h p = patch_product patch (now g) p) as Hhp.
  { unfold h. now rewrite Hpid, String.eqb_refl. }
  assert (p_isActive (h p) = true) as Hon.
  { rewrite Hhp. simpl. now rewrite Hactive. }
  exists (set_products s (map h (products s))), (h p).
  assert (storage.getProduct (set_products s (map h (products s))) id = Some (h p)) as Hget.
  { unfold storage.getProduct. simpl.
    rewrite first_filter_map by (intros q; now rewrite Hid).
    fold (storage.getProduct s id). now rewrite Hp. }
  assert (storage.getProductCount s (r_id restaurant)
          < storage.getProductCount (set_products s (map h (products s))) (r_id restaurant))
    as Hgrow.
  { unfold storage.getProductCount. simpl.
    apply count_filter_map_lt with (x := p); try assumption.
    - intros q Hq. apply andb_true_iff in Hq as [Hq1 Hq2].
      rewrite Hrid, Hq1. simpl. unfold h.
      destruct (p_id q =? id); [|assumption].
      simpl. now rewrite Hactive.
    - rewrite Hinactive. apply andb_false_r.
    - rewrite Hrid, Hon, Howner, String.eqb_refl. reflexivity. }
  repeat split; try assumption.
  - unfold put_product. run_async.
    rewrite Hp, Htenant. simpl. rewrite Howner, String.eqb_refl. simpl.
    rewrite Hparse. unfold storage.updateProduct. rewrite Hfault. fold patch.
    assert ((match pp_categoryId patch with
             | Some (Some c) =>
                 has_key p_id id (products s) && negb (has_key c_id c (categories s))
             | _ => false
             end) = false) as ->.
    { simpl. destruct (none_as_null (pp_categoryId data)) as [[c|]|]; try reflexivity.
      rewrite Hcat. apply andb_false_r. }
    fold h. unfold storage.getProduct in Hget. simpl in Hget.
    now rewrite Hget.
  - discriminate.
  - now rewrite Hid.
  - lia.
Qed.

(** Alice, free and already at five active products, switches her sixth
    product on: the update is answered 200 and she has six. *)
Lemma C10_witness :
  exists s' p',
    put_product (Sample.engine "" 600) (Some Sample.alice) "p6" Sample.activate None
      Sample.store = (s', json_ok (ProductJson (Some p')))
    /\ json_ok (ProductJson (Some p')) <> PlanLimitExceeded
    /\ p_id p' = "p6"
    /\ p_isActive p' = true
    /\ storage.getProduct s' "p6" = Some p'
    /\ storage.getProductCount Sample.store "r1" < storage.getProductCount s' "r1"
    /\ 5 < storage.getProductCount s' "r1".
Proof.
  apply (C10_update_bypasses_plan_limit (Sample.engine "" 600) Sample.alice "p6"
           Sample.activate None Sample.store Sample.alices
           (Sample.product_of "p6" "r1" (Some "c1") "Stew" false 406)
           {| pp_name := None; pp_description := None; pp_price := None;
              pp_categoryId := None; pp_imageUrl := None; pp_isActive := Some true;
              pp_order := None |}).
  - reflexivity.
  - reflexivity.
  - vm_compute. lia.
  - reflexivity.
  - reflexivity.
  - reflexivity.
  - reflexivity.
  - reflexivity.
  - split; [reflexivity | exact I].
Defined.

(** ** The public projection *)

Lemma insert_sorted_perm {A} (le : A -> A -> bool) (a : A) (l : list A) :
  Permutation (insert_sorted le a l) (a :: l).
Proof.
  induction l as [|b l IH]; simpl; [reflexivity|].
  destruct (le a b); [reflexivity|].
  rewrite IH. apply perm_swap.
Qed.

Lemma order_by_perm {A} (le : A -> A -> bool) (l : list A) :
  Permutation (order_by le l) l.
Proof.
  induction l as [|a l IH]; simpl; [reflexivity|].
  rewrite insert_sorted_perm. now constructor.
Qed.

Lemma filter_perm {A} (f : A -> bool) (l l' : list A) :
  Permutation l l' -> Permutation (filter f l) (filter f l').
Proof.
  induction 1 as [|x l l' _ IH|x y l|l l' l'' _ IH1 _ IH2]; simpl.
  - reflexivity.
  - destruct (f x); [now constructor | assumption].
  - destruct (f x), (f y); try reflexivity. apply perm_swap.
  - now transitivity (filter f l').
Qed.

Lemma filter_filter {A} (f g : A -> bool) (l : list A) :
  filter f (filter g l) = filter (fun x => g x && f x) l.
Proof.
  induction l as [|a l IH]; simpl; [reflexivity|].
  destruct (g a); simpl; [destruct (f a)|]; now rewrite IH.
Qed.

Lemma getRestaurantBySlug_some s slug r :
  storage.getRestaurantBySlug s slug = Some r -> In r (restaurants s) /\ r_slug r = slug.
Proof.
  intros H. apply first_filter_some in H as [Hin He].
  split; [assumption | now apply String.eqb_eq].
Qed.

(** The three ways [recordMenuView] settles for a restaurant of the store. *)
Lemma recordMenuView_cases g rid userAgent ip s :
  has_key r_id rid (restaurants s) = true ->
  (exists v,
      storage.recordMenuView g rid userAgent ip s
      = (set_menuViews s (menuViews s ++ [v]), Resolved v)
      /\ v_restaurantId v = rid
      /\ fault g = None /\ has_key v_id (uuid g) (menuViews s) = false)
  \/ (exists e, storage.recordMenuView g rid userAgent ip s = (s, Rejected e)).
Proof.
  intros Hr. unfold storage.recordMenuView.
  destruct (fault g) as [m|]; [right; eauto|].
  destruct (has_key v_id (uuid g) (menuViews s)); [right; eauto|].
  rewrite Hr. simpl. left. eexists. repeat split.
Qed.

(** The route either records the view and answers with the projection, or
    answers 500 with the store untouched. *)
Lemma get_menu_cases g slug userAgent ip s restaurant :
  storage.getRestaurantBySlug s slug = Some restaurant ->
  (exists v,
      get_menu g slug userAgent ip s
      = (set_menuViews s (menuViews s ++ [v]),
         json_ok (MenuJson restaurant
                    (filter p_isActive (storage.getProductsByRestaurant s (r_id restaurant)))
                    (storage.getCategoriesByRestaurant s (r_id restaurant))))
      /\ v_restaurantId v = r_id restaurant
      /\ storage.recordMenuView g (r_id restaurant) userAgent ip s
         = (set_menuViews s (menuViews s ++ [v]), Resolved v))
  \/ (exists e,
         get_menu g slug userAgent ip s = (s, json_status 500 (Thrown e))
         /\ storage.recordMenuView g (r_id restaurant) userAgent ip s = (s, Rejected e)).
Proof.
  intros Hslug.
  destruct (getRestaurantBySlug_some _ _ _ Hslug) as [Hin _].
  pose proof (has_key_in r_id _ _ Hin) as Hr.
  unfold get_menu. run_async. rewrite Hslug.
  destruct (recordMenuView_cases g (r_id restaurant) userAgent ip s Hr)
    as [(v & Hv & Hrid & _)|(e & He)].
  - left. exists v. rewrite Hv. auto.
  - right. exists e. rewrite He. auto.
Qed.

(** C5. When the slug resolves to a tenant and the view is recorded, the
    route answers 200 with that tenant, with a products list that holds a
    product exactly when it is a row of the store owned by the tenant with
    [isActive = true] (each row once: the list is a permutation of those
    rows), and with a categories list that holds exactly the tenant's
    categories, whether or not any product refers to them. *)
Theorem C5_public_menu_projection
        (g : Engine) (slug : string) (userAgent ip : option string)
        (s : Store) (restaurant : Restaurant) :
  storage.getRestaurantBySlug s slug = Some restaurant ->
  fault g = None ->
  has_key v_id (uuid g) (menuViews s) = false ->
  exists ps cs,
    snd (get_menu g slug userAgent ip s) = json_ok (MenuJson restaurant ps cs)
    /\ Permutation ps
         (filter (fun p => (p_restaurantId p =? r_id restaurant) && p_isActive p) (products s))
    /\ (forall p, In p ps <->
                  In p (products s) /\ p_restaurantId p = r_id restaurant
                  /\ p_isActive p = true)
    /\ Permutation cs
         (filter (fun c => c_restaurantId c =? r_id restaurant) (categories s))
    /\ (forall c, In c cs <-> In c (categories s) /\ c_restaurantId c = r_id restaurant).
Proof.
  intros Hslug Hfault Hfresh.
  assert (Permutation
            (filter p_isActive (storage.getProductsByRestaurant s (r_id restaurant)))
            (filter (fun p => (p_restaurantId p =? r_id restaurant) && p_isActive p)
                    (products s))) as Hps.
  { unfold storage.getProductsByRestaurant.
    rewrite <- filter_filter. apply filter_perm, order_by_perm. }
  assert (Permutation (storage.getCategoriesByRestaurant s (r_id restaurant))
            (filter (fun c => c_restaurantId c =? r_id restaurant) (categories s))) as Hcs.
  { apply order_by_perm. }
  destruct (get_menu_cases g slug userAgent ip s restaurant Hslug)
    as [(v & Hrun & _)|(e & _ & Hrej)].
  - eexists _, _. rewrite Hrun. simpl. split; [reflexivity|].
    split; [exact Hps|]. split; [|split; [exact Hcs|]].
    + intros p. split.
      * intros Hp. apply (Permutation_in _ Hps) in Hp.
        apply filter_In in Hp as [Hp Hc]. apply andb_true_iff in Hc as [Hc1 Hc2].
        apply String.eqb_eq in Hc1. auto.
      * intros (Hp & Hrid & Hact). apply (Permutation_in _ (Permutation_sym Hps)).
        apply filter_In. split; [assumption|].
        rewrite Hrid, String.eqb_refl, Hact. reflexivity.
    + intros c. split.
      * intros Hc. apply (Permutation_in _ Hcs) in Hc.
        apply filter_In in Hc as [Hc Hrid]. apply String.eqb_eq in Hrid. auto.
      * intros (Hc & Hrid). apply (Permutation_in _ (Permutation_sym Hcs)).
        apply filter_In. split; [assumption|]. rewrite Hrid. apply String.eqb_refl.
  - exfalso. unfold storage.recordMenuView in Hrej.
    rewrite Hfault, Hfresh in Hrej.
    destruct (getRestaurantBySlug_some _ _ _ Hslug) as [Hin _].
    rewrite (has_key_in r_id _ _ Hin) in Hrej. simpl in Hrej. discriminate.
Qed.

(** The menu of Alice's tenant: her five active products, both her
    categories (no product refers to the second). *)
Lemma C5_witness :
  exists ps cs,
    snd (get_menu (Sample.engine "v1" 700) "alices-diner" None None Sample.store)
    = json_ok (MenuJson Sample.alices ps cs)
    /\ Permutation ps
         (filter (fun p => (p_restaurantId p =? "r1") && p_isActive p)
                 (products Sample.store))
    /\ (forall p, In p ps <->
                  In p (products Sample.store) /\ p_restaurantId p = "r1"
                  /\ p_isActive p = true)
    /\ Permutation cs
         (filter (fun c => c_restaurantId c =? "r1") (categories Sample.store))
    /\ (forall c, In c cs <-> In c (categories Sample.store) /\ c_restaurantId c = "r1").
Proof.
  apply (C5_public_menu_projection (Sample.engine "v1" 700) "alices-diner" None None
           Sample.store Sample.alices).
  - reflexivity.
  - reflexivity.
  - reflexivity.
Defined.

(** ** View counting *)

Lemma count_views_app rid (l : list MenuView) (v : MenuView) :
  v_restaurantId v = rid ->
  length (filter (fun x => v_restaurantId x =? rid) (l ++ [v]))
  = S (length (filter (fun x => v_restaurantId x =? rid) l)).
Proof.
  intros Hv. rewrite filter_app, length_app. simpl.
  rewrite Hv, String.eqb_refl. simpl. lia.
Qed.

Lemma get_menu_calls_count slug restaurant fetches :
  forall s s' rs,
    storage.getRestaurantBySlug s slug = Some restaurant ->
    get_menu_calls slug fetches s = (s', rs) ->
    Forall (fun r => status r = 200) rs ->
    storage.getMenuViewCount s' (r_id restaurant)
    = storage.getMenuViewCount s (r_id restaurant) + length fetches
    /\ length (menuViews s') = length (menuViews s) + length fetches.
Proof.
  induction fetches as [|q fetches IH]; intros s s' rs Hslug Hrun Hok; simpl in Hrun.
  - injection Hrun as <- <-. simpl. lia.
  - destruct (get_menu_cases (mf_engine q) slug (mf_userAgent q) (mf_ip q) s restaurant Hslug)
      as [(v & Hcall & Hv & _)|(e & Hcall & _)]; rewrite Hcall in Hrun.
    + destruct (get_menu_calls slug fetches (set_menuViews s (menuViews s ++ [v])))
        as [s2 rs2] eqn:Hrest.
      injection Hrun as <- <-. inversion Hok as [|r0 rs0 _ Hok']; subst.
      destruct (IH (set_menuViews s (menuViews s ++ [v])) _ _ Hslug Hrest Hok')
        as [Hcount Hlen].
      rewrite Hcount, Hlen. unfold storage.getMenuViewCount. simpl.
      rewrite (count_views_app _ _ _ Hv), length_app. simpl. lia.
    + destruct (get_menu_calls slug fetches s) as [s2 rs2].
      injection Hrun as <- <-. inversion Hok as [|r0 rs0 H500 _]; subst.
      simpl in H500. discriminate.
Qed.

(** C7, as the code has it. For a slug that resolves to a tenant: a call
    whose view the engine takes appends one [MenuView] of that tenant and
    answers 200; [N] sequential calls that all answer 200 raise the tenant's
    view count, and the length of the view log, by exactly [N]; and a call
    whose view recording is rejected is answered 500 with the thrown error,
    not with the projection, and records nothing. *)
Theorem C7_views_counted_failure_surfaces
        (slug : string) (s : Store) (restaurant : Restaurant) :
  storage.getRestaurantBySlug s slug = Some restaurant ->
  (forall g userAgent ip,
      fault g = None -> has_key v_id (uuid g) (menuViews s) = false ->
      exists (v : MenuView) (s' : Store),
        fst (get_menu g slug userAgent ip s) = s'
        /\ status (snd (get_menu g slug userAgent ip s)) = 200
        /\ menuViews s' = (menuViews s ++ [v])%list
        /\ v_restaurantId v = r_id restaurant)
  /\ (forall fetches s' rs,
         get_menu_calls slug fetches s = (s', rs) ->
         Forall (fun r => status r = 200) rs ->
         storage.getMenuViewCount s' (r_id restaurant)
         = storage.getMenuViewCount s (r_id restaurant) + length fetches
         /\ length (menuViews s') = length (menuViews s) + length fetches)
  /\ (forall g userAgent ip e,
         snd (storage.recordMenuView g (r_id restaurant) userAgent ip s) = Rejected e ->
         get_menu g slug userAgent ip s = (s, json_status 500 (Thrown e))).
Proof.
  intros Hslug. split; [|split].
  - intros g userAgent ip Hfault Hfresh.
    destruct (get_menu_cases g slug userAgent ip s restaurant Hslug)
      as [(v & Hcall & Hv & _)|(e & _ & Hrej)].
    + exists v. eexists. rewrite Hcall. simpl. auto.
    + exfalso. unfold storage.recordMenuView in Hrej.
      rewrite Hfault, Hfresh in Hrej.
      destruct (getRestaurantBySlug_some _ _ _ Hslug) as [Hin _].
      rewrite (has_key_in r_id _ _ Hin) in Hrej. simpl in Hrej. discriminate.
  - intros fetches s' rs. now apply get_menu_calls_count.
  - intros g userAgent ip e Hrej.
    destruct (get_menu_cases g slug userAgent ip s restaurant Hslug)
      as [(v & _ & _ & Hrec)|(e' & Hcall & Hrec)]; rewrite Hrec in Hrej; simpl in Hrej.
    + discriminate.
    + injection Hrej as <-. exact Hcall.
Qed.

(** Three fetches of Alice's menu in a row leave three views of her tenant;
    a fetch during which the engine is down is answered 500. *)
Lemma C7_witness :
  storage.getMenuViewCount
    (fst (get_menu_calls "alices-diner"
            [ {| mf_engine := Sample.engine "v1" 701; mf_userAgent := Some "curl";
                 mf_ip := Some "10.0.0.1" |};
              {| mf_engine := Sample.engine "v2" 702; mf_userAgent := None;
                 mf_ip := None |};
              {| mf_engine := Sample.engine "v3" 703; mf_userAgent := None;
                 mf_ip := Some "10.0.0.2" |} ] Sample.store)) "r1" = 3
  /\ get_menu (Sample.broken_engine "v1" 700) "alices-diner" None None Sample.store
     = (Sample.store, json_status 500 (Thrown (EngineFault "connection terminated"))).
Proof.
  pose proof (C7_views_counted_failure_surfaces "alices-diner" Sample.store Sample.alices
                eq_refl) as (_ & Hseq & Hfail).
  split.
  - match goal with
    | |- storage.getMenuViewCount (fst (get_menu_calls ?slug ?fs ?s)) _ = _ =>
        destruct (Hseq fs (fst (get_menu_calls slug fs s)) (snd (get_menu_calls slug fs s)))
          as [Hcount _]
    end.
    + reflexivity.
    + repeat constructor.
    + exact Hcount.
  - apply Hfail. reflexivity.
Defined.

(** C7, as the spec words its second half, fails: with the engine down
    while the view is recorded, the fetch of an existing menu is answered
    500 and carries no projection. *)
Lemma C7_counterexample : ~ view_recording_is_fire_and_forget.
Proof.
  intros Hclaim.
  destruct (Hclaim (Sample.broken_engine "v1" 700) "alices-diner" None None Sample.store
              Sample.alices (EngineFault "connection terminated") eq_refl eq_refl)
    as (ps & cs & Hresp).
  vm_compute in Hresp. discriminate.
Qed.

(** ** Deleting a category *)

Lemma null_category_same id p : same_but_category p (null_category id p).
Proof.
  unfold null_category. destruct (references (p_categoryId p) id);
    repeat split; reflexivity.
Qed.

Lemma null_category_referencing id p :
  p_categoryId p = Some id -> p_categoryId (null_category id p) = None.
Proof.
  intros H. unfold null_category, references. rewrite H, String.eqb_refl. reflexivity.
Qed.

Lemma null_category_other id p :
  p_categoryId p <> Some id -> null_category id p = p.
Proof.
  intros H. unfold null_category, references.
  destruct (p_categoryId p) as [k|]; [|reflexivity].
  destruct (k =? id) eqn:E; [|reflexivity].
  apply String.eqb_eq in E. congruence.
Qed.

(** C8. When the engine takes the delete of a stored category [C], the
    category is gone, no product row is removed, a product that referred
    to [C] is still stored (and still the answer of [getProduct] under its
    id) with a null category reference and every other field as before,
    and a product that did not refer to [C] is stored unchanged. *)
Theorem C8_deleteCategory_nulls_references
        (g : Engine) (s : Store) (c : Category) (p : Product) :
  fault g = None ->
  In c (categories s) ->
  In p (products s) ->
  p_categoryId p = Some (c_id c) ->
  exists s' p',
    storage.deleteCategory g (c_id c) s = (s', Resolved tt)
    /\ has_key c_id (c_id c) (categories s') = false
    /\ length (products s') = length (products s)
    /\ In p' (products s')
    /\ p_categoryId p' = None
    /\ same_but_category p p'
    /\ (storage.getProduct s (p_id p) = Some p ->
        storage.getProduct s' (p_id p) = Some p')
    /\ (forall q, In q (products s) -> p_categoryId q <> Some (c_id c) ->
                  In q (products s')).
Proof.
  intros Hfault Hc Hp Href.
  exists {| users := users s;
            restaurants := restaurants s;
            categories := filter (fun x => negb (c_id x =? c_id c)) (categories s);
            products := map (null_category (c_id c)) (products s);
            menuViews := menuViews s |}, (null_category (c_id c) p).
  split; [|split; [|split; [|split; [|split; [|split; [|split]]]]]]; simpl.
  - unfold storage.deleteCategory. now rewrite Hfault, (has_key_in c_id _ _ Hc).
  - unfold has_key. destruct (existsb _ _) eqn:E; [|reflexivity].
    apply existsb_exists in E as (x & Hx & Hid).
    apply filter_In in Hx as [_ Hx]. rewrite Hid in Hx. discriminate.
  - apply length_map.
  - now apply in_map.
  - now apply null_category_referencing.
  - apply null_category_same.
  - intros Hget. unfold storage.getProduct in *. simpl.
    rewrite first_filter_map.
    + now rewrite Hget.
    + intros x. now destruct (null_category_same (c_id c) x) as [-> _].
  - intros q Hq Hother.
    rewrite <- (null_category_other (c_id c) q Hother). now apply in_map.
Qed.

(** Deleting the category of starters leaves Alice's soup stored, without
    a category. *)
Lemma C8_witness :
  exists s' p',
    storage.deleteCategory (Sample.engine "" 800) "c1" Sample.store = (s', Resolved tt)
    /\ has_key c_id "c1" (categories s') = false
    /\ length (products s') = 7
    /\ In p' (products s')
    /\ p_categoryId p' = None
    /\ same_but_category (Sample.product_of "p1" "r1" (Some "c1") "Soup" true 401) p'
    /\ (storage.getProduct Sample.store "p1"
        = Some (Sample.product_of "p1" "r1" (Some "c1") "Soup" true 401) ->
        storage.getProduct s' "p1" = Some p')
    /\ (forall q, In q (products Sample.store) -> p_categoryId q <> Some "c1" ->
                  In q (products s')).
Proof.
  apply (C8_deleteCategory_nulls_references (Sample.engine "" 800) Sample.store
           Sample.starters (Sample.product_of "p1" "r1" (Some "c1") "Soup" true 401)).
  - reflexivity.
  - simpl. auto.
  - simpl. auto.
  - reflexivity.
Defined.

(** ** Registration *)

Lemma first_filter_app_new {A} (f : A -> bool) (l : list A) (x : A) :
  first (filter f l) = None -> f x = true -> first (filter f (l ++ [x])) = Some x.
Proof.
  intros Hnone Hx. induction l as [|a l IH]; simpl in *.
  - now rewrite Hx.
  - destruct (f a); [discriminate | auto].
Qed.

Lemma first_filter_absent {A} (f : A -> bool) (l : list A) :
  (forall x, In x l -> f x = false) -> first (filter f l) = None.
Proof.
  intros H. induction l as [|a l IH]; simpl; [reflexivity|].
  rewrite (H a (or_introl eq_refl)). apply IH. intros x Hx. apply H. now right.
Qed.

Lemma createUser_settled g iu s s1 (x : Settled User) :
  storage.createUser g iu s = (s1, x) ->
  match x with
  | Resolved u =>
      s1 = set_users s (users s ++ [u])
      /\ u_id u = uuid g /\ u_email u = iu_email iu
      /\ has_key u_id (uuid g) (users s) = false
  | Rejected _ => s1 = s
  end.
Proof.
  unfold storage.createUser.
  destruct (fault g); [now intros [= <- <-]|].
  destruct (has_key u_id (uuid g) (users s)) eqn:Hk; [now intros [= <- <-]|].
  destruct (has_key u_email (iu_email iu) (users s)); intros [= <- <-]; auto.
Qed.

Lemma createRestaurant_settled g ir s s1 (x : Settled Restaurant) :
  storage.createRestaurant g ir s = (s1, x) ->
  match x with
  | Resolved r =>
      s1 = set_restaurants s (restaurants s ++ [r])
      /\ r_userId r = ir_userId ir /\ r_slug r = ir_slug ir /\ r_name r = ir_name ir
  | Rejected _ => s1 = s
  end.
Proof.
  unfold storage.createRestaurant.
  destruct (fault g); [now intros [= <- <-]|].
  destruct (has_key r_id (uuid g) (restaurants s)); [now intros [= <- <-]|].
  destruct (has_key r_slug (ir_slug ir) (restaurants s)); [now intros [= <- <-]|].
  destruct (has_key u_id (ir_userId ir) (users s)); simpl; intros [= <- <-]; auto.
Qed.

(** Under the foreign key, an id that no user has owns no restaurant. *)
Lemma fresh_user_has_no_restaurant s id :
  restaurants_reference_users s ->
  has_key u_id id (users s) = false ->
  forall r, In r (restaurants s) -> (r_userId r =? id) = false.
Proof.
  intros Hfk Hfresh r Hr. apply String.eqb_neq. intros E.
  specialize (Hfk r Hr). rewrite E in Hfk. congruence.
Qed.

Section Registration.

Variables (env : RegisterEnv) (body : Body) (s : Store) (data : RegisterData).
Hypothesis parsed : registerSchema_parse body = Resolved data.
Hypothesis foreign_key : restaurants_reference_users s.

Let email : string := iu_email (rd_user data).

Lemma register_email_in_use :
  storage.getUserByEmail s email <> None ->
  register env body s = (s, json_status 400 (Message Msg.email_in_use)).
Proof.
  intros Hused. unfold register. run_async. rewrite parsed.
  fold email. destruct (storage.getUserByEmail s email); [reflexivity | contradiction].
Qed.

(** The route behind the email check, in terms of how the two inserts
    settle. *)
Lemma register_new_email :
  storage.getUserByEmail s email = None ->
  register env body s =
  match storage.createUser (user_insert env) (new_identity env data) s with
  | (s1, Rejected e) => (s1, json_status 400 (Thrown e))
  | (s1, Resolved user) =>
      match storage.createRestaurant (restaurant_insert env) (new_tenant user data) s1 with
      | (s2, Rejected e) => (s2, json_status 400 (Thrown e))
      | (s2, Resolved restaurant) =>
          (s2, if login_error env
               then json_status 500 (Message Msg.auto_login)
               else json_ok (Registered user restaurant))
      end
  end.
Proof.
  intros Hnew.
  unfold register, new_identity, new_tenant. run_async.
  rewrite parsed. unfold email in Hnew. rewrite Hnew.
  destruct (storage.createUser _ _ s) as [s1 [user|e]]; [|reflexivity].
  destruct (storage.createRestaurant _ _ s1) as [s2 [restaurant|e]]; [|reflexivity].
  now destruct (login_error env).
Qed.

Lemma created_user_found s1 user :
  storage.getUserByEmail s email = None ->
  storage.createUser (user_insert env) (new_identity env data) s = (s1, Resolved user) ->
  storage.getUserByEmail s1 email = Some user
  /\ storage.getRestaurantByUserId s1 (u_id user) = None
  /\ restaurants s1 = restaurants s.
Proof.
  intros Hnew Hcreate. apply createUser_settled in Hcreate as (-> & Hid & Hmail & Hfresh).
  split; [|split].
  - unfold storage.getUserByEmail. simpl. apply first_filter_app_new; [exact Hnew|].
    rewrite Hmail. apply String.eqb_refl.
  - unfold storage.getRestaurantByUserId. simpl. apply first_filter_absent.
    rewrite Hid. now apply fresh_user_has_no_restaurant.
  - reflexivity.
Qed.

(** C9, as the code has it. The identity and its tenant are written by two
    inserts with no transaction around them. (1) When the email is already
    registered the store is left as it was. (2) When the route answers with
    the registered pair, the store holds that identity under the submitted
    email and that tenant, owned by it, under the derived slug. (3) When the
    identity insert is taken and the tenant insert is rejected, the route
    answers 400 with the thrown error and the store holds the new identity
    with no tenant. *)
Theorem C9_registration_is_two_writes :
  let s' := fst (register env body s) in
  let reply := snd (register env body s) in
  (storage.getUserByEmail s email <> None ->
   s' = s /\ reply = json_status 400 (Message Msg.email_in_use))
  /\ (forall user restaurant,
         reply = json_ok (Registered user restaurant) ->
         u_email user = email
         /\ storage.getUserByEmail s' email = Some user
         /\ storage.getRestaurantByUserId s' (u_id user) = Some restaurant
         /\ r_userId restaurant = u_id user
         /\ r_slug restaurant = generateSlug (rd_restaurantName data))
  /\ (forall s1 user e,
         storage.getUserByEmail s email = None ->
         storage.createUser (user_insert env) (new_identity env data) s
         = (s1, Resolved user) ->
         snd (storage.createRestaurant (restaurant_insert env) (new_tenant user data) s1)
         = Rejected e ->
         reply = json_status 400 (Thrown e)
         /\ storage.getUserByEmail s' email = Some user
         /\ storage.getRestaurantByUserId s' (u_id user) = None).
Proof.
  intros s' reply. subst s' reply. split; [|split].
  - intros Hused. now rewrite (register_email_in_use Hused).
  - intros user restaurant.
    destruct (storage.getUserByEmail s email) as [u0|] eqn:Hmail.
    { rewrite register_email_in_use by (rewrite Hmail; discriminate).
      simpl. discriminate. }
    rewrite (register_new_email Hmail).
    destruct (storage.createUser (user_insert env) (new_identity env data) s)
      as [s1 [u|e]] eqn:Hu; [|simpl; discriminate].
    destruct (storage.createRestaurant (restaurant_insert env) (new_tenant u data) s1)
      as [s2 [r|e]] eqn:Hr; [|simpl; discriminate].
    simpl. destruct (login_error env); [discriminate|].
    intros [= -> ->].
    destruct (created_user_found _ _ Hmail Hu) as (Hfound & Hnone & _).
    pose proof (createUser_settled _ _ _ _ _ Hu) as (_ & _ & Hmail' & _).
    apply createRestaurant_settled in Hr as (-> & Howner & Hslug & _).
    repeat split; try assumption.
    unfold storage.getRestaurantByUserId in *. simpl.
    apply first_filter_app_new; [exact Hnone|].
    rewrite Howner. apply String.eqb_refl.
  - intros s1 user e Hmail Hu Hr.
    rewrite (register_new_email Hmail), Hu.
    destruct (storage.createRestaurant (restaurant_insert env) (new_tenant user data) s1)
      as [s2 [r|e']] eqn:Hr2; simpl in Hr; [discriminate|].
    injection Hr as ->.
    apply createRestaurant_settled in Hr2 as ->. simpl.
    destruct (created_user_found _ _ Hmail Hu) as (Hfound & Hnone & _). auto.
Qed.

End Registration.

Lemma fresh_store_foreign_key : restaurants_reference_users Sample.fresh_store.
Proof. intros r [<-|[<-|[]]]; reflexivity. Qed.

Lemma fresh_store_tenants : every_identity_has_tenant Sample.fresh_store.
Proof. intros u [<-|[<-|[]]]; discriminate. Qed.

(** Carol registers with a restaurant name whose slug Bob's tenant holds:
    the answer is 400 and Carol's identity is stored without a tenant. With
    a name of her own she is stored together with her tenant. *)
Lemma C9_witness :
  (snd (register SampleRegistration.env SampleRegistration.clashing Sample.fresh_store)
   = json_status 400 (Thrown (UniqueViolation "restaurants_slug_unique"))
   /\ storage.getUserByEmail
        (fst (register SampleRegistration.env SampleRegistration.clashing Sample.fresh_store))
        "carol@example.com" = Some SampleRegistration.carol
   /\ storage.getRestaurantByUserId
        (fst (register SampleRegistration.env SampleRegistration.clashing Sample.fresh_store))
        "u3" = None)
  /\ (u_email SampleRegistration.carol = "carol@example.com"
      /\ storage.getUserByEmail
           (fst (register SampleRegistration.env SampleRegistration.fine Sample.fresh_store))
           "carol@example.com" = Some SampleRegistration.carol
      /\ storage.getRestaurantByUserId
           (fst (register SampleRegistration.env SampleRegistration.fine Sample.fresh_store))
           "u3" = Some SampleRegistration.carols
      /\ r_userId SampleRegistration.carols = "u3"
      /\ r_slug SampleRegistration.carols = generateSlug "Carol's Cafe").
Proof.
  split.
  - destruct (C9_registration_is_two_writes SampleRegistration.env
                SampleRegistration.clashing Sample.fresh_store _ eq_refl
                fresh_store_foreign_key) as (_ & _ & Hsplit).
    apply (Hsplit (set_users Sample.fresh_store
                     (users Sample.fresh_store ++ [SampleRegistration.carol])%list)).
    + reflexivity.
    + reflexivity.
    + reflexivity.
  - destruct (C9_registration_is_two_writes SampleRegistration.env
                SampleRegistration.fine Sample.fresh_store _ eq_refl
                fresh_store_foreign_key) as (_ & Hboth & _).
    apply (Hboth SampleRegistration.carol SampleRegistration.carols). reflexivity.
Defined.

(** C9, as the spec words it, fails: after Carol's rejected attempt an
    identity for her email exists and no tenant is owned by it. *)
Lemma C9_counterexample : ~ registration_is_atomic.
Proof.
  intros Hclaim.
  destruct (Hclaim SampleRegistration.env SampleRegistration.clashing Sample.fresh_store _
              fresh_store_foreign_key fresh_store_tenants eq_refl) as [Hforward _].
  apply Hforward; [discriminate | reflexivity].
Qed.

(** ** The billing bridge *)


Lemma getUser_some s id u :
  storage.getUser s id = Some u -> In u (users s) /\ u_id u = id.
Proof.
  intros H. apply first_filter_some in H as [Hin He].
  split; [assumption | now apply String.eqb_eq].
Qed.



(** The path of an identity without a recorded subscription, when the
    provider issues the four objects and the engine takes both updates. *)
Lemma beginUpgrade_first env id user w cus prod price sid invoice :
  storage.getUser (db w) id = Some user ->
  Js.truthy_opt (u_stripeSubscriptionId user) = false ->
  Js.truthy (u_email user) = true ->
  upgrade_goes_through env cus prod price sid invoice ->
  exists w' sub,
    beginUpgrade env (Some id) w = (w', Sent (json_ok (SubscriptionJson sid (secret_of invoice))))
    /\ storage.getUser (db w') id = Some (upgraded user cus sid)
    /\ Stripe.subscriptions (stripe w') = (Stripe.subscriptions (stripe w) ++ [sub])%list
    /\ Stripe.sub_id sub = sid
    /\ length (Stripe.customers (stripe w')) = S (length (Stripe.customers (stripe w)))
    /\ length (Stripe.prices (stripe w')) = S (length (Stripe.prices (stripe w))).
Proof.
  intros Hget Hnone Hmail (Hc & Hp & Hpr & Hs & Hf1 & Hf2).
  destruct (getUser_some _ _ _ Hget) as [_ Hid].
  set (h1 := fun u => if u_id u =? id then patch_user (only_customer cus) u else u).
  assert (storage.getUser (set_users (db w) (map h1 (users (db w)))) id
          = Some (patch_user (only_customer cus) user)) as Hget1.
  { unfold storage.getUser. simpl. rewrite first_filter_map.
    - fold (storage.getUser (db w) id). rewrite Hget. simpl. unfold h1.
      now rewrite Hid, String.eqb_refl.
    - intros x. unfold h1. destruct (u_id x =? id) eqn:E; simpl; now rewrite E. }
  unfold beginUpgrade, deserializeUser, create_subscription. rewrite Hget. simpl.
  rewrite Hnone, Hmail. simpl.
  run_async. unfold on_stripe, on_db.
  unfold Stripe.customers_create, Stripe.products_create, Stripe.prices_create,
    Stripe.subscriptions_create, storage.updateUserStripeInfo, storage.updateUser.
  rewrite Hc, Hp, Hpr, Hs, Hf1. simpl. rewrite Hid. fold h1.
  unfold storage.getUser in Hget1. simpl in Hget1. rewrite Hget1. simpl.
  rewrite Hf2, Hid.
  eexists _, _. split; [reflexivity|]. simpl.
  split; [|split; [reflexivity|split; [reflexivity|split]]].
  - unfold storage.getUser. simpl. rewrite first_filter_map.
    + rewrite Hget1. simpl. now rewrite Hid, String.eqb_refl.
    + intros x. destruct (u_id x =? id) eqn:E; simpl; now rewrite E.
  - rewrite length_app. simpl. lia.
  - rewrite length_app. simpl. lia.
Qed.



(** C4, as the code has it. When [beginUpgrade] of a stored identity
    without a recorded subscription goes through, the identity as stored
    afterwards carries the customer id and the subscription id the
    provider issued, and in the same write its plan has become ['premium']
    and its subscription status ['active']; id, email and password are as
    before. *)
Theorem C4_upgrade_persists_ids_and_sets_premium
        (env : UpgradeEnv) (id : string) (user : User) (w : World)
        (cus prod price sid : string) (invoice : Stripe.InvoiceRef) :
  storage.getUser (db w) id = Some user ->
  Js.truthy_opt (u_stripeSubscriptionId user) = false ->
  Js.truthy (u_email user) = true ->
  upgrade_goes_through env cus prod price sid invoice ->
  exists w' user',
    beginUpgrade env (Some id) w
    = (w', Sent (json_ok (SubscriptionJson sid (secret_of invoice))))
    /\ storage.getUser (db w') id = Some user'
    /\ u_stripeCustomerId user' = Some cus
    /\ u_stripeSubscriptionId user' = Some sid
    /\ u_plan user' = "premium"
    /\ u_subscriptionStatus user' = Some "active"
    /\ u_id user' = u_id user
    /\ u_email user' = u_email user
    /\ u_password user' = u_password user.
Proof.
  intros Hget Hnone Hmail Hgo.
  destruct (beginUpgrade_first env id user w cus prod price sid invoice
              Hget Hnone Hmail Hgo) as (w' & sub & Hcall & Hget' & _).
  exists w', (upgraded user cus sid). repeat split; assumption.
Qed.

(** Alice, on the free plan, starts the upgrade: the subscription is
    created incomplete, and she is stored as premium. *)
Lemma C4_witness :
  exists w' user',
    beginUpgrade SampleBilling.env (Some "u1") SampleBilling.world
    = (w', Sent (json_ok (SubscriptionJson "sub_2" (Some "pi_2_secret"))))
    /\ storage.getUser (db w') "u1" = Some user'
    /\ u_stripeCustomerId user' = Some "cus_2"
    /\ u_stripeSubscriptionId user' = Some "sub_2"
    /\ u_plan user' = "premium"
    /\ u_subscriptionStatus user' = Some "active"
    /\ u_id user' = "u1"
    /\ u_email user' = "alice@example.com"
    /\ u_password user' = "$2b$10$a".
Proof.
  apply (C4_upgrade_persists_ids_and_sets_premium SampleBilling.env "u1" Sample.alice
           SampleBilling.world "cus_2" "prod_2" "price_2" "sub_2"
           (Stripe.InvoiceObject "in_2" (Stripe.IntentObject "pi_2" (Some "pi_2_secret")))).
  - reflexivity.
  - reflexivity.
  - reflexivity.
  - repeat split.
Defined.

(** C4, as the spec words it, fails: Alice's plan was ['free'] before the
    call and is ['premium'] after it. *)
Lemma C4_counterexample : ~ upgrade_keeps_plan.
Proof.
  intros Hclaim.
  destruct (Hclaim SampleBilling.env "u1" Sample.alice SampleBilling.world
              (fst (beginUpgrade SampleBilling.env (Some "u1") SampleBilling.world))
              "sub_2" (Some "pi_2_secret") eq_refl eq_refl eq_refl)
    as (user' & Hget & _ & Hplan).
  vm_compute in Hget. injection Hget as <-. discriminate.
Qed.


(** * Further properties of the routes and of the storage layer *)

(** ** The shape of a slug *)

Lemma is_hyphen_char c : Js.is_hyphen c = true -> c = "-"%char.
Proof.
  unfold Js.is_hyphen, Js.code. intros H. apply Nat.eqb_eq in H.
  rewrite <- (ascii_nat_embedding c), H. reflexivity.
Qed.

Lemma all_chars_weaken (P Q : ascii -> bool) s :
  (forall c, P c = true -> Q c = true) -> all_chars P s = true -> all_chars Q s = true.
Proof.
  intros HPQ. induction s as [|c s IH]; simpl; [reflexivity|].
  intros H. apply andb_true_iff in H as [Hc Hs]. rewrite (HPQ c Hc). auto.
Qed.

Lemma remove_outside_all keep s : all_chars keep (Js.remove_outside keep s) = true.
Proof.
  induction s as [|c s IH]; simpl; [reflexivity|].
  destruct (keep c) eqn:K; simpl; [rewrite K|]; auto.
Qed.

(** After the white-space runs became hyphens, the characters of the class
    that are left are slug characters. *)
Lemma replace_spaces_slug_chars s b :
  all_chars slug_class s = true ->
  all_chars slug_char (Js.replace_runs Js.is_space b s) = true.
Proof.
  revert b. induction s as [|c s IH]; intros b; simpl; [reflexivity|].
  intros H. apply andb_true_iff in H as [Hc Hs].
  destruct (Js.is_space c) eqn:Sp.
  - destruct b; simpl; auto.
  - simpl. rewrite (IH false Hs), andb_true_r.
    unfold slug_class in Hc. rewrite Sp, orb_false_r in Hc. exact Hc.
Qed.

Lemma replace_hyphens_slug_chars s b :
  all_chars slug_char s = true ->
  all_chars slug_char (Js.replace_runs Js.is_hyphen b s) = true.
Proof.
  revert b. induction s as [|c s IH]; intros b; simpl; [reflexivity|].
  intros H. apply andb_true_iff in H as [Hc Hs].
  destruct (Js.is_hyphen c).
  - destruct b; simpl; auto.
  - simpl. rewrite Hc. simpl. auto.
Qed.

(** Collapsing leaves no two hyphens side by side, and inside a run it
    writes no hyphen first. *)
Lemma replace_hyphens_collapsed s b :
  no_adjacent_hyphens (Js.replace_runs Js.is_hyphen b s) = true
  /\ (b = true -> no_leading_hyphen (Js.replace_runs Js.is_hyphen b s) = true).
Proof.
  revert b. induction s as [|c s IH]; intros b; simpl; [auto|].
  destruct (Js.is_hyphen c) eqn:Hy.
  - destruct (IH true) as [Hadj Hlead]. destruct b; simpl.
    + auto.
    + rewrite (Hlead eq_refl), Hadj. auto.
  - destruct (IH false) as [Hadj _]. simpl. rewrite Hy, Hadj. auto.
Qed.

Lemma generateSlug_shape (name : string) :
  all_chars slug_char (generateSlug name) = true
  /\ no_adjacent_hyphens (generateSlug name) = true
  /\ no_space (generateSlug name) = true.
Proof.
  rewrite generateSlug_trim_is_identity. split; [|split].
  - apply replace_hyphens_slug_chars, replace_spaces_slug_chars, remove_outside_all.
  - apply replace_hyphens_collapsed.
  - apply replace_hyphens_no_space, replace_spaces_no_space.
Qed.

(** X1. A slug is made of [a-z], [0-9] and hyphens only, with no two
    hyphens side by side and no white space, whatever the name is. *)
Theorem X1_generateSlug_alphabet (name : string) :
  all_chars slug_char (generateSlug name) = true
  /\ no_adjacent_hyphens (generateSlug name) = true
  /\ no_space (generateSlug name) = true.
Proof.
  rewrite generateSlug_trim_is_identity. split; [|split].
  - apply replace_hyphens_slug_chars, replace_spaces_slug_chars, remove_outside_all.
  - apply replace_hyphens_collapsed.
  - apply replace_hyphens_no_space, replace_spaces_no_space.
Qed.

Lemma slug_char_code c :
  slug_char c = true ->
  (97 <= Js.code c <= 122) \/ (48 <= Js.code c <= 57) \/ Js.code c = 45.
Proof.
  unfold slug_char, Js.is_lower_az, Js.is_digit, Js.is_hyphen, Js.between. intros H.
  apply orb_true_iff in H as [H|H]; [apply orb_true_iff in H as [H|H]|].
  - apply andb_true_iff in H as [H1 H2]. apply Nat.leb_le in H1, H2. lia.
  - apply andb_true_iff in H as [H1 H2]. apply Nat.leb_le in H1, H2. lia.
  - apply Nat.eqb_eq in H. lia.
Qed.

Lemma between_false lo hi c :
  Js.code c < lo \/ hi < Js.code c -> Js.between lo hi c = false.
Proof.
  unfold Js.between. intros [H|H].
  - apply Nat.leb_gt in H. now rewrite H.
  - apply Nat.leb_gt in H. rewrite H. apply andb_false_r.
Qed.

Lemma toLowerCase_slug_char c : slug_char c = true -> Js.toLowerCase_char c = c.
Proof.
  intros H. apply slug_char_code in H. unfold Js.toLowerCase_char.
  rewrite (between_false 65 90), (between_false 192 222) by lia. reflexivity.
Qed.

Lemma toLowerCase_slug_chars s :
  all_chars slug_char s = true -> Js.toLowerCase s = s.
Proof.
  induction s as [|c s IH]; simpl; [reflexivity|].
  intros H. apply andb_true_iff in H as [Hc Hs].
  now rewrite (IH Hs), (toLowerCase_slug_char c Hc).
Qed.

Lemma slug_char_in_class c : slug_char c = true -> slug_class c = true.
Proof.
  unfold slug_char, slug_class. intros H.
  apply orb_true_iff in H as [H|H]; [apply orb_true_iff in H as [H|H]|]; rewrite H.
  - reflexivity.
  - now rewrite orb_true_r.
  - now rewrite orb_true_r.
Qed.

Lemma remove_outside_id keep s :
  all_chars keep s = true -> Js.remove_outside keep s = s.
Proof.
  induction s as [|c s IH]; simpl; [reflexivity|].
  intros H. apply andb_true_iff in H as [Hc Hs]. now rewrite Hc, IH.
Qed.

Lemma replace_spaces_id s b :
  no_space s = true -> Js.replace_runs Js.is_space b s = s.
Proof.
  revert b. induction s as [|c s IH]; intros b; simpl; [reflexivity|].
  intros H. apply andb_true_iff in H as [Hc Hs]. apply negb_true_iff in Hc.
  now rewrite Hc, IH.
Qed.

Lemma replace_hyphens_id s b :
  no_adjacent_hyphens s = true ->
  (b = true -> no_leading_hyphen s = true) ->
  Js.replace_runs Js.is_hyphen b s = s.
Proof.
  revert b. induction s as [|c s IH]; intros b; simpl; [reflexivity|].
  intros Hadj Hlead. apply andb_true_iff in Hadj as [Hc Hs].
  destruct (Js.is_hyphen c) eqn:Hy.
  - destruct b.
    + specialize (Hlead eq_refl). discriminate.
    + simpl in Hc. rewrite (IH true Hs (fun _ => Hc)).
      now rewrite (is_hyphen_char c Hy).
  - rewrite (IH false Hs); [reflexivity | discriminate].
Qed.

(** X2. Deriving the slug of a slug gives the slug back. *)
Theorem X2_generateSlug_idempotent (name : string) :
  generateSlug (generateSlug name) = generateSlug name.
Proof.
  destruct (generateSlug_shape name) as (Hchars & Hadj & Hsp).
  rewrite (generateSlug_trim_is_identity (generateSlug name)).
  rewrite (toLowerCase_slug_chars _ Hchars).
  rewrite remove_outside_id
    by (apply (all_chars_weaken slug_char); [apply slug_char_in_class | exact Hchars]).
  rewrite (replace_spaces_id _ false Hsp).
  apply replace_hyphens_id; [exact Hadj | discriminate].
Qed.

Lemma replace_runs_empty p s : Js.replace_runs p false s = "" -> s = "".
Proof.
  destruct s as [|c s]; simpl; [reflexivity|]. destruct (p c); discriminate.
Qed.

Lemma remove_outside_empty s :
  Js.remove_outside slug_class (Js.toLowerCase s) = "" <-> all_chars stripped s = true.
Proof.
  induction s as [|c s IH]; simpl; [tauto|]. unfold stripped at 1.
  destruct (slug_class (Js.toLowerCase_char c)); simpl.
  - split; discriminate.
  - exact IH.
Qed.

(** X3. The slug is empty exactly when every character of the name is
    stripped: a name of punctuation or of letters outside [a-z] only (which
    the register route accepts, as it is not empty) has the empty slug. *)
Theorem X3_generateSlug_empty (name : string) :
  generateSlug name = "" <-> all_chars stripped name = true.
Proof.
  rewrite generateSlug_trim_is_identity, <- remove_outside_empty. split.
  - intros H. now apply replace_runs_empty, replace_runs_empty in H.
  - intros ->. reflexivity.
Qed.

(** ** Frames: the tables an operation leaves alone *)

Section KeepsCombinators.

Context {S T : Type} (f : S -> T).

Lemma keeps_ret {A} (a : A) : keeps f (ret (S := S) a).
Proof. intros s. reflexivity. Qed.

Lemma keeps_throw {A} (e : Exn) : keeps f (throw (S := S) (A := A) e).
Proof. intros s. reflexivity. Qed.

Lemma keeps_read {A} (q : S -> A) : keeps f (read q).
Proof. intros s. reflexivity. Qed.

Lemma keeps_settle {A} (x : Settled A) : keeps f (settle (S := S) x).
Proof. intros s. reflexivity. Qed.

Lemma keeps_bind {A B} (m : Async S A) (k : A -> Async S B) :
  keeps f m -> (forall a, keeps f (k a)) -> keeps f (bind m k).
Proof.
  intros Hm Hk s. unfold bind. specialize (Hm s).
  destruct (m s) as [s' [a|e]]; simpl in *.
  - now rewrite (Hk a s').
  - exact Hm.
Qed.

Lemma keeps_try_catch (body : Async S Response) (handler : Exn -> Response) :
  keeps f body -> keeps f (try_catch body handler).
Proof.
  intros Hm s. unfold try_catch. specialize (Hm s).
  now destruct (body s) as [s' [a|e]].
Qed.

Lemma keeps_attempt {R} (body : Async S R) (handler : Exn -> R) :
  keeps f body -> keeps f (attempt body handler).
Proof.
  intros Hm s. unfold attempt. specialize (Hm s).
  now destruct (body s) as [s' [a|e]].
Qed.

Lemma keeps_const {A} (a : A) : keeps f (fun s : S => (s, a)).
Proof. intros s. reflexivity. Qed.

End KeepsCombinators.

(** A write of the storage layer, run down to the tables it rebuilds. *)
Ltac storage_frame :=
  unfold keeps; intros;
  unfold storage.updateUserStripeInfo;
  unfold storage.createUser, storage.updateUser, storage.createRestaurant,
    storage.updateRestaurant, storage.createCategory, storage.deleteCategory,
    storage.createProduct, storage.updateProduct, storage.deleteProduct,
    storage.recordMenuView;
  repeat match goal with
         | |- context [match ?x with _ => _ end] => destruct x
         end;
  reflexivity.

(** A route, taken apart along its binds and branches. *)
Ltac frame :=
  repeat first
    [ apply keeps_try_catch
    | apply keeps_attempt
    | apply keeps_ret
    | apply keeps_throw
    | apply keeps_read
    | apply keeps_settle
    | apply keeps_const
    | apply keeps_bind
    | progress intros
    | match goal with
      | |- keeps _ (match ?x with _ => _ end) => destruct x
      | |- keeps _ (let c := _ in _) => cbv zeta
      end
    | solve [storage_frame] ].

Lemma get_menu_keeps_catalog g slug userAgent ip :
  keeps users (get_menu g slug userAgent ip)
  /\ keeps restaurants (get_menu g slug userAgent ip)
  /\ keeps categories (get_menu g slug userAgent ip)
  /\ keeps products (get_menu g slug userAgent ip).
Proof. unfold get_menu. repeat split; frame. Qed.

Lemma keeps_on_db {A T} (f : Store -> T) (m : Async Store A) :
  keeps f m -> keeps (fun w => f (db w)) (on_db m).
Proof.
  intros Hm w. unfold on_db. specialize (Hm (db w)).
  now destruct (m (db w)) as [s' x].
Qed.

Lemma keeps_on_stripe {A T} (f : Store -> T) (m : Async Stripe.Account A) :
  keeps (fun w => f (db w)) (on_stripe m).
Proof.
  intros w. unfold on_stripe. now destruct (m (stripe w)) as [a' x].
Qed.

Lemma create_subscription_keeps {T} (f : Store -> T) configured env req_user :
  (forall g id data, keeps f (storage.updateUser g id data)) ->
  keeps (fun w => f (db w)) (create_subscription configured env req_user).
Proof.
  intros Hupdate w. unfold create_subscription.
  destruct req_user as [user|]; [|reflexivity].
  destruct (negb configured); [reflexivity|].
  destruct (Js.truthy_opt (u_stripeSubscriptionId user)).
  - pose proof (keeps_on_stripe f (Stripe.subscriptions_retrieve
                                     (dflt "" (u_stripeSubscriptionId user))) w) as Hk.
    destruct (on_stripe _ w) as [w' [sub|e]]; exact Hk.
  - destruct (negb (Js.truthy (u_email user))); [reflexivity|].
    match goal with
    | |- context [try_catch ?body ?handler w] =>
        assert (keeps (fun w => f (db w)) (try_catch body handler)) as Hk
    end.
    { apply keeps_try_catch.
      repeat first
        [ apply keeps_bind
        | apply keeps_on_stripe
        | apply keeps_on_db
        | apply keeps_ret
        | apply keeps_throw
        | apply Hupdate
        | progress intros
        | match goal with
          | |- keeps _ (match ?x with _ => _ end) => destruct x
          end ]. }
    specialize (Hk w). destruct (try_catch _ _ w) as [w' r]. exact Hk.
Qed.

(** X4. The routes that only read leave the store as it is, whoever calls
    them; the public menu route leaves users, restaurants, categories and
    products as they are and adds at most one record at the end of the
    view log. *)
Theorem X4_reading_routes_change_nothing (req_user : option User) (s : Store) :
  fst (get_restaurant req_user s) = s
  /\ fst (get_products req_user s) = s
  /\ fst (get_categories req_user s) = s
  /\ (forall g slug userAgent ip,
         let s' := fst (get_menu g slug userAgent ip s) in
         users s' = users s
         /\ restaurants s' = restaurants s
         /\ categories s' = categories s
         /\ products s' = products s
         /\ exists added,
             menuViews s' = (menuViews s ++ added)%list /\ length added <= 1).
Proof.
  split; [|split; [|split]].
  - generalize s. change (keeps (fun x : Store => x) (get_restaurant req_user)).
    unfold get_restaurant. frame.
  - generalize s. change (keeps (fun x : Store => x) (get_products req_user)).
    unfold get_products. frame.
  - generalize s. change (keeps (fun x : Store => x) (get_categories req_user)).
    unfold get_categories. frame.
  - intros g slug userAgent ip s'. subst s'.
    destruct (get_menu_keeps_catalog g slug userAgent ip) as (Hu & Hr & Hc & Hp).
    rewrite (Hu s), (Hr s), (Hc s), (Hp s). repeat split.
    destruct (storage.getRestaurantBySlug s slug) as [restaurant|] eqn:Hslug.
    + destruct (get_menu_cases g slug userAgent ip s restaurant Hslug)
        as [(v & -> & _)|(e & -> & _)]; simpl.
      * exists [v]. auto.
      * exists []. rewrite app_nil_r. auto.
    + exists []. unfold get_menu. run_async. rewrite Hslug. simpl.
      rewrite app_nil_r. auto.
Qed.

(** Proves [f (fst (route s)) = f s] for a route written in the promise
    monad. *)
Ltac route_keeps :=
  match goal with
  | |- ?f (fst (?route ?s)) = ?f ?s =>
      generalize s; change (keeps f route);
      unfold post_products, put_product, delete_product, post_categories,
        put_restaurant, register;
      frame
  end.

(** X5. The tables each writing route leaves alone, whatever the caller, the
    body and the engine are. The product routes change neither users,
    restaurants, categories nor the view log; the category route changes
    neither users, restaurants, products nor the view log; the restaurant
    route changes nothing but restaurants; registration changes neither
    categories, products nor the view log; and the subscription route
    changes no table but users. So no route but the public menu writes the
    view log, and no catalog route can change an identity or its plan. *)
Theorem X5_write_footprints
        (g : Engine) (req_user : option User) (id : string) (body : Body)
        (file : option string) (s : Store) :
  (users (fst (post_products g req_user body file s)) = users s
   /\ restaurants (fst (post_products g req_user body file s)) = restaurants s
   /\ categories (fst (post_products g req_user body file s)) = categories s
   /\ menuViews (fst (post_products g req_user body file s)) = menuViews s)
  /\ (users (fst (put_product g req_user id body file s)) = users s
      /\ restaurants (fst (put_product g req_user id body file s)) = restaurants s
      /\ categories (fst (put_product g req_user id body file s)) = categories s
      /\ menuViews (fst (put_product g req_user id body file s)) = menuViews s)
  /\ (users (fst (delete_product g req_user id s)) = users s
      /\ restaurants (fst (delete_product g req_user id s)) = restaurants s
      /\ categories (fst (delete_product g req_user id s)) = categories s
      /\ menuViews (fst (delete_product g req_user id s)) = menuViews s)
  /\ (users (fst (post_categories g req_user body s)) = users s
      /\ restaurants (fst (post_categories g req_user body s)) = restaurants s
      /\ products (fst (post_categories g req_user body s)) = products s
      /\ menuViews (fst (post_categories g req_user body s)) = menuViews s)
  /\ (users (fst (put_restaurant g req_user body s)) = users s
      /\ categories (fst (put_restaurant g req_user body s)) = categories s
      /\ products (fst (put_restaurant g req_user body s)) = products s
      /\ menuViews (fst (put_restaurant g req_user body s)) = menuViews s)
  /\ (forall env,
         categories (fst (register env body s)) = categories s
         /\ products (fst (register env body s)) = products s
         /\ menuViews (fst (register env body s)) = menuViews s)
  /\ (forall configured env w,
         let w' := fst (create_subscription configured env req_user w) in
         restaurants (db w') = restaurants (db w)
         /\ categories (db w') = categories (db w)
         /\ products (db w') = products (db w)
         /\ menuViews (db w') = menuViews (db w)).
Proof.
  repeat split; try route_keeps.
  - apply (create_subscription_keeps restaurants). intros; storage_frame.
  - apply (create_subscription_keeps categories). intros; storage_frame.
  - apply (create_subscription_keeps products). intros; storage_frame.
  - apply (create_subscription_keeps menuViews). intros; storage_frame.
Qed.

(** ** Listings: content and order *)

Section InsertionSort.

Context {A : Type} (le : A -> A -> bool).
Hypothesis le_total : forall a b, le a b = false -> le b a = true.
Hypothesis le_trans : forall a b c, le a b = true -> le b c = true -> le a c = true.




End InsertionSort.














(** ** A request that is not answered 200 has written nothing *)

Section Tidy.

Context {R : Type} (ok : R -> bool).

Lemma tidy_ret (r : R) : tidy ok (ret r).
Proof. intros s. simpl. now right. Qed.

Lemma tidy_bind_pure {A} (m : Async Store A) (k : A -> Async Store R) :
  keeps (fun s => s) m -> (forall a, tidy ok (k a)) -> tidy ok (bind m k).
Proof.
  intros Hm Hk s. unfold bind. specialize (Hm s).
  destruct (m s) as [s1 [a|e]]; simpl in Hm; subst s1; [apply Hk | reflexivity].
Qed.

Lemma tidy_write_last {A} (w : Async Store A) (h : A -> R) :
  (forall s s' e, w s = (s', Rejected e) -> s' = s) ->
  (forall a, ok (h a) = true) ->
  tidy ok (bind w (fun a => ret (h a))).
Proof.
  intros Hw Hh s. unfold bind, ret. destruct (w s) as [s1 [a|e]] eqn:E.
  - left. apply Hh.
  - now apply (Hw s s1 e).
Qed.

Lemma tidy_caught (body : Async Store R) (handler : Exn -> R) s :
  tidy ok body ->
  ok (snd (attempt body handler s)) = false ->
  fst (attempt body handler s) = s.
Proof.
  intros Hb. unfold attempt. specialize (Hb s).
  destruct (body s) as [s1 [r|e]]; simpl; [|auto].
  intros Hr. destruct Hb as [Hok|Hsame]; [congruence | exact Hsame].
Qed.

End Tidy.

(** A rejected write of the storage layer has written nothing. *)
Ltac storage_clean :=
  intros;
  match goal with
  | H : _ = (_, Rejected _) |- _ =>
      unfold storage.createProduct, storage.updateProduct, storage.deleteProduct,
        storage.createCategory, storage.updateRestaurant, storage.recordMenuView in H;
      repeat match type of H with
             | context [match ?x with _ => _ end] => destruct x
             end;
      now inversion H
  end.

Ltac tidy_route :=
  repeat first
    [ apply tidy_ret
    | apply tidy_write_last; [storage_clean | intros; reflexivity]
    | apply tidy_bind_pure; [first [apply keeps_read | apply keeps_settle]|]
    | progress intros
    | match goal with
      | |- tidy _ (match ?x with _ => _ end) => destruct x
      | |- tidy _ (let c := _ in _) => cbv zeta
      end ].

Lemma try_catch_is_attempt {S} (body : Async S Response) handler :
  try_catch body handler = attempt body handler.
Proof. reflexivity. Qed.

(** X8. Each of these routes writes at most once, as its last step: when
    the answer is not a 200 (a denial, a failed validation, a constraint
    violation, an engine fault) the store is exactly as it was before the
    request. (Registration is different: it writes twice.) *)
Theorem X8_failed_requests_write_nothing
        (g : Engine) (req_user : option User) (id : string) (body : Body)
        (file : option string) (s : Store) :
  (status (snd (post_products g req_user body file s)) <> 200 ->
   fst (post_products g req_user body file s) = s)
  /\ (status (snd (put_product g req_user id body file s)) <> 200 ->
      fst (put_product g req_user id body file s) = s)
  /\ (status (snd (delete_product g req_user id s)) <> 200 ->
      fst (delete_product g req_user id s) = s)
  /\ (forall r, snd (post_categories g req_user body s) = Plain r ->
                status r <> 200 ->
                fst (post_categories g req_user body s) = s)
  /\ (forall r, snd (put_restaurant g req_user body s) = Plain r ->
                status r <> 200 ->
                fst (put_restaurant g req_user body s) = s)
  /\ (forall slug userAgent ip,
         status (snd (get_menu g slug userAgent ip s)) <> 200 ->
         fst (get_menu g slug userAgent ip s) = s).
Proof.
  assert (forall r, status r <> 200 -> ok_response r = false) as Hno.
  { intros r Hr. now apply Nat.eqb_neq. }
  split; [|split; [|split; [|split; [|split]]]].
  - intros Hr. apply Hno in Hr. revert Hr. unfold post_products.
    destruct req_user as [user|]; [|reflexivity].
    rewrite try_catch_is_attempt. apply tidy_caught. tidy_route.
  - intros Hr. apply Hno in Hr. revert Hr. unfold put_product.
    destruct req_user as [user|]; [|reflexivity].
    rewrite try_catch_is_attempt. apply tidy_caught. tidy_route.
  - intros Hr. apply Hno in Hr. revert Hr. unfold delete_product.
    destruct req_user as [user|]; [|reflexivity].
    rewrite try_catch_is_attempt. apply tidy_caught. tidy_route.
  - intros r Hplain Hr. apply Hno in Hr.
    assert (ok_answer (snd (post_categories g req_user body s)) = false) as Hbad
        by now rewrite Hplain.
    revert Hbad. clear Hplain. unfold post_categories.
    destruct req_user as [user|]; [|reflexivity].
    apply tidy_caught. tidy_route.
  - intros r Hplain Hr. apply Hno in Hr.
    assert (ok_answer (snd (put_restaurant g req_user body s)) = false) as Hbad
        by now rewrite Hplain.
    revert Hbad. clear Hplain. unfold put_restaurant.
    destruct req_user as [user|]; [|reflexivity].
    apply tidy_caught. tidy_route.
  - intros slug userAgent ip Hr. apply Hno in Hr. revert Hr. unfold get_menu.
    rewrite try_catch_is_attempt. apply tidy_caught. tidy_route.
Qed.

(** Alice at her limit, and Bob on a product that does not exist: neither
    request leaves a trace. *)
Lemma X8_witness :
  fst (post_products (Sample.engine "p7" 500) (Some Sample.alice) Sample.tea None
         Sample.store) = Sample.store
  /\ fst (put_product (Sample.engine "" 500) (Some Sample.bob) "nope" Sample.tea None
            Sample.store) = Sample.store.
Proof.
  split.
  - apply (proj1 (X8_failed_requests_write_nothing (Sample.engine "p7" 500)
                    (Some Sample.alice) "" Sample.tea None Sample.store)).
    vm_compute. discriminate.
  - apply (proj1 (proj2 (X8_failed_requests_write_nothing (Sample.engine "" 500)
                           (Some Sample.bob) "nope" Sample.tea None Sample.store))).
    vm_compute. discriminate.
Defined.

(** ** Product creation behind the gate *)

Lemma post_products_behind_gate g user body file s restaurant :
  storage.getRestaurantByUserId s (u_id user) = Some restaurant ->
  gate_open user restaurant s ->
  post_products g (Some user) body file s = create_step g (r_id restaurant) body file s.
Proof.
  intros Htenant [Hplan|Hroom].
  - exact (post_products_not_free g user body file s restaurant Htenant Hplan).
  - destruct (String.eqb_spec (u_plan user) "free") as [Hfree|Hplan].
    + exact (post_products_free_room g user body file s restaurant Htenant Hfree Hroom).
    + exact (post_products_not_free g user body file s restaurant Htenant Hplan).
Qed.

Lemma post_products_gate_cases g user body file s restaurant :
  storage.getRestaurantByUserId s (u_id user) = Some restaurant ->
  gate_open user restaurant s
  \/ post_products g (Some user) body file s = (s, PlanLimitExceeded).
Proof.
  intros Htenant.
  destruct (String.eqb_spec (u_plan user) "free") as [Hfree|Hplan].
  - destruct (Nat.lt_ge_cases (storage.getProductCount s (r_id restaurant)) 5)
      as [Hroom|Hfull].
    + left. now right.
    + right. now apply post_products_free_full with (restaurant := restaurant).
  - left. now left.
Qed.

Lemma post_products_no_tenant g user body file s :
  storage.getRestaurantByUserId s (u_id user) = None ->
  post_products g (Some user) body file s = (s, RestaurantNotFound).
Proof.
  intros Hnone. unfold post_products. run_async. now rewrite Hnone.
Qed.

Lemma image_key_parses body :
  image_key_valid body ->
  exists i, z_optional (z_nullable z_string) (field "imageUrl" body) = Valid i.
Proof.
  unfold image_key_valid.
  destruct (field "imageUrl" body) as [[| | | |]|]; simpl; try contradiction; eauto.
Qed.

Lemma create_step_reads_six_keys g rid body body' file s :
  (forall k, In k creation_keys -> field k body = field k body') ->
  image_key_valid body -> image_key_valid body' ->
  create_step g rid body file s = create_step g rid body' file s.
Proof.
  intros Hkeys Hi Hi'.
  destruct (image_key_parses body Hi) as [i Hv], (image_key_parses body' Hi') as [i' Hv'].
  unfold create_step, insertProductSchema_parse. run_async.
  rewrite Hv, Hv'.
  rewrite <- !Hkeys by (unfold creation_keys; simpl; tauto).
  destruct (z_string (field "name" body)),
    (z_optional (z_nullable z_string) (field "description" body)),
    (z_string (field "price" body)),
    (z_optional (z_nullable z_string) (field "categoryId" body)),
    (z_optional z_boolean (field "isActive" body)),
    (z_optional z_int (field "order" body)); reflexivity.
Qed.

(** X9. What a body can decide at creation. The creation route reads the
    keys [name], [description], [price], [categoryId], [isActive] and
    [order] and nothing else: two bodies that agree on these (and whose
    [imageUrl], if any, is well-typed) get the same answer and leave the
    same store. So a client cannot choose the id, the tenant or the
    timestamps of the product, and an [imageUrl] sent in the body is
    dropped: the image reference comes from the uploaded file only. *)
Theorem X9_creation_reads_six_keys
        (g : Engine) (req_user : option User) (body body' : Body)
        (file : option string) (s : Store) :
  (forall k, In k creation_keys -> field k body = field k body') ->
  image_key_valid body ->
  image_key_valid body' ->
  post_products g req_user body file s = post_products g req_user body' file s.
Proof.
  intros Hkeys Hi Hi'. destruct req_user as [user|]; [|reflexivity].
  destruct (storage.getRestaurantByUserId s (u_id user)) as [restaurant|] eqn:Htenant.
  - destruct (post_products_gate_cases g user body file s restaurant Htenant)
      as [Hopen|Hfull].
    + rewrite !(post_products_behind_gate _ _ _ _ _ _ Htenant Hopen).
      now apply create_step_reads_six_keys.
    + rewrite Hfull. symmetry.
      destruct (post_products_gate_cases g user body' file s restaurant Htenant)
        as [Hopen|Hfull']; [|exact Hfull'].
      rewrite (post_products_behind_gate _ _ _ _ _ _ Htenant Hopen) in Hfull.
      exfalso. revert Hfull. unfold create_step. run_async.
      destruct (insertProductSchema_parse body) as [data|e]; simpl.
      * destruct (storage.createProduct _ _ _ s) as [s1 [p|e]]; discriminate.
      * discriminate.
  - now rewrite !post_products_no_tenant.
Qed.

(** A body that also names a tenant, an id and an image of its own creates
    the same product as the plain body. *)
Lemma X9_witness :
  post_products (Sample.engine "p1" 500) (Some Sample.alice)
    [("name", JStr "Tea"); ("price", JStr "4.50"); ("restaurantId", JStr "r2");
     ("id", JStr "q9"); ("imageUrl", JStr "http://elsewhere/x.png")]
    None Sample.fresh_store
  = post_products (Sample.engine "p1" 500) (Some Sample.alice) Sample.tea None
      Sample.fresh_store.
Proof.
  apply (X9_creation_reads_six_keys (Sample.engine "p1" 500) (Some Sample.alice)).
  - intros k Hk. unfold creation_keys in Hk. simpl in Hk.
    destruct Hk as [<-|[<-|[<-|[<-|[<-|[<-|[]]]]]]]; reflexivity.
  - exact I.
  - exact I.
Defined.

Lemma has_key_absent {A} (key : A -> string) (k : string) (l : list A) :
  has_key key k l = false -> first (filter (fun a => key a =? k) l) = None.
Proof.
  unfold has_key. intros H. apply first_filter_absent. intros x Hx.
  destruct (key x =? k) eqn:E; [|reflexivity].
  assert (existsb (fun a => key a =? k) l = true) as T
      by (apply existsb_exists; eauto).
  congruence.
Qed.


Lemma create_step_resolved g rid body file s data :
  insertProductSchema_parse body = Resolved data ->
  has_key r_id rid (restaurants s) = true ->
  engine_accepts_product g (dflt None (none_as_null (ip_categoryId data))) s ->
  create_step g rid body file s
  = (set_products s (products s ++ [created_product g rid data file]),
     json_ok (ProductJson (Some (created_product g rid data file)))).
Proof.
  intros Hparse Hr (Hfault & Hfresh & Hcat).
  unfold create_step. run_async. rewrite Hparse.
  unfold storage.createProduct. rewrite Hfault, Hfresh, Hr. simpl.
  destruct (dflt None (none_as_null (ip_categoryId data))) as [c|] eqn:Hc.
  - rewrite Hcat. simpl. unfold created_product. now rewrite Hc.
  - unfold created_product. now rewrite Hc.
Qed.



(** X11. The category of a new product is checked for existence only. With
    the gate open, a valid body that names a category [k] and an engine
    that takes the insert: if some category of the store has the id [k],
    of whichever tenant, the product is created with that reference; if
    none has, the foreign key rejects the insert, the answer is 400 and
    nothing is written. *)
Theorem X11_category_reference_checked_for_existence_only
        (g : Engine) (user : User) (body : Body) (file : option string)
        (s : Store) (restaurant : Restaurant) (data : InsertProduct) (k : string) :
  storage.getRestaurantByUserId s (u_id user) = Some restaurant ->
  gate_open user restaurant s ->
  insertProductSchema_parse body = Resolved data ->
  ip_categoryId data = Some (Some k) ->
  k <> "none" ->
  fault g = None ->
  has_key p_id (uuid g) (products s) = false ->
  ((exists c, In c (categories s) /\ c_id c = k) ->
   exists p,
     post_products g (Some user) body file s
     = (set_products s (products s ++ [p]), json_ok (ProductJson (Some p)))
     /\ p_categoryId p = Some k
     /\ p_restaurantId p = r_id restaurant)
  /\ ((forall c, In c (categories s) -> c_id c <> k) ->
      post_products g (Some user) body file s
      = (s, json_status 400
              (Thrown (ForeignKeyViolation "products_category_id_categories_id_fk")))).
Proof.
  intros Htenant Hopen Hparse Hk Hnone Hfault Hfresh.
  destruct (getRestaurantByUserId_some _ _ _ Htenant) as [Hin _].
  pose proof (has_key_in r_id _ _ Hin) as Hr.
  assert (none_as_null (ip_categoryId data) = Some (Some k)) as Hcat.
  { rewrite Hk. simpl. apply String.eqb_neq in Hnone. now rewrite Hnone. }
  rewrite (post_products_behind_gate _ _ _ _ _ _ Htenant Hopen). split.
  - intros (c & Hc & Hid).
    exists (created_product g (r_id restaurant) data file).
    rewrite (create_step_resolved _ _ _ _ _ _ Hparse Hr).
    + unfold created_product. simpl. rewrite Hcat. auto.
    + rewrite Hcat. simpl. repeat split; try assumption.
      rewrite <- Hid. now apply has_key_in.
  - intros Habsent.
    assert (has_key c_id k (categories s) = false) as Hmiss.
    { unfold has_key. destruct (existsb _ _) eqn:E; [|reflexivity].
      apply existsb_exists in E as (c & Hc & Hid). apply String.eqb_eq in Hid.
      now destruct (Habsent c Hc). }
    unfold create_step. run_async. rewrite Hparse.
    unfold storage.createProduct. rewrite Hfault, Hfresh, Hr. simpl.
    rewrite Hcat. simpl. now rewrite Hmiss.
Qed.

(** Bob files a product under Alice's category of starters, and it is
    taken. *)
Lemma X11_witness :
  exists p,
    post_products (Sample.engine "q2" 500) (Some Sample.bob)
      [("name", JStr "Ribs"); ("price", JStr "30.00"); ("categoryId", JStr "c1")]
      None Sample.store
    = (set_products Sample.store (products Sample.store ++ [p]),
       json_ok (ProductJson (Some p)))
    /\ p_categoryId p = Some "c1"
    /\ p_restaurantId p = "r2".
Proof.
  destruct (X11_category_reference_checked_for_existence_only
              (Sample.engine "q2" 500) Sample.bob
              [("name", JStr "Ribs"); ("price", JStr "30.00"); ("categoryId", JStr "c1")]
              None Sample.store Sample.bobs
              {| ip_name := "Ribs"; ip_description := None; ip_price := "30.00";
                 ip_categoryId := Some (Some "c1"); ip_imageUrl := None;
                 ip_isActive := None; ip_order := None |} "c1") as [Htaken _].
  - reflexivity.
  - left. discriminate.
  - reflexivity.
  - reflexivity.
  - discriminate.
  - reflexivity.
  - reflexivity.
  - apply Htaken. exists Sample.starters. split; [simpl; auto | reflexivity].
Defined.

(** ** Product update and delete by the owner *)




(** ** What the product routes do to the products table *)

Lemma post_products_table g user body file s restaurant :
  storage.getRestaurantByUserId s (u_id user) = Some restaurant ->
  fst (post_products g (Some user) body file s) = s
  \/ exists p,
      fst (post_products g (Some user) body file s)
      = set_products s (products s ++ [p])
      /\ p_restaurantId p = r_id restaurant
      /\ p_id p = uuid g
      /\ has_key p_id (uuid g) (products s) = false.
Proof.
  intros Htenant.
  destruct (post_products_gate_cases g user body file s restaurant Htenant)
    as [Hopen|Hfull]; [|left; now rewrite Hfull].
  rewrite (post_products_behind_gate _ _ _ _ _ _ Htenant Hopen).
  unfold create_step. run_async.
  destruct (insertProductSchema_parse body) as [data|e]; [|now left].
  unfold storage.createProduct.
  destruct (fault g); [now left|].
  destruct (has_key p_id (uuid g) (products s)) eqn:Hfresh; [now left|].
  destruct (negb (has_key r_id (r_id restaurant) (restaurants s))); [now left|].
  match goal with |- context [if ?c then _ else _] => destruct c end; [now left|].
  right. eexists. simpl. split; [reflexivity|]. auto.
Qed.

Lemma put_product_table g user id body file s restaurant :
  storage.getRestaurantByUserId s (u_id user) = Some restaurant ->
  fst (put_product g (Some user) id body file s) = s
  \/ exists p patch,
      fst (put_product g (Some user) id body file s)
      = set_products s
          (map (fun q => if p_id q =? id then patch_product patch (now g) q else q)
               (products s))
      /\ storage.getProduct s id = Some p
      /\ p_restaurantId p = r_id restaurant.
Proof.
  intros Htenant. unfold put_product. run_async.
  destruct (storage.getProduct s id) as [p|] eqn:Hp; [|now left].
  rewrite Htenant. simpl.
  destruct (p_restaurantId p =? r_id restaurant) eqn:Howner; [|now left].
  apply String.eqb_eq in Howner. simpl.
  destruct (insertProductSchema_partial_parse body) as [data|e]; [|now left].
  unfold storage.updateProduct.
  destruct (fault g); [now left|].
  match goal with |- context [if ?c then _ else _] => destruct c end; [now left|].
  right. exists p. eexists. simpl. split; [reflexivity|]. auto.
Qed.

Lemma delete_product_table g user id s restaurant :
  storage.getRestaurantByUserId s (u_id user) = Some restaurant ->
  fst (delete_product g (Some user) id s) = s
  \/ exists p,
      storage.getProduct s id = Some p
      /\ p_restaurantId p = r_id restaurant
      /\ fault g = None
      /\ delete_product g (Some user) id s
         = (set_products s (filter (fun q => negb (p_id q =? id)) (products s)),
            json_ok (Message Msg.deleted)).
Proof.
  intros Htenant. unfold delete_product. run_async.
  destruct (storage.getProduct s id) as [p|] eqn:Hp; [|now left].
  rewrite Htenant. simpl.
  destruct (p_restaurantId p =? r_id restaurant) eqn:Howner; [|now left].
  apply String.eqb_eq in Howner. simpl.
  unfold storage.deleteProduct.
  destruct (fault g) eqn:Hfault; [now left|].
  right. exists p. auto.
Qed.

Lemma unique_id_row s (p q : Product) :
  product_ids_unique s ->
  In p (products s) -> In q (products s) -> p_id q = p_id p -> q = p.
Proof.
  unfold product_ids_unique. induction (products s) as [|a l IH]; simpl; [contradiction|].
  intros Hnd Hp Hq Hid. inversion Hnd as [|a' l' Hnotin Hnd']; subst.
  destruct Hp as [->|Hp], Hq as [->|Hq]; auto.
  - exfalso. apply Hnotin. rewrite <- Hid. now apply in_map.
  - exfalso. apply Hnotin. rewrite Hid. now apply in_map.
Qed.

Lemma filter_map_fixed {A} (f : A -> bool) (h : A -> A) (l : list A) :
  (forall x, In x l -> f (h x) = f x /\ (f x = true -> h x = x)) ->
  filter f (map h l) = filter f l.
Proof.
  induction l as [|a l IH]; simpl; [reflexivity|].
  intros H. destruct (H a (or_introl eq_refl)) as [Hf Hfix].
  rewrite Hf, IH by (intros x Hx; apply H; now right).
  destruct (f a) eqn:Fa; [now rewrite (Hfix eq_refl) | reflexivity].
Qed.

(** X13. Product writes stay inside the caller's tenant. Under the primary
    key of products, whatever an identity that owns a tenant sends to the
    creation, update and delete routes, the product rows of every other
    tenant are afterwards exactly what they were, in the same order. *)
Theorem X13_product_writes_stay_in_tenant
        (g : Engine) (user : User) (id : string) (body : Body) (file : option string)
        (s : Store) (restaurant : Restaurant) :
  product_ids_unique s ->
  storage.getRestaurantByUserId s (u_id user) = Some restaurant ->
  let others := filter (of_other_tenant (r_id restaurant)) in
  others (products (fst (post_products g (Some user) body file s))) = others (products s)
  /\ others (products (fst (put_product g (Some user) id body file s)))
     = others (products s)
  /\ others (products (fst (delete_product g (Some user) id s))) = others (products s).
Proof.
  intros Hunique Htenant others. subst others. split; [|split].
  - destruct (post_products_table g user body file s restaurant Htenant)
      as [->|(p & -> & Hrid & _ & _)]; [reflexivity|].
    simpl. rewrite filter_app. simpl. unfold of_other_tenant at 2.
    rewrite Hrid, String.eqb_refl. simpl. apply app_nil_r.
  - destruct (put_product_table g user id body file s restaurant Htenant)
      as [->|(p & patch & -> & Hp & Hrid)]; [reflexivity|].
    simpl. apply filter_map_fixed. intros q Hq.
    destruct (getProduct_some _ _ _ Hp) as [Hin Hpid].
    destruct (p_id q =? id) eqn:E.
    + apply String.eqb_eq in E.
      assert (q = p) as -> by (apply (unique_id_row s); congruence).
      unfold of_other_tenant. simpl. rewrite Hrid, String.eqb_refl. simpl.
      split; [reflexivity | discriminate].
    + auto.
  - destruct (delete_product_table g user id s restaurant Htenant)
      as [->|(p & Hp & Hrid & _ & ->)]; [reflexivity|].
    simpl. rewrite filter_filter.
    apply filter_ext_in. intros q Hq.
    destruct (getProduct_some _ _ _ Hp) as [Hin Hpid].
    destruct (p_id q =? id) eqn:E; simpl; [|reflexivity].
    apply String.eqb_eq in E.
    assert (q = p) as -> by (apply (unique_id_row s); congruence).
    unfold of_other_tenant. now rewrite Hrid, String.eqb_refl.
Qed.

Lemma sample_product_ids_unique : product_ids_unique Sample.store.
Proof.
  unfold product_ids_unique. simpl.
  repeat (constructor; [simpl; intuition discriminate|]). constructor.
Qed.

(** Whatever Alice sends, Bob's steak stays. *)
Lemma X13_witness :
  let others := filter (of_other_tenant "r1") in
  others (products (fst (post_products (Sample.engine "p7" 500) (Some Sample.alice)
                           Sample.tea None Sample.store)))
  = others (products Sample.store)
  /\ others (products (fst (put_product (Sample.engine "p7" 500) (Some Sample.alice) "q1"
                              Sample.tea None Sample.store)))
     = others (products Sample.store)
  /\ others (products (fst (delete_product (Sample.engine "p7" 500) (Some Sample.alice)
                              "q1" Sample.store)))
     = others (products Sample.store).
Proof.
  apply (X13_product_writes_stay_in_tenant (Sample.engine "p7" 500) Sample.alice "q1"
           Sample.tea None Sample.store Sample.alices).
  - exact sample_product_ids_unique.
  - reflexivity.
Defined.

Lemma count_filter_filter_le {A} (f g : A -> bool) (l : list A) :
  length (filter f (filter g l)) <= length (filter f l).
Proof.
  induction l as [|a l IH]; simpl; [lia|].
  destruct (g a); simpl; destruct (f a); simpl; lia.
Qed.

Lemma count_filter_filter_lt {A} (f g : A -> bool) (l : list A) (x : A) :
  In x l -> f x = true -> g x = false ->
  length (filter f (filter g l)) < length (filter f l).
Proof.
  intros Hin Hf Hg. induction l as [|a l IH]; simpl; [contradiction|].
  destruct Hin as [->|Hin].
  - rewrite Hg, Hf. simpl. pose proof (count_filter_filter_le f g l). lia.
  - specialize (IH Hin). destruct (g a); simpl; destruct (f a); simpl; lia.
Qed.

Lemma delete_product_owner g user id s restaurant p :
  storage.getProduct s id = Some p ->
  storage.getRestaurantByUserId s (u_id user) = Some restaurant ->
  p_restaurantId p = r_id restaurant ->
  fault g = None ->
  delete_product g (Some user) id s
  = (set_products s (filter (fun q => negb (p_id q =? id)) (products s)),
     json_ok (Message Msg.deleted)).
Proof.
  intros Hp Htenant Howner Hfault. unfold delete_product. run_async.
  rewrite Hp, Htenant. simpl. rewrite Howner, String.eqb_refl. simpl.
  unfold storage.deleteProduct. now rewrite Hfault.
Qed.

Lemma deleted_count s id rid p :
  storage.getProduct s id = Some p ->
  p_restaurantId p = rid ->
  let s' := set_products s (filter (fun q => negb (p_id q =? id)) (products s)) in
  storage.getProductCount s' rid <= storage.getProductCount s rid
  /\ (p_isActive p = true ->
      storage.getProductCount s' rid < storage.getProductCount s rid).
Proof.
  intros Hp Hrid s'. subst s'. unfold storage.getProductCount. simpl.
  split; [apply count_filter_filter_le|].
  intros Hactive. destruct (getProduct_some _ _ _ Hp) as [Hin Hpid].
  apply count_filter_filter_lt with (x := p); [assumption| |].
  - now rewrite Hrid, String.eqb_refl, Hactive.
  - now rewrite Hpid, String.eqb_refl.
Qed.

(** X14. A delete by the owner. When the engine takes it, the answer is the
    200 confirmation; afterwards the id resolves to nothing, every other id
    resolves as before, the tenant's count of active products has not grown
    and has dropped if the product was active; and the same request sent
    again is answered 404 and changes nothing. *)
Theorem X14_owner_delete
        (g g' : Engine) (user : User) (id : string) (s : Store)
        (restaurant : Restaurant) (p : Product) :
  storage.getProduct s id = Some p ->
  storage.getRestaurantByUserId s (u_id user) = Some restaurant ->
  p_restaurantId p = r_id restaurant ->
  fault g = None ->
  let s' := fst (delete_product g (Some user) id s) in
  snd (delete_product g (Some user) id s) = json_ok (Message Msg.deleted)
  /\ storage.getProduct s' id = None
  /\ (forall id', id' <> id -> storage.getProduct s' id' = storage.getProduct s id')
  /\ storage.getProductCount s' (r_id restaurant)
     <= storage.getProductCount s (r_id restaurant)
  /\ (p_isActive p = true ->
      storage.getProductCount s' (r_id restaurant)
      < storage.getProductCount s (r_id restaurant))
  /\ delete_product g' (Some user) id s' = (s', ProductNotFound).
Proof.
  intros Hp Htenant Howner Hfault s'. subst s'.
  rewrite (delete_product_owner _ _ _ _ _ _ Hp Htenant Howner Hfault). simpl.
  assert (storage.getProduct
            (set_products s (filter (fun q => negb (p_id q =? id)) (products s))) id
          = None) as Hgone.
  { unfold storage.getProduct. simpl. apply first_filter_absent.
    intros q Hq. apply filter_In in Hq as [_ Hq]. now apply negb_true_iff in Hq. }
  split; [reflexivity|]. split; [exact Hgone|]. split; [|split; [|split]].
  - intros id' Hid'. unfold storage.getProduct. simpl. rewrite filter_filter.
    f_equal. apply filter_ext. intros q.
    destruct (p_id q =? id') eqn:E; [|apply andb_false_r].
    apply String.eqb_eq in E.
    assert ((p_id q =? id) = false) as -> by (apply String.eqb_neq; congruence).
    reflexivity.
  - now apply (deleted_count s id (r_id restaurant) p).
  - now apply (deleted_count s id (r_id restaurant) p).
  - unfold delete_product. run_async. now rewrite Hgone.
Qed.

(** Alice deletes her soup: gone, her count down from five to four, and a
    second delete finds nothing. *)
Lemma X14_witness :
  let s' := fst (delete_product (Sample.engine "" 600) (Some Sample.alice) "p1"
                   Sample.store) in
  snd (delete_product (Sample.engine "" 600) (Some Sample.alice) "p1" Sample.store)
  = json_ok (Message Msg.deleted)
  /\ storage.getProduct s' "p1" = None
  /\ (forall id', id' <> "p1" ->
                  storage.getProduct s' id' = storage.getProduct Sample.store id')
  /\ storage.getProductCount s' "r1" <= storage.getProductCount Sample.store "r1"
  /\ (true = true ->
      storage.getProductCount s' "r1" < storage.getProductCount Sample.store "r1")
  /\ delete_product (Sample.engine "" 601) (Some Sample.alice) "p1" s'
     = (s', ProductNotFound).
Proof.
  apply (X14_owner_delete (Sample.engine "" 600) (Sample.engine "" 601) Sample.alice "p1"
           Sample.store Sample.alices
           (Sample.product_of "p1" "r1" (Some "c1") "Soup" true 401)).
  - reflexivity.
  - reflexivity.
  - reflexivity.
  - reflexivity.
Defined.



(** ** The restaurant route *)

Lemma nodup_map_inj {A} (key : A -> string) (l : list A) (x y : A) :
  NoDup (map key l) -> In x l -> In y l -> key x = key y -> x = y.
Proof.
  induction l as [|a l IH]; simpl; [contradiction|].
  intros Hnd Hx Hy Hk. inversion Hnd as [|a' l' Hnotin Hnd']; subst.
  destruct Hx as [->|Hx], Hy as [->|Hy]; auto.
  - exfalso. apply Hnotin. rewrite Hk. now apply in_map.
  - exfalso. apply Hnotin. rewrite <- Hk. now apply in_map.
Qed.

Lemma first_filter_only {A} (f : A -> bool) (l : list A) (y : A) :
  In y l -> f y = true -> (forall x, In x l -> f x = true -> x = y) ->
  first (filter f l) = Some y.
Proof.
  intros Hin Hy Honly. induction l as [|a l IH]; simpl; [contradiction|].
  destruct (f a) eqn:Fa.
  - simpl. f_equal. apply Honly; [now left | exact Fa].
  - destruct Hin as [->|Hin]; [congruence|].
    apply IH; [exact Hin|]. intros x Hx. apply Honly. now right.
Qed.

Lemma no_clash_of_free s r slug :
  slug_free_for s r slug ->
  existsb (fun x => (r_slug x =? slug) && negb (r_id x =? r_id r)) (restaurants s) = false.
Proof.
  intros Hfree. destruct (existsb _ _) eqn:E; [|reflexivity].
  apply existsb_exists in E as (x & Hx & Hc). apply andb_true_iff in Hc as [Hs Hi].
  apply String.eqb_eq in Hs. apply negb_true_iff, String.eqb_neq in Hi.
  now destruct (Hi (Hfree x Hx Hs)).
Qed.

Lemma put_restaurant_taken g user body s restaurant data :
  NoDup (map r_id (restaurants s)) ->
  storage.getRestaurantByUserId s (u_id user) = Some restaurant ->
  insertRestaurantSchema_partial_parse body = Resolved data ->
  engine_accepts_restaurant_patch g (with_derived_slug data) s restaurant ->
  let h := fun x => if r_id x =? r_id restaurant
                    then patch_restaurant (with_derived_slug data) (now g) x else x in
  put_restaurant g (Some user) body s
  = (set_restaurants s (map h (restaurants s)), RestaurantJson (Some (h restaurant))).
Proof.
  intros Hids Htenant Hparse (Hfault & Hslug) h.
  destruct (getRestaurantByUserId_some _ _ _ Htenant) as [Hin _].
  unfold put_restaurant, attempt. run_async. rewrite Htenant, Hparse.
  unfold storage.updateRestaurant. rewrite Hfault.
  assert ((match rp_slug (with_derived_slug data) with
           | Some slug =>
               has_key r_id (r_id restaurant) (restaurants s)
               && existsb (fun r => (r_slug r =? slug) && negb (r_id r =? r_id restaurant))
                    (restaurants s)
           | None => false
           end) = false) as ->.
  { destruct (rp_slug (with_derived_slug data)) as [slug|]; [|reflexivity].
    rewrite (no_clash_of_free _ _ _ Hslug). apply andb_false_r. }
  fold h. f_equal. f_equal. rewrite first_filter_map.
  - rewrite (first_filter_only _ _ restaurant Hin (String.eqb_refl _)); [reflexivity|].
    intros x Hx Hid. apply String.eqb_eq in Hid.
    now apply (nodup_map_inj r_id (restaurants s)).
  - intros x. unfold h. destruct (r_id x =? r_id restaurant) eqn:E; simpl; now rewrite E.
Qed.

Lemma with_derived_slug_named data name :
  rp_name data = Some name -> Js.truthy name = true ->
  rp_slug (with_derived_slug data) = Some (generateSlug name)
  /\ rp_name (with_derived_slug data) = Some name.
Proof.
  intros Hn Ht. unfold with_derived_slug. rewrite Hn, Ht. simpl. auto.
Qed.

Lemma with_derived_slug_unnamed data :
  rp_name data = None -> with_derived_slug data = data.
Proof. intros Hn. unfold with_derived_slug. now rewrite Hn. Qed.

Section RestaurantUpdate.

Variables (g : Engine) (user : User) (body : Body) (s : Store).
Variables (restaurant : Restaurant) (data : RestaurantPatch).
Hypothesis keys : restaurant_keys_unique s.
Hypothesis tenant : storage.getRestaurantByUserId s (u_id user) = Some restaurant.
Hypothesis parsed : insertRestaurantSchema_partial_parse body = Resolved data.

Let h (x : Restaurant) : Restaurant :=
  if r_id x =? r_id restaurant
  then patch_restaurant (with_derived_slug data) (now g) x else x.

Lemma updated_found_by_slug slug :
  rp_slug (with_derived_slug data) = Some slug ->
  slug_free_for s restaurant slug ->
  storage.getRestaurantBySlug (set_restaurants s (map h (restaurants s))) slug
  = Some (h restaurant).
Proof.
  intros Hslug Hfree.
  destruct (getRestaurantByUserId_some _ _ _ tenant) as [Hin _].
  destruct keys as [Hids _].
  assert (h restaurant = patch_restaurant (with_derived_slug data) (now g) restaurant)
    as Hh by (unfold h; now rewrite String.eqb_refl).
  unfold storage.getRestaurantBySlug. simpl. apply first_filter_only.
  - now apply in_map.
  - rewrite Hh. simpl. rewrite Hslug. simpl. apply String.eqb_refl.
  - intros x' Hx' Hmatch. apply in_map_iff in Hx' as (x & <- & Hx).
    apply String.eqb_eq in Hmatch. unfold h in *.
    destruct (r_id x =? r_id restaurant) eqn:E.
    + apply String.eqb_eq in E.
      now rewrite (nodup_map_inj r_id (restaurants s) x restaurant Hids Hx Hin E),
        String.eqb_refl.
    + apply String.eqb_neq in E. now destruct (E (Hfree x Hx Hmatch)).
Qed.

Lemma old_slug_released slug :
  rp_slug (with_derived_slug data) = Some slug ->
  slug <> r_slug restaurant ->
  storage.getRestaurantBySlug (set_restaurants s (map h (restaurants s)))
    (r_slug restaurant) = None.
Proof.
  intros Hslug Hmoved.
  destruct (getRestaurantByUserId_some _ _ _ tenant) as [Hin _].
  destruct keys as [_ Hslugs].
  unfold storage.getRestaurantBySlug. simpl. apply first_filter_absent.
  intros x' Hx'. apply in_map_iff in Hx' as (x & <- & Hx).
  apply String.eqb_neq. unfold h.
  destruct (r_id x =? r_id restaurant) eqn:E.
  - simpl. rewrite Hslug. simpl. exact Hmoved.
  - intros Hsame.
    rewrite (nodup_map_inj r_slug (restaurants s) x restaurant Hslugs Hx Hin Hsame),
      String.eqb_refl in E. discriminate.
Qed.

(** X16. Renaming moves the public menu. Under the keys of [restaurants],
    when the owner's body carries a non-empty [name] and the update is taken
    (no engine fault, the derived slug not held by another restaurant), the
    answer is the restaurant with that name and with the slug derived from
    it, whatever [slug] the body carried; its id and its owner are
    unchanged; the menu is afterwards found under the derived slug and, if
    that differs from the old slug, no longer under the old one. *)
Theorem X16_rename_moves_the_menu (name : string) :
  rp_name data = Some name ->
  Js.truthy name = true ->
  fault g = None ->
  slug_free_for s restaurant (generateSlug name) ->
  exists r',
    put_restaurant g (Some user) body s
    = (set_restaurants s (map h (restaurants s)), RestaurantJson (Some r'))
    /\ r_name r' = name
    /\ r_slug r' = generateSlug name
    /\ r_id r' = r_id restaurant
    /\ r_userId r' = r_userId restaurant
    /\ storage.getRestaurantBySlug (fst (put_restaurant g (Some user) body s))
         (generateSlug name) = Some r'
    /\ (generateSlug name <> r_slug restaurant ->
        storage.getRestaurantBySlug (fst (put_restaurant g (Some user) body s))
          (r_slug restaurant) = None)
    /\ storage.getRestaurantByUserId (fst (put_restaurant g (Some user) body s))
         (u_id user) = Some r'.
Proof.
  intros Hname Htruthy Hfault Hfree.
  destruct (with_derived_slug_named data name Hname Htruthy) as [Hslug Hname'].
  assert (engine_accepts_restaurant_patch g (with_derived_slug data) s restaurant) as Hacc.
  { split; [exact Hfault|]. now rewrite Hslug. }
  pose proof (put_restaurant_taken g user body s restaurant data (proj1 keys) tenant
                parsed Hacc) as Hput.
  cbv zeta in Hput. fold h in Hput. rewrite Hput. cbn [fst].
  assert (h restaurant = patch_restaurant (with_derived_slug data) (now g) restaurant)
    as Hh by (unfold h; now rewrite String.eqb_refl).
  exists (h restaurant). split; [reflexivity|].
  split; [rewrite Hh; simpl; now rewrite Hname'|].
  split; [rewrite Hh; simpl; now rewrite Hslug|].
  split; [now rewrite Hh|]. split; [now rewrite Hh|].
  split; [now apply updated_found_by_slug|].
  split; [intros Hmoved; now apply (old_slug_released (generateSlug name))|].
  unfold storage.getRestaurantByUserId. simpl. rewrite first_filter_map.
  - fold (storage.getRestaurantByUserId s (u_id user)). now rewrite tenant.
  - intros x. unfold h. now destruct (r_id x =? r_id restaurant).
Qed.

(** X17. A slug sent without a name is stored as it is. Under the keys of
    [restaurants], when the owner's body carries no [name] but a [slug]
    that no other restaurant holds and the engine takes the update, the
    restaurant is stored with exactly that string as its slug (no
    derivation is applied to it) and the menu is found under it. *)
Theorem X17_slug_is_directly_editable (slug : string) :
  rp_name data = None ->
  rp_slug data = Some slug ->
  fault g = None ->
  slug_free_for s restaurant slug ->
  exists r',
    snd (put_restaurant g (Some user) body s) = RestaurantJson (Some r')
    /\ r_slug r' = slug
    /\ r_name r' = r_name restaurant
    /\ storage.getRestaurantBySlug (fst (put_restaurant g (Some user) body s)) slug
       = Some r'.
Proof.
  intros Hname Hslug Hfault Hfree.
  pose proof (with_derived_slug_unnamed data Hname) as Hsame.
  assert (engine_accepts_restaurant_patch g (with_derived_slug data) s restaurant) as Hacc.
  { split; [exact Hfault|]. now rewrite Hsame, Hslug. }
  pose proof (put_restaurant_taken g user body s restaurant data (proj1 keys) tenant
                parsed Hacc) as Hput.
  cbv zeta in Hput. fold h in Hput. rewrite Hput. cbn [fst snd].
  assert (h restaurant = patch_restaurant (with_derived_slug data) (now g) restaurant)
    as Hh by (unfold h; now rewrite String.eqb_refl).
  exists (h restaurant). split; [reflexivity|].
  split; [rewrite Hh, Hsame; simpl; now rewrite Hslug|].
  split; [rewrite Hh, Hsame; simpl; now rewrite Hname|].
  apply updated_found_by_slug; [now rewrite Hsame | exact Hfree].
Qed.

End RestaurantUpdate.

Lemma sample_restaurant_keys_unique : restaurant_keys_unique Sample.store.
Proof.
  split; simpl; repeat (constructor; [simpl; intuition discriminate|]); constructor.
Qed.

(** Alice renames her restaurant, and sends Bob's slug along: the slug is
    derived from the new name, and the old menu address is gone. *)
Lemma X16_witness :
  exists r',
    snd (put_restaurant (Sample.engine "" 1100) (Some Sample.alice)
           [("name", JStr "Alice Bistro"); ("slug", JStr "bobs-grill")] Sample.store)
    = RestaurantJson (Some r')
    /\ r_slug r' = "alice-bistro"
    /\ storage.getRestaurantBySlug
         (fst (put_restaurant (Sample.engine "" 1100) (Some Sample.alice)
                 [("name", JStr "Alice Bistro"); ("slug", JStr "bobs-grill")] Sample.store))
         "alices-diner" = None.
Proof.
  destruct (X16_rename_moves_the_menu (Sample.engine "" 1100) Sample.alice
              [("name", JStr "Alice Bistro"); ("slug", JStr "bobs-grill")] Sample.store
              Sample.alices
              {| rp_name := Some "Alice Bistro"; rp_description := None; rp_address := None;
                 rp_phone := None; rp_hours := None; rp_logoUrl := None;
                 rp_primaryColor := None; rp_menuStyle := None;
                 rp_slug := Some "bobs-grill" |}
              sample_restaurant_keys_unique eq_refl eq_refl "Alice Bistro")
    as (r' & Hput & _ & Hslug & _ & _ & _ & Hold & _).
  - reflexivity.
  - reflexivity.
  - reflexivity.
  - intros x [<-|[<-|[]]]; [reflexivity | discriminate].
  - exists r'. rewrite Hput. split; [reflexivity|]. split; [exact Hslug|].
    rewrite Hput in Hold. apply Hold. discriminate.
Defined.

(** Alice sends a slug of her own choosing and no name: it is stored
    untouched, blanks, capitals and all. *)
Lemma X17_witness :
  exists r',
    snd (put_restaurant (Sample.engine "" 1100) (Some Sample.alice)
           [("slug", JStr "Not A Slug!")] Sample.store)
    = RestaurantJson (Some r')
    /\ r_slug r' = "Not A Slug!"
    /\ r_name r' = "Alice's Diner"
    /\ storage.getRestaurantBySlug
         (fst (put_restaurant (Sample.engine "" 1100) (Some Sample.alice)
                 [("slug", JStr "Not A Slug!")] Sample.store))
         "Not A Slug!" = Some r'.
Proof.
  apply (X17_slug_is_directly_editable (Sample.engine "" 1100) Sample.alice
           [("slug", JStr "Not A Slug!")] Sample.store Sample.alices
           {| rp_name := None; rp_description := None; rp_address := None;
              rp_phone := None; rp_hours := None; rp_logoUrl := None;
              rp_primaryColor := None; rp_menuStyle := None;
              rp_slug := Some "Not A Slug!" |}
           sample_restaurant_keys_unique eq_refl eq_refl "Not A Slug!").
  - reflexivity.
  - reflexivity.
  - reflexivity.
  - intros x [<-|[<-|[]]]; discriminate.
Defined.

(** X18. A rename onto a taken slug is refused. When the slug derived from
    the new name is held by another restaurant, the update violates the
    unique constraint: the answer is 400 with that error and the store is
    as it was (no suffix is tried). *)
Theorem X18_rename_onto_taken_slug
        (g : Engine) (user : User) (body : Body) (s : Store)
        (restaurant other : Restaurant) (data : RestaurantPatch) (name : string) :
  storage.getRestaurantByUserId s (u_id user) = Some restaurant ->
  insertRestaurantSchema_partial_parse body = Resolved data ->
  rp_name data = Some name ->
  Js.truthy name = true ->
  fault g = None ->
  In other (restaurants s) ->
  r_id other <> r_id restaurant ->
  r_slug other = generateSlug name ->
  put_restaurant g (Some user) body s
  = (s, Plain (json_status 400 (Thrown (UniqueViolation "restaurants_slug_unique")))).
Proof.
  intros Htenant Hparse Hname Htruthy Hfault Hother Hid Hslug.
  destruct (getRestaurantByUserId_some _ _ _ Htenant) as [Hin _].
  destruct (with_derived_slug_named data name Hname Htruthy) as [Hderived _].
  unfold put_restaurant, attempt. run_async. rewrite Htenant, Hparse.
  unfold storage.updateRestaurant. rewrite Hfault, Hderived.
  rewrite (has_key_in r_id _ _ Hin). simpl.
  assert (existsb (fun r => (r_slug r =? generateSlug name)
                            && negb (r_id r =? r_id restaurant)) (restaurants s) = true)
    as ->.
  { apply existsb_exists. exists other. split; [exact Hother|].
    rewrite Hslug, String.eqb_refl. simpl.
    now apply negb_true_iff, String.eqb_neq. }
  reflexivity.
Qed.

(** Alice cannot take the name whose slug is Bob's. *)
Lemma X18_witness :
  put_restaurant (Sample.engine "" 1100) (Some Sample.alice)
    [("name", JStr "Bob's Grill")] Sample.store
  = (Sample.store,
     Plain (json_status 400 (Thrown (UniqueViolation "restaurants_slug_unique")))).
Proof.
  apply (X18_rename_onto_taken_slug (Sample.engine "" 1100) Sample.alice
           [("name", JStr "Bob's Grill")] Sample.store Sample.alices Sample.bobs
           {| rp_name := Some "Bob's Grill"; rp_description := None; rp_address := None;
              rp_phone := None; rp_hours := None; rp_logoUrl := None;
              rp_primaryColor := None; rp_menuStyle := None; rp_slug := None |}
           "Bob's Grill").
  - reflexivity.
  - reflexivity.
  - reflexivity.
  - reflexivity.
  - reflexivity.
  - simpl. auto.
  - discriminate.
  - reflexivity.
Defined.

(** ** Registration: what a new identity is *)

Lemma createUser_row g iu s s1 u :
  storage.createUser g iu s = (s1, Resolved u) ->
  u = {| u_id := uuid g;
         u_email := iu_email iu;
         u_password := iu_password iu;
         u_plan := dflt "free" (iu_plan iu);
         u_stripeCustomerId := dflt None (iu_stripeCustomerId iu);
         u_stripeSubscriptionId := dflt None (iu_stripeSubscriptionId iu);
         u_subscriptionStatus := dflt None (iu_subscriptionStatus iu);
         u_subscriptionEndsAt := dflt None (iu_subscriptionEndsAt iu);
         u_createdAt := Some (now g) |}.
Proof.
  unfold storage.createUser.
  destruct (fault g); [discriminate|].
  destruct (has_key u_id (uuid g) (users s)); [discriminate|].
  destruct (has_key u_email (iu_email iu) (users s)); [discriminate|].
  now intros [= _ <-].
Qed.

Lemma register_tables env body s :
  fst (register env body s) = s
  \/ exists u,
      users (fst (register env body s)) = (users s ++ [u])%list
      /\ has_key u_id (u_id u) (users s) = false
      /\ u_id u = uuid (user_insert env)
      /\ u_plan u = "free"
      /\ u_password u = hashedPassword env
      /\ u_stripeCustomerId u = None
      /\ u_stripeSubscriptionId u = None
      /\ u_subscriptionStatus u = None
      /\ (restaurants (fst (register env body s)) = restaurants s
          \/ exists r,
              restaurants (fst (register env body s)) = (restaurants s ++ [r])%list
              /\ r_userId r = u_id u
              /\ r_slug r = generateSlug (r_name r)).
Proof.
  destruct (registerSchema_parse body) as [data|e] eqn:Hparse.
  2: { left. unfold register. run_async. now rewrite Hparse. }
  destruct (storage.getUserByEmail s (iu_email (rd_user data))) as [u0|] eqn:Hmail.
  { left. rewrite (register_email_in_use env body s data Hparse); [reflexivity|].
    rewrite Hmail. discriminate. }
  rewrite (register_new_email env body s data Hparse Hmail).
  destruct (storage.createUser (user_insert env) (new_identity env data) s)
    as [s1 [u|e]] eqn:Hu.
  2: { left. now apply createUser_settled in Hu. }
  pose proof (createUser_row _ _ _ _ _ Hu) as Hrow.
  apply createUser_settled in Hu as (-> & Hid & _ & Hfresh).
  right. exists u.
  assert (users (fst
            match storage.createRestaurant (restaurant_insert env) (new_tenant u data)
                    (set_users s (users s ++ [u])) with
            | (s2, Resolved restaurant) =>
                (s2, if login_error env
                     then json_status 500 (Message Msg.auto_login)
                     else json_ok (Registered u restaurant))
            | (s2, Rejected e) => (s2, json_status 400 (Thrown e))
            end) = (users s ++ [u])%list
          /\ (restaurants (fst
                 match storage.createRestaurant (restaurant_insert env) (new_tenant u data)
                         (set_users s (users s ++ [u])) with
                 | (s2, Resolved restaurant) =>
                     (s2, if login_error env
                          then json_status 500 (Message Msg.auto_login)
                          else json_ok (Registered u restaurant))
                 | (s2, Rejected e) => (s2, json_status 400 (Thrown e))
                 end) = restaurants s
              \/ exists r,
                  restaurants (fst
                    match storage.createRestaurant (restaurant_insert env)
                            (new_tenant u data) (set_users s (users s ++ [u])) with
                    | (s2, Resolved restaurant) =>
                        (s2, if login_error env
                             then json_status 500 (Message Msg.auto_login)
                             else json_ok (Registered u restaurant))
                    | (s2, Rejected e) => (s2, json_status 400 (Thrown e))
                    end) = (restaurants s ++ [r])%list
                  /\ r_userId r = u_id u
                  /\ r_slug r = generateSlug (r_name r))) as [Husers Hrests].
  { destruct (storage.createRestaurant (restaurant_insert env) (new_tenant u data)
                (set_users s (users s ++ [u]))) as [s2 [r|e]] eqn:Hr;
      apply createRestaurant_settled in Hr.
    - destruct Hr as (-> & Howner & Hslug & Hname). simpl. split; [reflexivity|].
      right. exists r. split; [reflexivity|]. split; [exact Howner|].
      now rewrite Hslug, Hname.
    - subst s2. simpl. auto. }
  assert (u_plan u = "free" /\ u_password u = hashedPassword env
          /\ u_stripeCustomerId u = None /\ u_stripeSubscriptionId u = None
          /\ u_subscriptionStatus u = None) as (Hplan & Hpw & Hc & Hsub & Hst)
      by (rewrite Hrow; simpl; auto).
  rewrite Husers. split; [reflexivity|]. split; [now rewrite Hid|]. auto 10.
Qed.

(** X19. Registration cannot create a paying identity. Whatever the body
    carries (a [plan], Stripe ids, a subscription status: the schema lets
    them through), the identities of the store after a registration attempt
    are those it had, unchanged, and at most one new one, which is on the
    free plan, has no Stripe customer, subscription or status, and holds
    the bcrypt hash as its password. *)
Theorem X19_registration_creates_free_identities
        (env : RegisterEnv) (body : Body) (s : Store) :
  let s' := fst (register env body s) in
  (forall u, In u (users s) -> In u (users s'))
  /\ (forall u, In u (users s') ->
                In u (users s)
                \/ (u_plan u = "free"
                    /\ u_stripeCustomerId u = None
                    /\ u_stripeSubscriptionId u = None
                    /\ u_subscriptionStatus u = None
                    /\ u_password u = hashedPassword env))
  /\ length (users s') <= S (length (users s)).
Proof.
  intros s'. subst s'.
  destruct (register_tables env body s)
    as [->|(u & -> & _ & _ & Hplan & Hpw & Hc & Hsub & Hst & _)].
  - repeat split; auto.
  - split; [|split].
    + intros x Hx. apply in_or_app. now left.
    + intros x Hx. apply in_app_or in Hx as [Hx|[<-|[]]]; auto 10.
    + rewrite length_app. simpl. lia.
Qed.

(** ** One tenant for each identity *)

Lemma has_key_map {A} (key : A -> string) (k : string) (l : list A) :
  has_key key k l = true <-> In k (map key l).
Proof.
  unfold has_key. rewrite existsb_exists, in_map_iff. split.
  - intros (x & Hx & E). apply String.eqb_eq in E. eauto.
  - intros (x & E & Hx). exists x. split; [exact Hx | now apply String.eqb_eq].
Qed.

Lemma one_tenant_each_lists s :
  one_tenant_each s <->
  (forall k, In k (map r_userId (restaurants s)) -> In k (map u_id (users s)))
  /\ NoDup (map r_userId (restaurants s)).
Proof.
  unfold one_tenant_each, restaurants_reference_users. split; intros [Hfk Hnd];
    (split; [|exact Hnd]).
  - intros k Hk. apply in_map_iff in Hk as (r & <- & Hr).
    now apply has_key_map, Hfk.
  - intros r Hr. apply has_key_map, Hfk. now apply in_map.
Qed.

Lemma one_tenant_each_same_ids s s' :
  map u_id (users s') = map u_id (users s) ->
  map r_userId (restaurants s') = map r_userId (restaurants s) ->
  one_tenant_each s -> one_tenant_each s'.
Proof.
  intros Hu Hr H. apply one_tenant_each_lists in H.
  apply one_tenant_each_lists. now rewrite Hu, Hr.
Qed.

Lemma updateRestaurant_keeps_owners g id data :
  keeps (fun s => map r_userId (restaurants s)) (storage.updateRestaurant g id data).
Proof.
  intros s. unfold storage.updateRestaurant.
  destruct (fault g); [reflexivity|].
  match goal with |- context [if ?c then _ else _] => destruct c end; [reflexivity|].
  simpl. rewrite map_map. apply map_ext. intros r. now destruct (r_id r =? id).
Qed.

Lemma put_restaurant_keeps_owners g req_user body :
  keeps (fun s => map r_userId (restaurants s)) (put_restaurant g req_user body).
Proof.
  unfold put_restaurant. destruct req_user as [user|]; [|apply keeps_const].
  apply keeps_attempt. apply keeps_bind; [apply keeps_read|].
  intros [r|]; [|apply keeps_ret].
  apply keeps_bind; [apply keeps_settle|]. intros data.
  apply keeps_bind; [apply updateRestaurant_keeps_owners|]. intros r'. apply keeps_ret.
Qed.

Lemma updateUser_keeps_ids g id data :
  keeps (fun s => map u_id (users s)) (storage.updateUser g id data).
Proof.
  intros s. unfold storage.updateUser.
  destruct (fault g); [reflexivity|].
  match goal with |- context [if ?c then _ else _] => destruct c end; [reflexivity|].
  simpl. rewrite map_map. apply map_ext. intros u. now destruct (u_id u =? id).
Qed.

(** X20. Every route keeps "one tenant for each identity". From a store
    where every restaurant's owner is a stored user and no two restaurants
    have the same owner, the store after any request to any route is again
    such a store: registration is the only route that adds a restaurant
    and it gives it to the identity it has just created, and the
    restaurant route never changes an owner. *)
Theorem X20_one_tenant_each_is_kept (s : Store) :
  one_tenant_each s ->
  (forall env body, one_tenant_each (fst (register env body s)))
  /\ (forall g req_user body, one_tenant_each (fst (put_restaurant g req_user body s)))
  /\ (forall g req_user body file,
         one_tenant_each (fst (post_products g req_user body file s)))
  /\ (forall g req_user id body file,
         one_tenant_each (fst (put_product g req_user id body file s)))
  /\ (forall g req_user id, one_tenant_each (fst (delete_product g req_user id s)))
  /\ (forall g req_user body, one_tenant_each (fst (post_categories g req_user body s)))
  /\ (forall g slug userAgent ip, one_tenant_each (fst (get_menu g slug userAgent ip s)))
  /\ (forall configured env req_user w,
         db w = s ->
         one_tenant_each (db (fst (create_subscription configured env req_user w)))).
Proof.
  intros Hinv.
  assert (forall s', users s' = users s -> restaurants s' = restaurants s ->
                     one_tenant_each s') as Hsame.
  { intros s' Hu Hr. apply (one_tenant_each_same_ids s); [now rewrite Hu | now rewrite Hr
                                                          | exact Hinv]. }
  split; [|split; [|split; [|split; [|split; [|split; [|split]]]]]].
  - intros env body.
    destruct (register_tables env body s)
      as [->|(u & Husers & Hfresh & _ & _ & _ & _ & _ & _ & Hrests)]; [exact Hinv|].
    apply one_tenant_each_lists in Hinv as [Hfk Hnd].
    apply one_tenant_each_lists. rewrite Husers, map_app.
    destruct Hrests as [->|(r & -> & Howner & _)].
    + split; [|exact Hnd]. intros k Hk. apply in_or_app. left. now apply Hfk.
    + rewrite map_app. simpl. split.
      * intros k Hk. apply in_or_app.
        apply in_app_or in Hk as [Hk|[<-|[]]]; [left; now apply Hfk|].
        right. left. now rewrite Howner.
      * apply (Permutation_NoDup (l := r_userId r :: map r_userId (restaurants s))).
        { apply Permutation_cons_append. }
        constructor; [|exact Hnd].
        intros Hin. apply Hfk in Hin. rewrite Howner in Hin.
        apply has_key_map in Hin. congruence.
  - intros g req_user body.
    apply (one_tenant_each_same_ids s); [|apply put_restaurant_keeps_owners | exact Hinv].
    f_equal. route_keeps.
  - intros g req_user body file. apply Hsame; route_keeps.
  - intros g req_user id body file. apply Hsame; route_keeps.
  - intros g req_user id. apply Hsame; route_keeps.
  - intros g req_user body. apply Hsame; route_keeps.
  - intros g slug userAgent ip.
    destruct (get_menu_keeps_catalog g slug userAgent ip) as (Hu & Hr & _).
    apply Hsame; [apply Hu | apply Hr].
  - intros configured env req_user w <-.
    apply (one_tenant_each_same_ids (db w)); [| |exact Hinv].
    + apply (create_subscription_keeps (fun s => map u_id (users s))).
      intros. apply updateUser_keeps_ids.
    + f_equal. apply (create_subscription_keeps restaurants). intros; storage_frame.
Qed.

Lemma sample_one_tenant_each : one_tenant_each Sample.store.
Proof.
  split.
  - intros r [<-|[<-|[]]]; reflexivity.
  - simpl. repeat (constructor; [simpl; intuition discriminate|]). constructor.
Qed.

(** After Carol's registration, with or without a slug clash, the sample
    store still has one tenant for each identity at most. *)
Lemma X20_witness :
  one_tenant_each (fst (register SampleRegistration.env SampleRegistration.fine Sample.store))
  /\ one_tenant_each
       (fst (register SampleRegistration.env SampleRegistration.clashing Sample.store)).
Proof.
  destruct (X20_one_tenant_each_is_kept Sample.store sample_one_tenant_each)
    as (Hregister & _).
  split; apply Hregister.
Defined.

(** ** Signing in and the session *)

(** X21. Who is signed in is who comes back. The verify callback accepts
    exactly a stored identity found under the given email whose hash
    [bcrypt.compare] accepts; an unknown email and a wrong password are
    refused with their two messages. Under the primary key of users, the
    identity that passport restores on a later request from the id kept in
    the session is the identity that signed in; and after a registration
    that answered with the registered pair, the identity restored from the
    session is the registered one. *)
Theorem X21_session_restores_the_identity
        (compare : string -> string -> bool) (s : Store) (email password : string) :
  (forall u, verify compare s email password = Authenticated u <->
             storage.getUserByEmail s email = Some u
             /\ compare password (u_password u) = true)
  /\ (storage.getUserByEmail s email = None ->
      verify compare s email password = Failed AuthMsg.unknown_email)
  /\ (forall u, storage.getUserByEmail s email = Some u ->
                compare password (u_password u) = false ->
                verify compare s email password = Failed AuthMsg.wrong_password)
  /\ (forall u, user_ids_unique s ->
                verify compare s email password = Authenticated u ->
                u_email u = email
                /\ deserializeUser s (Some (serializeUser u)) = Some u)
  /\ (forall env body u r,
         snd (register env body s) = json_ok (Registered u r) ->
         deserializeUser (fst (register env body s)) (Some (serializeUser u)) = Some u).
Proof.
  split; [|split; [|split; [|split]]].
  - intros u. unfold verify. split.
    + destruct (storage.getUserByEmail s email) as [u0|]; [|discriminate].
      destruct (compare password (u_password u0)) eqn:Hc; [|discriminate].
      intros [= <-]. auto.
    + intros [-> ->]. reflexivity.
  - intros Hnone. unfold verify. now rewrite Hnone.
  - intros u Hu Hc. unfold verify. now rewrite Hu, Hc.
  - intros u Hunique Hv. unfold verify in Hv.
    destruct (storage.getUserByEmail s email) as [u0|] eqn:Hu; [|discriminate].
    destruct (compare password (u_password u0)); [|discriminate].
    injection Hv as ->.
    apply first_filter_some in Hu as [Hin Hmail]. apply String.eqb_eq in Hmail.
    split; [exact Hmail|].
    unfold deserializeUser, serializeUser, storage.getUser.
    apply first_filter_only; [exact Hin | apply String.eqb_refl|].
    intros x Hx Hid. apply String.eqb_eq in Hid.
    now apply (nodup_map_inj u_id (users s)).
  - intros env body u r Hreply.
    destruct (registerSchema_parse body) as [data|e] eqn:Hparse.
    2: { unfold register, try_catch, bind, settle in Hreply.
         rewrite Hparse in Hreply. discriminate. }
    destruct (storage.getUserByEmail s (iu_email (rd_user data))) as [u0|] eqn:Hmail.
    { rewrite (register_email_in_use env body s data Hparse) in Hreply
        by (rewrite Hmail; discriminate).
      discriminate. }
    rewrite (register_new_email env body s data Hparse Hmail) in Hreply |- *.
    destruct (storage.createUser (user_insert env) (new_identity env data) s)
      as [s1 [u1|e]] eqn:Hu; [|discriminate].
    destruct (storage.createRestaurant (restaurant_insert env) (new_tenant u1 data) s1)
      as [s2 [r1|e]] eqn:Hr; [|discriminate].
    simpl in Hreply. destruct (login_error env); [discriminate|].
    injection Hreply as -> ->. simpl.
    apply createUser_settled in Hu as (-> & Hid & _ & Hfresh).
    apply createRestaurant_settled in Hr as (-> & _).
    unfold deserializeUser, serializeUser, storage.getUser. simpl.
    apply first_filter_app_new.
    + apply has_key_absent. now rewrite Hid.
    + apply String.eqb_refl.
Qed.

Lemma sample_user_ids_unique : user_ids_unique Sample.store.
Proof.
  unfold user_ids_unique. simpl.
  repeat (constructor; [simpl; intuition discriminate|]). constructor.
Qed.

(** Bob signs in (with a [compare] that accepts his password): the next
    request is made by Bob. *)
Lemma X21_witness :
  u_email Sample.bob = "bob@example.com"
  /\ deserializeUser Sample.store (Some (serializeUser Sample.bob)) = Some Sample.bob.
Proof.
  apply (proj1 (proj2 (proj2 (proj2
           (X21_session_restores_the_identity (fun _ _ => true) Sample.store
              "bob@example.com" "grill")))) Sample.bob).
  - exact sample_user_ids_unique.
  - reflexivity.
Defined.

(** ** The billing bridge: what a call leaves behind *)

Lemma getUser_after_patch s id user patch :
  storage.getUser s id = Some user ->
  storage.getUser
    (set_users s (map (fun u => if u_id u =? id then patch_user patch u else u) (users s)))
    id = Some (patch_user patch user).
Proof.
  intros Hget. destruct (getUser_some _ _ _ Hget) as [_ Hid].
  unfold storage.getUser. simpl. rewrite first_filter_map.
  - fold (storage.getUser s id). rewrite Hget. simpl. now rewrite Hid, String.eqb_refl.
  - intros x. destruct (u_id x =? id) eqn:E; simpl; now rewrite E.
Qed.

(** X22. Every upgrade opens its own customer, product and price. When
    [beginUpgrade] of a stored identity without a recorded subscription
    goes through, the provider's account has gained, at the end of its
    lists, one customer under the identity's email, one product "MenuQR
    Premium", one monthly price of 2490 in brl for that product and one
    subscription of that customer to that price, created incomplete;
    nothing that was there is reused or changed, whether or not the
    identity already had a customer id on record, and the recorded
    customer id is now the new one. *)
Theorem X22_upgrade_opens_its_own_objects
        (env : UpgradeEnv) (id : string) (user : User) (w : World)
        (cus prod price sid : string) (invoice : Stripe.InvoiceRef) :
  storage.getUser (db w) id = Some user ->
  Js.truthy_opt (u_stripeSubscriptionId user) = false ->
  Js.truthy (u_email user) = true ->
  upgrade_goes_through env cus prod price sid invoice ->
  let w' := fst (beginUpgrade env (Some id) w) in
  Stripe.customers (stripe w')
  = (Stripe.customers (stripe w) ++ [upgrade_customer user cus])%list
  /\ Stripe.products (stripe w')
     = (Stripe.products (stripe w) ++ [upgrade_product prod])%list
  /\ Stripe.prices (stripe w')
     = (Stripe.prices (stripe w) ++ [upgrade_price price prod])%list
  /\ Stripe.subscriptions (stripe w')
     = (Stripe.subscriptions (stripe w) ++ [upgrade_subscription sid cus price invoice])%list
  /\ exists user',
      storage.getUser (db w') id = Some user'
      /\ u_stripeCustomerId user' = Some cus.
Proof.
  intros Hget Hnone Hmail (Hc & Hp & Hpr & Hs & Hf1 & Hf2) w'. subst w'.
  destruct (getUser_some _ _ _ Hget) as [_ Hid].
  pose proof (getUser_after_patch (db w) id user (only_customer cus) Hget) as Hget1.
  unfold beginUpgrade, deserializeUser, create_subscription. rewrite Hget. simpl.
  rewrite Hnone, Hmail. simpl.
  run_async. unfold on_stripe, on_db.
  unfold Stripe.customers_create, Stripe.products_create, Stripe.prices_create,
    Stripe.subscriptions_create, storage.updateUserStripeInfo, storage.updateUser.
  rewrite Hc, Hp, Hpr, Hs, Hf1. simpl. rewrite Hid.
  unfold storage.getUser in Hget1. simpl in Hget1. rewrite Hget1. simpl.
  rewrite Hf2, Hid. simpl.
  repeat split.
  eexists. split.
  - match goal with
    | |- storage.getUser (set_users ?s0 (map ?h _)) _ = _ =>
        apply (getUser_after_patch s0 id)
    end.
    unfold storage.getUser. simpl. exact Hget1.
  - reflexivity.
Qed.

(** Bob's old customer stays, Alice's new one is added after it. *)
Lemma X22_witness :
  let w' := fst (beginUpgrade SampleBilling.env (Some "u1") SampleBilling.world) in
  Stripe.customers (stripe w')
  = (Stripe.customers SampleBilling.account ++ [upgrade_customer Sample.alice "cus_2"])%list
  /\ Stripe.products (stripe w')
     = (Stripe.products SampleBilling.account ++ [upgrade_product "prod_2"])%list
  /\ Stripe.prices (stripe w')
     = (Stripe.prices SampleBilling.account ++ [upgrade_price "price_2" "prod_2"])%list
  /\ Stripe.subscriptions (stripe w')
     = (Stripe.subscriptions SampleBilling.account
          ++ [upgrade_subscription "sub_2" "cus_2" "price_2"
                (Stripe.InvoiceObject "in_2"
                   (Stripe.IntentObject "pi_2" (Some "pi_2_secret")))])%list
  /\ exists user',
      storage.getUser (db w') "u1" = Some user'
      /\ u_stripeCustomerId user' = Some "cus_2".
Proof.
  apply (X22_upgrade_opens_its_own_objects SampleBilling.env "u1" Sample.alice
           SampleBilling.world "cus_2" "prod_2" "price_2" "sub_2"
           (Stripe.InvoiceObject "in_2" (Stripe.IntentObject "pi_2" (Some "pi_2_secret")))).
  - reflexivity.
  - reflexivity.
  - reflexivity.
  - repeat split.
Defined.

(** X23. A refused upgrade. For a stored identity without a recorded
    subscription: when the provider refuses to create the customer, the
    answer is 400 with the provider's message and neither the provider's
    account nor the database has changed. When it refuses only the
    subscription, after issuing customer, product and price, the answer is
    the same 400 but the three objects stay at the provider and the new
    customer id stays on the identity; its plan and its (absent)
    subscription id are as before, so a retry creates everything again. *)
Theorem X23_refused_upgrade
        (env : UpgradeEnv) (id : string) (user : User) (w : World) (m : string) :
  storage.getUser (db w) id = Some user ->
  Js.truthy_opt (u_stripeSubscriptionId user) = false ->
  Js.truthy (u_email user) = true ->
  (customer_reply env = Stripe.Refused m ->
   beginUpgrade env (Some id) w
   = (w, Sent (json_status 400 (ErrorThrown (StripeError m)))))
  /\ (forall cus prod price,
         customer_reply env = Stripe.Issued cus ->
         fault (customer_update env) = None ->
         product_reply env = Stripe.Issued prod ->
         price_reply env = Stripe.Issued price ->
         subscription_reply env = Stripe.Refused m ->
         let w' := fst (beginUpgrade env (Some id) w) in
         snd (beginUpgrade env (Some id) w)
         = Sent (json_status 400 (ErrorThrown (StripeError m)))
         /\ Stripe.customers (stripe w')
            = (Stripe.customers (stripe w) ++ [upgrade_customer user cus])%list
         /\ Stripe.products (stripe w')
            = (Stripe.products (stripe w) ++ [upgrade_product prod])%list
         /\ Stripe.prices (stripe w')
            = (Stripe.prices (stripe w) ++ [upgrade_price price prod])%list
         /\ Stripe.subscriptions (stripe w') = Stripe.subscriptions (stripe w)
         /\ exists user',
             storage.getUser (db w') id = Some user'
             /\ u_stripeCustomerId user' = Some cus
             /\ u_plan user' = u_plan user
             /\ u_stripeSubscriptionId user' = u_stripeSubscriptionId user).
Proof.
  intros Hget Hnone Hmail. split.
  - intros Hc.
    unfold beginUpgrade, deserializeUser, create_subscription. rewrite Hget. simpl.
    rewrite Hnone, Hmail. simpl. run_async. unfold on_stripe, Stripe.customers_create.
    rewrite Hc. now destruct w.
  - intros cus prod price Hc Hf1 Hp Hpr Hs w'. subst w'.
    destruct (getUser_some _ _ _ Hget) as [_ Hid].
    pose proof (getUser_after_patch (db w) id user (only_customer cus) Hget) as Hget1.
    unfold beginUpgrade, deserializeUser, create_subscription. rewrite Hget. simpl.
    rewrite Hnone, Hmail. simpl.
    run_async. unfold on_stripe, on_db.
    unfold Stripe.customers_create, Stripe.products_create, Stripe.prices_create,
      Stripe.subscriptions_create, storage.updateUser.
    rewrite Hc, Hp, Hpr, Hs, Hf1. simpl. rewrite Hid.
    repeat split.
    eexists. split; [exact Hget1|]. simpl. auto.
Qed.

(** The provider issues Alice a customer, a product and a price, then
    refuses the subscription: she stays on the free plan with the new
    customer id on record. *)
Lemma X23_witness :
  let env := {| customer_reply := Stripe.Issued "cus_2";
                product_reply := Stripe.Issued "prod_2";
                price_reply := Stripe.Issued "price_2";
                subscription_reply := Stripe.Refused "card_declined";
                customer_update := Sample.engine "" 1000;
                stripe_info_update := Sample.engine "" 1001 |} in
  let w' := fst (beginUpgrade env (Some "u1") SampleBilling.world) in
  snd (beginUpgrade env (Some "u1") SampleBilling.world)
  = Sent (json_status 400 (ErrorThrown (StripeError "card_declined")))
  /\ Stripe.customers (stripe w')
     = (Stripe.customers SampleBilling.account ++ [upgrade_customer Sample.alice "cus_2"])%list
  /\ Stripe.products (stripe w')
     = (Stripe.products SampleBilling.account ++ [upgrade_product "prod_2"])%list
  /\ Stripe.prices (stripe w')
     = (Stripe.prices SampleBilling.account ++ [upgrade_price "price_2" "prod_2"])%list
  /\ Stripe.subscriptions (stripe w') = Stripe.subscriptions SampleBilling.account
  /\ exists user',
      storage.getUser (db w') "u1" = Some user'
      /\ u_stripeCustomerId user' = Some "cus_2"
      /\ u_plan user' = "free"
      /\ u_stripeSubscriptionId user' = None.
Proof.
  intros env.
  apply (proj2 (X23_refused_upgrade env "u1" Sample.alice SampleBilling.world
                  "card_declined" eq_refl eq_refl eq_refl) "cus_2" "prod_2" "price_2");
    reflexivity.
Defined.

(** ** Categories *)

(** X24. A created category can be read back. For an identity that owns a
    tenant, on whichever plan, a body with a [name] (and, if it likes, an
    integer [order]) and an insert the engine takes: the answer is the new
    category, in the caller's tenant whatever else the body carries, with
    the sort number 0 if none was sent; afterwards the owner's listing
    holds it, the listing of every other tenant is what it was, and no
    product was touched. *)
Theorem X24_created_category_is_read_back
        (g : Engine) (user : User) (body : Body) (s : Store)
        (restaurant : Restaurant) (data : InsertCategory) :
  storage.getRestaurantByUserId s (u_id user) = Some restaurant ->
  insertCategorySchema_parse body = Resolved data ->
  fault g = None ->
  has_key c_id (uuid g) (categories s) = false ->
  let c := created_category g (r_id restaurant) data in
  let s' := fst (post_categories g (Some user) body s) in
  snd (post_categories g (Some user) body s) = CategoryJson c
  /\ categories s' = (categories s ++ [c])%list
  /\ In c (storage.getCategoriesByRestaurant s' (r_id restaurant))
  /\ (forall rid, rid <> r_id restaurant ->
                  storage.getCategoriesByRestaurant s' rid
                  = storage.getCategoriesByRestaurant s rid)
  /\ products s' = products s.
Proof.
  intros Htenant Hparse Hfault Hfresh c s'. subst s'.
  destruct (getRestaurantByUserId_some _ _ _ Htenant) as [Hin _].
  assert (post_categories g (Some user) body s
          = (set_categories s (categories s ++ [c]), CategoryJson c)) as ->.
  { unfold post_categories, attempt. run_async. rewrite Htenant, Hparse.
    unfold storage.createCategory.
    now rewrite Hfault, Hfresh, (has_key_in r_id _ _ Hin). }
  simpl. split; [reflexivity|]. split; [reflexivity|]. split; [|split; [|reflexivity]].
  - unfold storage.getCategoriesByRestaurant. simpl.
    apply (Permutation_in _ (Permutation_sym (order_by_perm _ _))).
    apply filter_In. split; [apply in_or_app; right; now left|].
    simpl. apply String.eqb_refl.
  - intros rid Hrid. unfold storage.getCategoriesByRestaurant. simpl.
    rewrite filter_app. simpl.
    assert ((r_id restaurant =? rid) = false) as -> by (apply String.eqb_neq; congruence).
    now rewrite app_nil_r.
Qed.

(** Bob, who had no category, adds one; a tenant id in the body is not
    read. *)
Lemma X24_witness :
  let body := [("name", JStr "Mains"); ("restaurantId", JStr "r1")] in
  let c := created_category (Sample.engine "c3" 1200) "r2"
             {| ic_name := "Mains"; ic_order := None |} in
  let s' := fst (post_categories (Sample.engine "c3" 1200) (Some Sample.bob) body
                   Sample.store) in
  snd (post_categories (Sample.engine "c3" 1200) (Some Sample.bob) body Sample.store)
  = CategoryJson c
  /\ categories s' = (categories Sample.store ++ [c])%list
  /\ In c (storage.getCategoriesByRestaurant s' "r2")
  /\ (forall rid, rid <> "r2" ->
                  storage.getCategoriesByRestaurant s' rid
                  = storage.getCategoriesByRestaurant Sample.store rid)
  /\ products s' = products Sample.store.
Proof.
  apply (X24_created_category_is_read_back (Sample.engine "c3" 1200) Sample.bob
           [("name", JStr "Mains"); ("restaurantId", JStr "r1")] Sample.store Sample.bobs
           {| ic_name := "Mains"; ic_order := None |}); reflexivity.
Defined.

(** ** From registration to the public menu *)






(** ** Switching a product off *)




